(** * Real-time audio core of the week06 scripts

    A shallow embedding of the streaming core of
    [week06/7_interactive_effects.py] (class [AudioEffectsProcessor]),
    [week06/8_beat_detector.py] (class [BeatDetector]) and of the capture
    callback of [week06/9_advanced_recorder.py], together with the
    properties their specification states about them.

    Conventions of the embedding.
    - A numpy array of samples is a [list Q]; a Python float is a [Q].
      Arithmetic is exact: the rounding of binary32/binary64 is not
      modelled, so every statement below is about the algorithm on
      rationals.
    - A Python exception is a [Raise] in the [res] monad; [try]/[except]
      is a match on the raised [exn].
    - An object ([self]) is a record; a method takes the record and returns
      the new one next to its result.
    - Library code that the scripts call but do not contain (scipy's filter
      design and periodogram, numpy's [tanh] and [std]) enters as a Section
      variable, so that the theorems hold whatever those functions return. *)

From Stdlib Require Import Bool String.
From Stdlib Require Import List ZArith QArith Qabs Qminmax Lia Lqa Sorted.
Import ListNotations.

Set Implicit Arguments.

(** ** Python run time: exceptions *)

Module Py.

Inductive exn : Type :=
| QueueFull
| QueueEmpty
| ValueError
| IndexError.

Inductive res (A : Type) : Type :=
| Ok (a : A)
| Raise (e : exn).

Arguments Ok {A} a.
Arguments Raise {A} e.

Definition bind {A B : Type} (m : res A) (k : A -> res B) : res B :=
  match m with
  | Ok a => k a
  | Raise e => Raise e
  end.

Definition is_ok {A : Type} (m : res A) : bool :=
  match m with
  | Ok _ => true
  | Raise _ => false
  end.

(** [int(x)] on a float: truncation towards zero. *)
Definition int (x : Q) : Z := Z.quot (Qnum x) (Zpos (Qden x)).

(** [max(a, b)] and [min(a, b)] of the builtins: [max] keeps its first
    argument unless the second is strictly greater, [min] unless the second
    is strictly smaller. *)
Definition max (a b : Q) : Q := if Qlt_le_dec a b then b else a.
Definition min (a b : Q) : Q := if Qlt_le_dec b a then b else a.

End Py.

Import Py.

Declare Scope res_scope.
Delimit Scope res_scope with res.
Notation "x <- m ;; k" := (bind m (fun x => k))
  (at level 61, m at next level, right associativity) : res_scope.
Notation "' pat <- m ;; k" := (bind m (fun x => match x with pat => k end))
  (at level 61, pat pattern, m at next level, right associativity) : res_scope.

(** ** The numpy operations the scripts use *)

Module Np.

Section Arrays.

Variable A : Type.

(** [a[-k:]] as a list: the last [k] elements, all of [a] when [k] is 0 or
    exceeds the length (a Python slice clamps, and [-0] is [0]). *)
Definition tail_start (n k : nat) : nat :=
  if (k =? 0)%nat then 0%nat else (n - k)%nat.

Definition last_n (k : nat) (a : list A) : list A :=
  skipn (tail_start (length a) k) a.

(** [np.roll(a, shift)]: element [i] moves to [(i + shift) mod n]. *)
Definition roll (a : list A) (shift : Z) : list A :=
  let n := length a in
  if (n =? 0)%nat then a
  else
    let s := Z.to_nat (shift mod Z.of_nat n) in
    skipn (n - s) a ++ firstn (n - s) a.

(** [a[-k:] = v]: the slice has [m] elements; [v] must have [m] elements, or
    one element that is broadcast, else numpy raises [ValueError]. *)
Definition set_tail (a : list A) (k : nat) (v : list A) : res (list A) :=
  let start := tail_start (length a) k in
  let m := (length a - start)%nat in
  if (length v =? m)%nat then Ok (firstn start a ++ v)
  else
    match v with
    | [x] => Ok (firstn start a ++ repeat x m)
    | _ => Raise ValueError
    end.

(** [a[j]] for an integer [j]: negative indices count from the end. *)
Definition getitem (a : list A) (j : Z) : res A :=
  let n := Z.of_nat (length a) in
  let j' := if (j <? 0)%Z then (j + n)%Z else j in
  if ((0 <=? j') && (j' <? n))%Z then
    match nth_error a (Z.to_nat j') with
    | Some x => Ok x
    | None => Raise IndexError
    end
  else Raise IndexError.

(** [a[-1] = x]. *)
Definition set_last (a : list A) (x : A) : res (list A) :=
  match a with
  | [] => Raise IndexError
  | _ => Ok (removelast a ++ [x])
  end.

(** The idiom of every rolling buffer of the scripts:
    [buf = np.roll(buf, -len(chunk)); buf[-len(chunk):] = chunk]. *)
Definition rolling_write (buf chunk : list A) : res (list A) :=
  set_tail (roll buf (- Z.of_nat (length chunk))) (length chunk) chunk.

End Arrays.

(** [np.zeros(n)]. *)
Definition zeros (n : nat) : list Q := repeat 0%Q n.

Definition sum (a : list Q) : Q := fold_right Qplus 0%Q a.

(** [np.mean(a)]; on an empty array numpy returns nan, here [0 / 0]. *)
Definition mean (a : list Q) : Q := (sum a / inject_Z (Z.of_nat (length a)))%Q.

(** [np.diff(a)]: [a[i+1] - a[i]]. *)
Fixpoint diff (a : list Q) : list Q :=
  match a with
  | x :: ((y :: _) as rest) => (y - x)%Q :: diff rest
  | _ => []
  end.

(** [np.max(a)] of a non-empty array ([ValueError] on an empty one). *)
Definition max (a : list Q) : res Q :=
  match a with
  | [] => Raise ValueError
  | x :: rest => Ok (fold_left (fun m y => if Qlt_le_dec m y then y else m) rest x)
  end.

(** Sorting, for [np.median]. *)
Fixpoint insert_sorted (x : Q) (a : list Q) : list Q :=
  match a with
  | [] => [x]
  | y :: rest => if Qlt_le_dec y x then y :: insert_sorted x rest else x :: a
  end.

Definition sort (a : list Q) : list Q := fold_right insert_sorted [] a.

(** [np.median(a)]: the middle element of the sorted array, the mean of
    the two middle ones when the length is even. *)
Definition median (a : list Q) : Q :=
  let s := sort a in
  let n := length s in
  if Nat.even n
  then ((nth (n / 2 - 1) s 0 + nth (n / 2) s 0) / 2)%Q
  else nth (n / 2) s 0%Q.

End Np.

(** ** [queue.Queue]: a bounded FIFO, used without blocking *)

Module PyQueue.

Record t (A : Type) : Type := mk {
  maxsize : nat;
  items : list A
}.

Arguments mk {A} maxsize items.

Definition empty {A : Type} (q : t A) : bool :=
  match items q with
  | [] => true
  | _ => false
  end.

(** [queue.Queue.full()]: never full when [maxsize] is 0. *)
Definition full {A : Type} (q : t A) : bool :=
  ((0 <? maxsize q) && (maxsize q <=? length (items q)))%nat.

(** [q.put(x, block=False)]: raises [queue.Full] on a full queue. *)
Definition put_nowait {A : Type} (q : t A) (x : A) : res (t A) :=
  if full q then Raise QueueFull
  else Ok (mk (maxsize q) (items q ++ [x])).

(** [q.get_nowait()]: raises [queue.Empty] on an empty queue. *)
Definition get_nowait {A : Type} (q : t A) : res (A * t A) :=
  match items q with
  | [] => Raise QueueEmpty
  | x :: rest => Ok (x, mk (maxsize q) rest)
  end.

End PyQueue.

Import Py.
Local Open Scope res_scope.

(** [try: m except e: h]. *)
Definition exn_eqb (a b : exn) : bool :=
  match a, b with
  | QueueFull, QueueFull
  | QueueEmpty, QueueEmpty
  | ValueError, ValueError
  | IndexError, IndexError => true
  | _, _ => false
  end.

Definition catch {A : Type} (m : res A) (e : exn) (h : res A) : res A :=
  match m with
  | Ok a => Ok a
  | Raise e' => if exn_eqb e' e then h else Raise e'
  end.

(** Comparisons of floats as booleans. *)
Definition Qltb (a b : Q) : bool := if Qlt_le_dec a b then true else false.
Definition Qleb (a b : Q) : bool := if Qlt_le_dec b a then false else true.

(** The flag a PyAudio stream callback returns. *)
Inductive pa_flag : Type := paContinue.

(** ** [AudioEffectsProcessor] (week06/7_interactive_effects.py) *)

Module Effects.

Definition RATE : Z := 44100.
Definition CHUNK : nat := 512.
Definition ROLLING_WINDOW : nat := Z.to_nat (2 * RATE).

(** [filter_type]: ['low'], ['high'] or ['band']. *)
Inductive filter_kind : Type := low | high | band.

Record processor : Type := mk {
  reverb_enabled : bool;
  echo_enabled : bool;
  filter_enabled : bool;
  distortion_enabled : bool;
  reverb_decay : Q;
  echo_delay : Q;
  echo_feedback : Q;
  filter_cutoff : Z;
  filter_type : filter_kind;
  distortion_gain : Q;
  input_buffer : list Q;
  output_buffer : list Q;
  echo_buffer : list Q;
  reverb_buffer : list Q;
  input_queue : PyQueue.t (list Q);
  output_queue : PyQueue.t (list Q)
}.

(** [__init__]. *)
Definition init : processor := {|
  reverb_enabled := false;
  echo_enabled := false;
  filter_enabled := false;
  distortion_enabled := false;
  reverb_decay := 5 # 10;
  echo_delay := 3 # 10;
  echo_feedback := 4 # 10;
  filter_cutoff := 1000;
  filter_type := low;
  distortion_gain := 2;
  input_buffer := Np.zeros ROLLING_WINDOW;
  output_buffer := Np.zeros ROLLING_WINDOW;
  echo_buffer := Np.zeros (Z.to_nat (RATE * 2));
  reverb_buffer := Np.zeros (Z.to_nat (RATE * 3));
  input_queue := PyQueue.mk 50 [];
  output_queue := PyQueue.mk 50 []
|}.

(** Assignments to the attributes of [self]. *)
Definition set_reverb_enabled (st : processor) (v : bool) : processor :=
  mk v (echo_enabled st) (filter_enabled st) (distortion_enabled st)
     (reverb_decay st) (echo_delay st) (echo_feedback st) (filter_cutoff st)
     (filter_type st) (distortion_gain st) (input_buffer st) (output_buffer st)
     (echo_buffer st) (reverb_buffer st) (input_queue st) (output_queue st).

Definition set_echo_enabled (st : processor) (v : bool) : processor :=
  mk (reverb_enabled st) v (filter_enabled st) (distortion_enabled st)
     (reverb_decay st) (echo_delay st) (echo_feedback st) (filter_cutoff st)
     (filter_type st) (distortion_gain st) (input_buffer st) (output_buffer st)
     (echo_buffer st) (reverb_buffer st) (input_queue st) (output_queue st).

Definition set_filter_enabled (st : processor) (v : bool) : processor :=
  mk (reverb_enabled st) (echo_enabled st) v (distortion_enabled st)
     (reverb_decay st) (echo_delay st) (echo_feedback st) (filter_cutoff st)
     (filter_type st) (distortion_gain st) (input_buffer st) (output_buffer st)
     (echo_buffer st) (reverb_buffer st) (input_queue st) (output_queue st).

Definition set_distortion_enabled (st : processor) (v : bool) : processor :=
  mk (reverb_enabled st) (echo_enabled st) (filter_enabled st) v
     (reverb_decay st) (echo_delay st) (echo_feedback st) (filter_cutoff st)
     (filter_type st) (distortion_gain st) (input_buffer st) (output_buffer st)
     (echo_buffer st) (reverb_buffer st) (input_queue st) (output_queue st).

Definition set_reverb_decay (st : processor) (v : Q) : processor :=
  mk (reverb_enabled st) (echo_enabled st) (filter_enabled st) (distortion_enabled st)
     v (echo_delay st) (echo_feedback st) (filter_cutoff st)
     (filter_type st) (distortion_gain st) (input_buffer st) (output_buffer st)
     (echo_buffer st) (reverb_buffer st) (input_queue st) (output_queue st).

Definition set_echo_delay (st : processor) (v : Q) : processor :=
  mk (reverb_enabled st) (echo_enabled st) (filter_enabled st) (distortion_enabled st)
     (reverb_decay st) v (echo_feedback st) (filter_cutoff st)
     (filter_type st) (distortion_gain st) (input_buffer st) (output_buffer st)
     (echo_buffer st) (reverb_buffer st) (input_queue st) (output_queue st).

Definition set_filter_cutoff (st : processor) (v : Z) : processor :=
  mk (reverb_enabled st) (echo_enabled st) (filter_enabled st) (distortion_enabled st)
     (reverb_decay st) (echo_delay st) (echo_feedback st) v
     (filter_type st) (distortion_gain st) (input_buffer st) (output_buffer st)
     (echo_buffer st) (reverb_buffer st) (input_queue st) (output_queue st).

Definition set_filter_type (st : processor) (v : filter_kind) : processor :=
  mk (reverb_enabled st) (echo_enabled st) (filter_enabled st) (distortion_enabled st)
     (reverb_decay st) (echo_delay st) (echo_feedback st) (filter_cutoff st)
     v (distortion_gain st) (input_buffer st) (output_buffer st)
     (echo_buffer st) (reverb_buffer st) (input_queue st) (output_queue st).

Definition set_distortion_gain (st : processor) (v : Q) : processor :=
  mk (reverb_enabled st) (echo_enabled st) (filter_enabled st) (distortion_enabled st)
     (reverb_decay st) (echo_delay st) (echo_feedback st) (filter_cutoff st)
     (filter_type st) v (input_buffer st) (output_buffer st)
     (echo_buffer st) (reverb_buffer st) (input_queue st) (output_queue st).

Definition set_input_buffer (st : processor) (v : list Q) : processor :=
  mk (reverb_enabled st) (echo_enabled st) (filter_enabled st) (distortion_enabled st)
     (reverb_decay st) (echo_delay st) (echo_feedback st) (filter_cutoff st)
     (filter_type st) (distortion_gain st) v (output_buffer st)
     (echo_buffer st) (reverb_buffer st) (input_queue st) (output_queue st).

Definition set_output_buffer (st : processor) (v : list Q) : processor :=
  mk (reverb_enabled st) (echo_enabled st) (filter_enabled st) (distortion_enabled st)
     (reverb_decay st) (echo_delay st) (echo_feedback st) (filter_cutoff st)
     (filter_type st) (distortion_gain st) (input_buffer st) v
     (echo_buffer st) (reverb_buffer st) (input_queue st) (output_queue st).

Definition set_echo_buffer (st : processor) (v : list Q) : processor :=
  mk (reverb_enabled st) (echo_enabled st) (filter_enabled st) (distortion_enabled st)
     (reverb_decay st) (echo_delay st) (echo_feedback st) (filter_cutoff st)
     (filter_type st) (distortion_gain st) (input_buffer st) (output_buffer st)
     v (reverb_buffer st) (input_queue st) (output_queue st).

Definition set_input_queue (st : processor) (v : PyQueue.t (list Q)) : processor :=
  mk (reverb_enabled st) (echo_enabled st) (filter_enabled st) (distortion_enabled st)
     (reverb_decay st) (echo_delay st) (echo_feedback st) (filter_cutoff st)
     (filter_type st) (distortion_gain st) (input_buffer st) (output_buffer st)
     (echo_buffer st) (reverb_buffer st) v (output_queue st).

Definition set_output_queue (st : processor) (v : PyQueue.t (list Q)) : processor :=
  mk (reverb_enabled st) (echo_enabled st) (filter_enabled st) (distortion_enabled st)
     (reverb_decay st) (echo_delay st) (echo_feedback st) (filter_cutoff st)
     (filter_type st) (distortion_gain st) (input_buffer st) (output_buffer st)
     (echo_buffer st) (reverb_buffer st) (input_queue st) v.

(** [input_callback]: [in_data] is the frame already decoded by
    [np.frombuffer]. *)
Definition input_callback (st : processor) (in_data : list Q)
  : res (processor * (option (list Q) * pa_flag)) :=
  st' <- catch (q <- PyQueue.put_nowait (input_queue st) in_data;;
                Ok (set_input_queue st q))
               QueueFull (Ok st);;
  Ok (st', (None, paContinue)).

(** [output_callback]: the payload is the frame before [tobytes]. *)
Definition output_callback (st : processor) (frame_count : nat)
  : res (processor * (list Q * pa_flag)) :=
  catch ('(data, q) <- PyQueue.get_nowait (output_queue st);;
         Ok (set_output_queue st q, (data, paContinue)))
        QueueEmpty
        (Ok (st, (Np.zeros frame_count, paContinue))).

(** [apply_reverb]: the loop updates [output] in place, so that
    [output[i - delay_samples]] is the value already updated. *)
Definition list_set (a : list Q) (i : nat) (x : Q) : list Q :=
  firstn i a ++ x :: skipn (S i) a.

Fixpoint reverb_loop (decay : Q) (delay_samples : nat) (todo i : nat)
  (output : list Q) : list Q :=
  match todo with
  | O => output
  | S todo' =>
      let output' :=
        if (delay_samples <=? i)%nat
        then list_set output i
               (nth i output 0 + decay * nth (i - delay_samples) output 0)%Q
        else output in
      reverb_loop decay delay_samples todo' (S i) output'
  end.

Definition apply_reverb (st : processor) (audio_chunk : list Q) : list Q :=
  if negb (reverb_enabled st) then audio_chunk
  else
    let delay_samples := Z.to_nat (int ((5 # 100) * inject_Z RATE)) in
    let output :=
      reverb_loop (reverb_decay st) delay_samples (length audio_chunk) 0
        audio_chunk in
    map (fun x => x * (7 # 10))%Q output.

(** [apply_echo].  The loop reads [echo_buffer] and writes only
    [output[i]], whose value before the update is [audio_chunk[i]]. *)
Fixpoint echo_loop (buf : list Q) (feedback : Q) (delay_samples i : Z)
  (chunk : list Q) : res (list Q) :=
  match chunk with
  | [] => Ok []
  | x :: rest =>
      y <- (if (i <? Z.of_nat (length buf) - delay_samples)%Z
            then b <- Np.getitem buf (i + delay_samples);;
                 Ok (x + feedback * b)%Q
            else Ok x);;
      ys <- echo_loop buf feedback delay_samples (i + 1) rest;;
      Ok (y :: ys)
  end.

Definition apply_echo (st : processor) (audio_chunk : list Q)
  : res (processor * list Q) :=
  if negb (echo_enabled st) then Ok (st, audio_chunk)
  else
    let delay_samples := int (echo_delay st * inject_Z RATE) in
    output <- echo_loop (echo_buffer st) (echo_feedback st) delay_samples 0
                audio_chunk;;
    let rolled := Np.roll (echo_buffer st) (- Z.of_nat (length audio_chunk)) in
    buf <- Np.set_tail rolled (length audio_chunk) output;;
    Ok (set_echo_buffer st buf, output).

(** The last lines of the body of [process_audio]: the push of the
    processed frame to the playback queue. *)
Definition send_to_output (st : processor) (processed : list Q) : res processor :=
  catch (q <- PyQueue.put_nowait (output_queue st) processed;;
         Ok (set_output_queue st q))
        QueueFull (Ok st).

(** [on_key_press]; the printing and the redraw are left out. *)
Definition next_filter_type (k : filter_kind) : filter_kind :=
  match k with
  | low => high
  | high => band
  | band => low
  end.

Definition on_key_press (st : processor) (key : string) : processor :=
  if (key =? "r")%string then set_reverb_enabled st (negb (reverb_enabled st))
  else if (key =? "e")%string then set_echo_enabled st (negb (echo_enabled st))
  else if (key =? "f")%string then set_filter_enabled st (negb (filter_enabled st))
  else if (key =? "d")%string
    then set_distortion_enabled st (negb (distortion_enabled st))
  else if (key =? "1")%string
    then set_reverb_decay st (Py.max (1 # 10) (reverb_decay st - (1 # 10)))
  else if (key =? "2")%string
    then set_reverb_decay st (Py.min (9 # 10) (reverb_decay st + (1 # 10)))
  else if (key =? "3")%string
    then set_echo_delay st (Py.max (1 # 10) (echo_delay st - (1 # 10)))
  else if (key =? "4")%string
    then set_echo_delay st (Py.min 1 (echo_delay st + (1 # 10)))
  else if (key =? "5")%string
    then set_filter_cutoff st (Z.max 100 (filter_cutoff st - 200))
  else if (key =? "6")%string
    then set_filter_cutoff st (Z.min 8000 (filter_cutoff st + 200))
  else if (key =? "7")%string
    then set_filter_type st (next_filter_type (filter_type st))
  else if (key =? "8")%string
    then set_distortion_gain st (Py.max 1 (distortion_gain st - (5 # 10)))
  else if (key =? "9")%string
    then set_distortion_gain st (Py.min 5 (distortion_gain st + (5 # 10)))
  else st.

(** The stages that call into scipy and numpy. *)
Section Chain.

(** What [signal.butter(4, ...)] is asked to design. *)
Inductive design : Type :=
| design_low (wn : Q)
| design_high (wn : Q)
| design_band (lo hi : Q).

(** [signal.butter] followed by [signal.filtfilt]; [None] when either
    raises. *)
Variable butter_filtfilt : design -> list Q -> option (list Q).

(** [np.tanh] on one sample. *)
Variable np_tanh : Q -> Q.

Definition apply_filter (st : processor) (audio_chunk : list Q) : list Q :=
  if negb (filter_enabled st) then audio_chunk
  else
    let nyquist := (inject_Z RATE / 2)%Q in
    let normalized_cutoff := (inject_Z (filter_cutoff st) / nyquist)%Q in
    let d :=
      match filter_type st with
      | low => design_low normalized_cutoff
      | high => design_high normalized_cutoff
      | band =>
          design_band (Py.max (normalized_cutoff - (1 # 10)) (1 # 100))
                      (Py.min (normalized_cutoff + (1 # 10)) (99 # 100))
      end in
    match butter_filtfilt d audio_chunk with
    | Some filtered => filtered
    | None => audio_chunk
    end.

Definition apply_distortion (st : processor) (audio_chunk : list Q) : list Q :=
  if negb (distortion_enabled st) then audio_chunk
  else
    let amplified := map (fun x => x * distortion_gain st)%Q audio_chunk in
    let distorted := map np_tanh amplified in
    map (fun x => x * (5 # 10))%Q distorted.

(** One turn of the loop of [process_audio].  An exception other than
    [queue.Empty] leaves the loop, and the thread. *)
Definition process_audio_iter (st : processor) : res processor :=
  if negb (PyQueue.empty (input_queue st)) then
    catch
      ('(audio_chunk, q) <- PyQueue.get_nowait (input_queue st);;
       let st := set_input_queue st q in
       ib <- Np.rolling_write (input_buffer st) audio_chunk;;
       let st := set_input_buffer st ib in
       let processed := audio_chunk in
       let processed := apply_filter st processed in
       let processed := apply_distortion st processed in
       let processed := apply_reverb st processed in
       '(st, processed) <- apply_echo st processed;;
       ob <- Np.rolling_write (output_buffer st) processed;;
       let st := set_output_buffer st ob in
       send_to_output st processed)
      QueueEmpty (Ok st)
  else Ok st.

End Chain.

End Effects.

(** ** [BeatDetector] (week06/8_beat_detector.py) *)

Module Beat.

Definition RATE : Z := 44100.
Definition CHUNK : nat := 1024.
Definition BUFFER_SIZE : nat := Z.to_nat (4 * RATE).
Definition MIN_BPM : Q := 60.
Definition MAX_BPM : Q := 180.
Definition BEAT_THRESHOLD : Q := 3 # 10.
Definition ONSET_THRESHOLD : Q := 1 # 10.

(** The visual state ([beat_circles], [color_phase]) is left out:
    [add_beat_circle] touches nothing else. *)
Record detector : Type := mk {
  audio_buffer : list Q;
  onset_buffer : list Q;
  beat_times : list Q;
  tempo_history : list Q;
  audio_queue : PyQueue.t (list Q * Q);
  last_beat_time : Q;
  current_tempo : Q;
  beat_confidence : Q;
  beat_flash : Q
}.

(** [__init__]. *)
Definition init : detector := {|
  audio_buffer := Np.zeros BUFFER_SIZE;
  onset_buffer := Np.zeros 200;
  beat_times := [];
  tempo_history := [];
  audio_queue := PyQueue.mk 50 [];
  last_beat_time := 0;
  current_tempo := 120;
  beat_confidence := 0;
  beat_flash := 0
|}.

Definition set_audio_buffer (st : detector) (v : list Q) : detector :=
  mk v (onset_buffer st) (beat_times st) (tempo_history st) (audio_queue st)
     (last_beat_time st) (current_tempo st) (beat_confidence st) (beat_flash st).

Definition set_onset_buffer (st : detector) (v : list Q) : detector :=
  mk (audio_buffer st) v (beat_times st) (tempo_history st) (audio_queue st)
     (last_beat_time st) (current_tempo st) (beat_confidence st) (beat_flash st).

Definition set_beat_times (st : detector) (v : list Q) : detector :=
  mk (audio_buffer st) (onset_buffer st) v (tempo_history st) (audio_queue st)
     (last_beat_time st) (current_tempo st) (beat_confidence st) (beat_flash st).

Definition set_tempo_history (st : detector) (v : list Q) : detector :=
  mk (audio_buffer st) (onset_buffer st) (beat_times st) v (audio_queue st)
     (last_beat_time st) (current_tempo st) (beat_confidence st) (beat_flash st).

Definition set_audio_queue (st : detector) (v : PyQueue.t (list Q * Q)) : detector :=
  mk (audio_buffer st) (onset_buffer st) (beat_times st) (tempo_history st) v
     (last_beat_time st) (current_tempo st) (beat_confidence st) (beat_flash st).

Definition set_last_beat_time (st : detector) (v : Q) : detector :=
  mk (audio_buffer st) (onset_buffer st) (beat_times st) (tempo_history st)
     (audio_queue st) v (current_tempo st) (beat_confidence st) (beat_flash st).

Definition set_current_tempo (st : detector) (v : Q) : detector :=
  mk (audio_buffer st) (onset_buffer st) (beat_times st) (tempo_history st)
     (audio_queue st) (last_beat_time st) v (beat_confidence st) (beat_flash st).

Definition set_beat_flash (st : detector) (v : Q) : detector :=
  mk (audio_buffer st) (onset_buffer st) (beat_times st) (tempo_history st)
     (audio_queue st) (last_beat_time st) (current_tempo st) (beat_confidence st) v.

(** [audio_callback]; [now] is what [time.time()] returns. *)
Definition audio_callback (st : detector) (in_data : list Q) (now : Q)
  : res (detector * (option (list Q) * pa_flag)) :=
  st' <- catch (q <- PyQueue.put_nowait (audio_queue st) (in_data, now);;
                Ok (set_audio_queue st q))
               QueueFull (Ok st);;
  Ok (st', (None, paContinue)).

(** [update_tempo]. *)
Definition valid_interval (median_interval interval : Q) : bool :=
  Qltb (Qabs (interval - median_interval)) (median_interval * (5 # 10)).

Definition update_tempo (st : detector) : detector :=
  if (length (beat_times st) <? 2)%nat then st
  else
    let intervals := Np.diff (Np.last_n 10 (beat_times st)) in
    if (0 <? length intervals)%nat then
      let median_interval := Np.median intervals in
      let valid_intervals := filter (valid_interval median_interval) intervals in
      if (0 <? length valid_intervals)%nat then
        let avg_interval := Np.mean valid_intervals in
        let new_tempo := (60 / avg_interval)%Q in
        if Qleb MIN_BPM new_tempo && Qleb new_tempo MAX_BPM then
          let st :=
            set_current_tempo st
              ((8 # 10) * current_tempo st + (2 # 10) * new_tempo)%Q in
          let st := set_tempo_history st (tempo_history st ++ [current_tempo st]) in
          if (50 <? length (tempo_history st))%nat
          then set_tempo_history st (Np.last_n 50 (tempo_history st))
          else st
        else st
      else st
    else st.

(** Entries of [beat_times] kept after a beat at [current_time]. *)
Definition recent_beat (current_time t : Q) : bool := Qltb (current_time - t) 10.

Section Analysis.

(** [np.std] (a square root, so not a rational function). *)
Variable np_std : list Q -> Q.

(** The column scipy's [signal.spectrogram] computes for one segment of
    [nperseg] samples (Hann window, detrending, one-sided density). *)
Variable periodogram : list Q -> list Q.

(** [detect_beats]. *)
Definition detect_beats (st : detector) (onset_strength current_time : Q)
  : res (detector * bool) :=
  ob <- Np.set_last (Np.roll (onset_buffer st) (-1)) onset_strength;;
  let st := set_onset_buffer st ob in
  let recent_mean := Np.mean (Np.last_n 20 (onset_buffer st)) in
  let recent_std := np_std (Np.last_n 20 (onset_buffer st)) in
  let threshold := (recent_mean + ONSET_THRESHOLD * recent_std)%Q in
  if Qltb threshold onset_strength
     && Qltb BEAT_THRESHOLD onset_strength
     && Qltb (60 / MAX_BPM) (current_time - last_beat_time st)
  then
    if (5 <=? length (onset_buffer st))%nat then
      let local_window := Np.last_n 5 (onset_buffer st) in
      m <- Np.max local_window;;
      if Qeq_bool onset_strength m then
        let st := set_last_beat_time st current_time in
        let st := set_beat_times st (beat_times st ++ [current_time]) in
        let st :=
          set_beat_times st (filter (recent_beat current_time) (beat_times st)) in
        let st := update_tempo st in
        let st := set_beat_flash st 1 in
        Ok (st, true)
      else Ok (st, false)
    else Ok (st, false)
  else Ok (st, false).

(** [signal.spectrogram(x, nperseg=..., noverlap=...)] cuts [x] into the
    segments [x[k*step : k*step + nperseg]], [step = nperseg - noverlap],
    that fit entirely; the result has one column per segment. *)
Definition n_segments (len nperseg noverlap : nat) : nat :=
  ((len - noverlap) / (nperseg - noverlap))%nat.

Definition segments (x : list Q) (nperseg noverlap : nat) : list (list Q) :=
  map (fun k => firstn nperseg (skipn (k * (nperseg - noverlap)) x))
      (seq 0 (n_segments (length x) nperseg noverlap)).

Definition spectrogram (x : list Q) (nperseg noverlap : nat) : list (list Q) :=
  map periodogram (segments x nperseg noverlap).

(** [np.maximum(d, 0)] on one entry. *)
Definition positive_part (d : Q) : Q := if Qlt_le_dec d 0 then 0 else d.

(** [np.sum(np.maximum(m[:, 1:] - m[:, :-1], 0), axis=0)] on a matrix
    given by its columns. *)
Definition column_flux (prev next : list Q) : Q :=
  Np.sum (map (fun p => positive_part (snd p - fst p)) (combine prev next)).

Fixpoint spectral_flux (columns : list (list Q)) : list Q :=
  match columns with
  | prev :: ((next :: _) as rest) => column_flux prev next :: spectral_flux rest
  | _ => []
  end.

(** [compute_onset_strength]. *)
Definition compute_onset_strength (audio_chunk : list Q) : Q :=
  let window_size := 1024%nat in
  let hop_size := 512%nat in
  if (length audio_chunk <? window_size)%nat then 0
  else
    let stft := spectrogram audio_chunk window_size (window_size - hop_size) in
    let magnitude := map (map Qabs) stft in
    if (1 <? length magnitude)%nat then
      let flux := spectral_flux magnitude in
      if (0 <? length flux)%nat then Np.mean flux else 0
    else 0.

(** One turn of the loop of [process_audio]. *)
Definition process_audio_iter (st : detector) : res detector :=
  if negb (PyQueue.empty (audio_queue st)) then
    catch
      ('(item, q) <- PyQueue.get_nowait (audio_queue st);;
       let '(audio_chunk, timestamp) := item in
       let st := set_audio_queue st q in
       ab <- Np.rolling_write (audio_buffer st) audio_chunk;;
       let st := set_audio_buffer st ab in
       let onset_strength := compute_onset_strength audio_chunk in
       '(st, _) <- detect_beats st onset_strength timestamp;;
       Ok st)
      QueueEmpty (Ok st)
  else Ok st.

End Analysis.

End Beat.

(** ** The capture callback of [AdvancedAudioRecorder]
    (week06/9_advanced_recorder.py) *)

Module Recorder.

Section Callback.

(** The raw bytes PyAudio hands to the callback. *)
Variable bytes : Type.

(** [audio_callback] on [self.audio_queue]; [now] and [now'] are the two
    readings of [time.time()]. *)
Definition audio_callback (audio_queue : PyQueue.t (bytes * Q))
  (in_data : bytes) (now now' : Q)
  : res (PyQueue.t (bytes * Q) * (option bytes * pa_flag)) :=
  q <- catch (PyQueue.put_nowait audio_queue (in_data, now))
         QueueFull
         (catch ('(_, q1) <- PyQueue.get_nowait audio_queue;;
                 PyQueue.put_nowait q1 (in_data, now'))
                QueueEmpty (Ok audio_queue));;
  Ok (q, (None, paContinue)).

End Callback.

(** [__init__]: [queue.Queue(maxsize=100)]. *)
Definition init_queue (bytes : Type) : PyQueue.t (bytes * Q) := PyQueue.mk 100 [].

End Recorder.

(** ** [AdvancedAudioRecorder]: recording state and processing loop
    (week06/9_advanced_recorder.py)

    A session dictionary is a record.  The dictionary that
    [stop_recording] appends to [recording_sessions] is the object
    [current_session] still refers to; the methods modelled here write to
    [current_session] only while recording, and [start_recording] binds a
    new dictionary first, so the two are kept as separate values.
    [save_recording] and [play_last_recording], which write files and
    drive the audio device, are left out. *)

Module RecorderState.

(** [np.int16]: the value an integer wraps to, and [np.abs] on it. *)
Definition wrap16 (z : Z) : Z := ((z + 32768) mod 65536 - 32768)%Z.
Definition abs16 (x : Z) : Z := wrap16 (Z.abs x).

(** [np.max] on an integer array. *)
Definition max_z (a : list Z) : res Z :=
  match a with
  | [] => Raise ValueError
  | x :: rest => Ok (fold_left Z.max rest x)
  end.

(** [a[0::2]]; [a[1::2]] is [every_other (tl a)]. *)
Fixpoint every_other {A : Type} (a : list A) : list A :=
  match a with
  | [] => []
  | x :: rest =>
      x :: match rest with
           | [] => []
           | _ :: rest' => every_other rest'
           end
  end.

Record session : Type := mk_session {
  start_time : Q;
  duration : Q;
  frames : list (list Z);
  peak_level : Z;
  filename : option string
}.

Definition set_duration (s : session) (v : Q) : session :=
  mk_session (start_time s) v (frames s) (peak_level s) (filename s).

Definition set_frames (s : session) (v : list (list Z)) : session :=
  mk_session (start_time s) (duration s) v (peak_level s) (filename s).

Definition set_peak_level (s : session) (v : Z) : session :=
  mk_session (start_time s) (duration s) (frames s) v (filename s).

Section Machine.

(** The raw bytes of a captured frame, and
    [np.frombuffer(..., dtype=np.int16)] on them. *)
Variable bytes : Type.
Variable frombuffer : bytes -> res (list Z).

Record recorder : Type := mk {
  CHANNELS : Z;
  is_recording : bool;
  is_paused : bool;
  current_recording : list (list Z);
  recording_start_time : option Q;
  left_buffer : list Z;
  right_buffer : list Z;
  audio_queue : PyQueue.t (bytes * Q);
  recording_sessions : list session;
  current_session : option session
}.

Definition BUFFER_SIZE : nat := Z.to_nat (4 * 44100).

(** [__init__], for a device with [channels] channels. *)
Definition init (channels : Z) : recorder := {|
  CHANNELS := channels;
  is_recording := false;
  is_paused := false;
  current_recording := [];
  recording_start_time := None;
  left_buffer := repeat 0%Z BUFFER_SIZE;
  right_buffer := repeat 0%Z BUFFER_SIZE;
  audio_queue := Recorder.init_queue bytes;
  recording_sessions := [];
  current_session := None
|}.

Definition set_is_recording (r : recorder) (v : bool) : recorder :=
  mk (CHANNELS r) v (is_paused r) (current_recording r)
     (recording_start_time r) (left_buffer r) (right_buffer r) (audio_queue r)
     (recording_sessions r) (current_session r).

Definition set_is_paused (r : recorder) (v : bool) : recorder :=
  mk (CHANNELS r) (is_recording r) v (current_recording r)
     (recording_start_time r) (left_buffer r) (right_buffer r) (audio_queue r)
     (recording_sessions r) (current_session r).

Definition set_current_recording (r : recorder) (v : list (list Z)) : recorder :=
  mk (CHANNELS r) (is_recording r) (is_paused r) v
     (recording_start_time r) (left_buffer r) (right_buffer r) (audio_queue r)
     (recording_sessions r) (current_session r).

Definition set_recording_start_time (r : recorder) (v : option Q) : recorder :=
  mk (CHANNELS r) (is_recording r) (is_paused r) (current_recording r)
     v (left_buffer r) (right_buffer r) (audio_queue r)
     (recording_sessions r) (current_session r).

Definition set_left_buffer (r : recorder) (v : list Z) : recorder :=
  mk (CHANNELS r) (is_recording r) (is_paused r) (current_recording r)
     (recording_start_time r) v (right_buffer r) (audio_queue r)
     (recording_sessions r) (current_session r).

Definition set_right_buffer (r : recorder) (v : list Z) : recorder :=
  mk (CHANNELS r) (is_recording r) (is_paused r) (current_recording r)
     (recording_start_time r) (left_buffer r) v (audio_queue r)
     (recording_sessions r) (current_session r).

Definition set_audio_queue (r : recorder) (v : PyQueue.t (bytes * Q)) : recorder :=
  mk (CHANNELS r) (is_recording r) (is_paused r) (current_recording r)
     (recording_start_time r) (left_buffer r) (right_buffer r) v
     (recording_sessions r) (current_session r).

Definition set_recording_sessions (r : recorder) (v : list session) : recorder :=
  mk (CHANNELS r) (is_recording r) (is_paused r) (current_recording r)
     (recording_start_time r) (left_buffer r) (right_buffer r) (audio_queue r)
     v (current_session r).

Definition set_current_session (r : recorder) (v : option session) : recorder :=
  mk (CHANNELS r) (is_recording r) (is_paused r) (current_recording r)
     (recording_start_time r) (left_buffer r) (right_buffer r) (audio_queue r)
     (recording_sessions r) v.

(** How a button handler ends: it returns, or its last [print] raises
    [TypeError] on a [None] session; the recorder is as the handler left
    it either way. *)
Inductive outcome : Type :=
| Returned (r : recorder)
| RaisedTypeError (r : recorder).

(** [start_recording]; [now] is what [time.time()] returns. *)
Definition start_recording (r : recorder) (now : Q) : recorder :=
  let r := set_is_recording r true in
  let r := set_is_paused r false in
  let r := set_recording_start_time r (Some now) in
  let r := set_current_recording r [] in
  set_current_session r
    (Some {| start_time := now;
             duration := 0;
             frames := [];
             peak_level := 0;
             filename := None |}).

(** [toggle_pause]. *)
Definition toggle_pause (r : recorder) : recorder :=
  if is_recording r then set_is_paused r (negb (is_paused r)) else r.

(** [stop_recording]. *)
Definition stop_recording (r : recorder) (now : Q) : outcome :=
  if is_recording r then
    let r := set_is_recording r false in
    let r := set_is_paused r false in
    match current_session r with
    | Some s =>
        let s := set_duration s (now - start_time s) in
        let s := set_frames s (current_recording r) in
        let r := set_current_session r (Some s) in
        Returned (set_recording_sessions r (recording_sessions r ++ [s]))
    | None => RaisedTypeError r
    end
  else Returned r.

(** [toggle_recording]. *)
Definition toggle_recording (r : recorder) (now : Q) : outcome :=
  if negb (is_recording r) then Returned (start_recording r now)
  else stop_recording r now.

(** [clear_recordings]. *)
Definition clear_recordings (r : recorder) : recorder :=
  set_current_recording (set_recording_sessions r []) [].

(** The conversion and the update of the visualization buffers in
    [process_audio]: the recorder and [samples]. *)
Definition update_buffers (r : recorder) (audio_data : bytes)
  : res (recorder * list Z) :=
  if (CHANNELS r =? 2)%Z then
    samples <- frombuffer audio_data;;
    let left_samples := every_other samples in
    let right_samples := every_other (tl samples) in
    lb <- Np.rolling_write (left_buffer r) left_samples;;
    let r := set_left_buffer r lb in
    rb <- Np.rolling_write (right_buffer r) right_samples;;
    Ok (set_right_buffer r rb, samples)
  else
    samples <- frombuffer audio_data;;
    lb <- Np.rolling_write (left_buffer r) samples;;
    Ok (set_left_buffer r lb, samples).

(** One turn of the loop of [process_audio]. *)
Definition process_audio_iter (r : recorder) : res recorder :=
  if negb (PyQueue.empty (audio_queue r)) then
    catch
      ('(item, q) <- PyQueue.get_nowait (audio_queue r);;
       let '(audio_data, timestamp) := item in
       let r := set_audio_queue r q in
       '(r, samples) <- update_buffers r audio_data;;
       if is_recording r && negb (is_paused r) then
         frame <- frombuffer audio_data;;
         let r := set_current_recording r (current_recording r ++ [frame]) in
         match current_session r with
         | Some s =>
             current_peak <- max_z (map abs16 samples);;
             let peak :=
               if (peak_level s <? current_peak)%Z then current_peak
               else peak_level s in
             Ok (set_current_session r (Some (set_peak_level s peak)))
         | None => Ok r
         end
       else Ok r)
      QueueEmpty (Ok r)
  else Ok r.

End Machine.

End RecorderState.

(** * Vocabulary of the statements *)

(** ** Runs of the echo stage *)

Module EchoRun.

Import Effects.

(** What the loop of [apply_echo] computes: [chunk] summed, entry by
    entry, with [feedback] times the delay line from index [delay_samples]
    on; entries past the end of the delay line are copied. *)
Fixpoint mix (feedback : Q) (chunk delayed : list Q) : list Q :=
  match chunk, delayed with
  | x :: chunk', b :: delayed' => (x + feedback * b)%Q :: mix feedback chunk' delayed'
  | _, _ => chunk
  end.

(** A run of the echo stage over consecutive frames. *)
Fixpoint run_echo (st : processor) (chunks : list (list Q))
  : res (processor * list (list Q)) :=
  match chunks with
  | [] => Ok (st, [])
  | chunk :: rest =>
      '(st1, out) <- apply_echo st chunk;;
      '(st2, outs) <- run_echo st1 rest;;
      Ok (st2, out :: outs)
  end.

(** The same run computed with [mix], on the delay line alone. *)
Fixpoint run_mix (feedback : Q) (delay_samples : nat) (buf : list Q)
  (chunks : list (list Q)) : list Q * list (list Q) :=
  match chunks with
  | [] => (buf, [])
  | chunk :: rest =>
      let out := mix feedback chunk (skipn delay_samples buf) in
      let r := run_mix feedback delay_samples (skipn (length chunk) buf ++ out) rest in
      (fst r, out :: snd r)
  end.

(** [delay_samples] of [apply_echo]. *)
Definition delay_samples (st : processor) : Z :=
  int (echo_delay st * inject_Z RATE).

Definition fits (n : nat) (chunk : list Q) : bool :=
  ((0 <? length chunk) && (length chunk <=? n))%nat.

(** Frames of 512 samples: one pulse, and silence. *)
Definition impulse : list Q := 1 :: Np.zeros 511.
Definition silence : list Q := Np.zeros 512.
Definition all_zero (a : list Q) : bool := forallb (fun x => Qeq_bool x 0) a.

End EchoRun.

(** ** Overflow policies *)

(** The two overflow policies the specification names, as what a push of
    [x] makes of a full queue [q]. *)
Module OverflowPolicy.

Definition drop_newest {A : Type} (q : PyQueue.t A) (x : A) : PyQueue.t A := q.

Definition drop_oldest_then_retry {A : Type} (q : PyQueue.t A) (x : A)
  : PyQueue.t A :=
  PyQueue.mk (PyQueue.maxsize q) (tl (PyQueue.items q) ++ [x]).

End OverflowPolicy.

(** A processor whose playback queue holds its 50 frames, frame [k] being
    the one-sample frame [[k]]. *)
Definition playback_full : Effects.processor :=
  Effects.set_output_queue Effects.init
    (PyQueue.mk 50 (map (fun k => [inject_Z (Z.of_nat k)]) (seq 0 50))).

(** A recorder queue that holds its 100 items, item [k] being the byte
    string [[k]] stamped with time [k]. *)
Definition recorder_full : PyQueue.t (list nat * Q) :=
  PyQueue.mk 100 (map (fun k => ([k], inject_Z (Z.of_nat k))) (seq 0 100)).

(** ** Runs of the beat tracker *)

Module BeatRun.

Import Beat.

(** The tempo lies between [MIN_BPM] and [MAX_BPM]. *)
Definition tempo_in_range (st : detector) : Prop :=
  MIN_BPM <= current_tempo st /\ current_tempo st <= MAX_BPM.

(** The tempo [update_tempo] computes from the beat history. *)
Definition intervals_of (st : detector) : list Q :=
  Np.diff (Np.last_n 10 (beat_times st)).

Definition survivors_of (st : detector) : list Q :=
  filter (valid_interval (Np.median (intervals_of st))) (intervals_of st).

Definition new_tempo_of (st : detector) : Q := 60 / Np.mean (survivors_of st).

(** Whether [update_tempo] reaches its assignment to [current_tempo]. *)
Definition updates (st : detector) : bool :=
  (2 <=? length (beat_times st))%nat
  && (0 <? length (survivors_of st))%nat
  && Qleb MIN_BPM (new_tempo_of st) && Qleb (new_tempo_of st) MAX_BPM.

(** A run of the tracker over (onset strength, time) pairs: the final
    detector and the times at which a beat was reported. *)
Fixpoint run_beats (np_std : list Q -> Q) (st : detector) (inputs : list (Q * Q))
  : res (detector * list Q) :=
  match inputs with
  | [] => Ok (st, [])
  | (s, t) :: rest =>
      '(st1, b) <- detect_beats np_std st s t;;
      '(st2, fired) <- run_beats np_std st1 rest;;
      Ok (st2, if b : bool then t :: fired else fired)
  end.

(** Each reported beat is later than [60 / MAX_BPM] after the one before,
    the first one after [last]. *)
Fixpoint spaced (last : Q) (fired : list Q) : Prop :=
  match fired with
  | [] => True
  | t :: rest => 60 / MAX_BPM < t - last /\ spaced t rest
  end.

(** Time stamps that never go back. *)
Fixpoint nondecreasing (ts : list Q) : bool :=
  match ts with
  | a :: ((b :: _) as rest) => Qleb a b && nondecreasing rest
  | _ => true
  end.

(** Stand-ins for [np.std] and for the periodogram in closed examples. *)
Definition std_stub (a : list Q) : Q := 0.
Definition periodogram_stub (segment : list Q) : list Q := segment.

(** The detectors the program can be in: [__init__], then calls of its
    methods on any arguments. *)
Inductive reachable (np_std : list Q -> Q) (periodogram : list Q -> list Q)
  : detector -> Prop :=
| reach_init : reachable np_std periodogram init
| reach_callback st in_data now st' r :
    reachable np_std periodogram st ->
    audio_callback st in_data now = Ok (st', r) ->
    reachable np_std periodogram st'
| reach_detect st s t st' b :
    reachable np_std periodogram st ->
    detect_beats np_std st s t = Ok (st', b) ->
    reachable np_std periodogram st'
| reach_update st :
    reachable np_std periodogram st ->
    reachable np_std periodogram (update_tempo st)
| reach_process st st' :
    reachable np_std periodogram st ->
    process_audio_iter np_std periodogram st = Ok st' ->
    reachable np_std periodogram st'.

(** The detector after the tracker, started by [__init__], has reported
    beats at 1 s and at 2 s: one tempo update, towards 60 BPM. *)
Definition two_beats : detector :=
  match run_beats std_stub init [(1, 1); (1, 2)] with
  | Ok (st, _) => st
  | Raise _ => init
  end.

(** Two beats 2 s apart (30 BPM), and four beats whose first interval is
    exactly half the median interval. *)
Definition slow_beats : detector := set_beat_times init [1; 3].
Definition edge_beats : detector :=
  set_beat_times init [1; 3 # 2; 5 # 2; 7 # 2].

(** The sub-frames (windows of 1024 samples, one every 512) that fit in a
    chunk of [len] samples. *)
Definition subframes (len : nat) : nat :=
  if (len <? 1024)%nat then 0%nat else S ((len - 1024) / 512).

End BeatRun.

(** ** The onset strength of the specification *)

(** The onset strength as the specification words it: the chunk is cut
    into sub-frames of 1024 samples, one every 512; each has a magnitude
    spectrum; the spectral flux of a transition is the sum, over the
    frequency bins, of the positive differences between the magnitudes of
    the later and of the earlier sub-frame; the strength is the mean flux
    over the transitions, and 0 when fewer than 2 sub-frames fit. *)
Module OnsetClaim.

Import BeatRun.

Section Claimed.

Variable periodogram : list Q -> list Q.

Definition subframe (audio_chunk : list Q) (k : nat) : list Q :=
  firstn 1024 (skipn (512 * k) audio_chunk).

Definition magnitude_column (audio_chunk : list Q) (k : nat) : list Q :=
  map Qabs (periodogram (subframe audio_chunk k)).

Definition flux_claimed (prev next : list Q) : Q :=
  fold_right Qplus 0
    (map (fun bin => Qmax 0 (nth bin next 0 - nth bin prev 0))
         (seq 0 (Nat.min (length prev) (length next)))).

Definition onset_strength_claimed (audio_chunk : list Q) : Q :=
  let n := subframes (length audio_chunk) in
  if (n <? 2)%nat then 0
  else
    fold_right Qplus 0
      (map (fun j => flux_claimed (magnitude_column audio_chunk j)
                       (magnitude_column audio_chunk (S j)))
           (seq 0 (n - 1)))
    / inject_Z (Z.of_nat (n - 1)).

End Claimed.

(** Four half-windows at the levels 1, 0, 2 and -3: three sub-frames
    fit.  With the samples themselves as spectrum, the magnitudes fall by
    1 and rise by 2 in the first transition (flux 512 * 2) and rise by 2
    and by 1 in the second (flux 512 * 3). *)
Definition example_chunk : list Q :=
  repeat 1 512 ++ Np.zeros 512 ++ repeat 2 512 ++ repeat (- (3)) 512.

End OnsetClaim.

(** ** The tempo update of the specification *)

(** The update as the specification words it: survivors are the intervals
    that deviate from the median by at most half of it, and the smoothed
    value is clamped to [[MIN_BPM, MAX_BPM]]. *)
Module TempoClaim.

Import Beat BeatRun.

Definition clamp (lo hi x : Q) : Q := Py.max lo (Py.min hi x).

Definition kept (median_interval interval : Q) : bool :=
  Qleb (Qabs (interval - median_interval)) (median_interval * (5 # 10)).

Definition update_tempo_claimed (st : detector) : detector :=
  if (length (beat_times st) <? 2)%nat then st
  else
    let intervals := intervals_of st in
    let survivors := filter (kept (Np.median intervals)) intervals in
    match survivors with
    | [] => st
    | _ =>
        let new_tempo := 60 / Np.mean survivors in
        set_current_tempo st
          (clamp MIN_BPM MAX_BPM
             ((8 # 10) * current_tempo st + (2 # 10) * new_tempo))
    end.

End TempoClaim.

(** ** Well-formed processors *)

Module EffectsInv.

Import Effects.

(** The ranges the parameter keys of [on_key_press] keep. *)
Definition params_in_range (st : processor) : Prop :=
  ((1 # 10) <= reverb_decay st /\ reverb_decay st <= (9 # 10))
  /\ ((1 # 10) <= echo_delay st /\ echo_delay st <= 1)
  /\ (100 <= filter_cutoff st <= 8000)%Z
  /\ (1 <= distortion_gain st /\ distortion_gain st <= 5).

(** A frame that the three rolling buffers of the processor can take. *)
Definition frame_fits (st : processor) (chunk : list Q) : Prop :=
  (0 < length chunk)%nat
  /\ (length chunk <= length (input_buffer st))%nat
  /\ (length chunk <= length (output_buffer st))%nat
  /\ (length chunk <= length (echo_buffer st))%nat.

(** What [apply_filter] asks [signal.butter] to design. *)
Definition filter_design (st : processor) : design :=
  let normalized_cutoff := (inject_Z (filter_cutoff st) / (inject_Z RATE / 2))%Q in
  match filter_type st with
  | low => design_low normalized_cutoff
  | high => design_high normalized_cutoff
  | band =>
      design_band (Py.max (normalized_cutoff - (1 # 10)) (1 # 100))
                  (Py.min (normalized_cutoff + (1 # 10)) (99 # 100))
  end.

(** Critical frequencies [signal.butter] accepts: strictly between 0 and
    1 (the Nyquist frequency), increasing for a band. *)
Definition valid_design (d : design) : Prop :=
  match d with
  | design_low wn | design_high wn => 0 < wn /\ wn < 1
  | design_band lo hi => 0 < lo /\ lo < hi /\ hi < 1
  end.

(** [signal.filtfilt] returns as many samples as it is given. *)
Definition length_preserving
  (butter_filtfilt : design -> list Q -> option (list Q)) : Prop :=
  forall (d : design) (x y : list Q),
    butter_filtfilt d x = Some y -> length y = length x.

(** No effect is switched on. *)
Definition all_off (st : processor) : Prop :=
  filter_enabled st = false /\ distortion_enabled st = false
  /\ reverb_enabled st = false /\ echo_enabled st = false.

(** Stand-ins for scipy's filter and for [np.tanh] in closed examples:
    the first halves every sample, the second is [x / (1 + |x|)]. *)
Definition tanh_stub (x : Q) : Q := x / (1 + Qabs x).

Definition filter_stub (d : design) (x : list Q) : option (list Q) :=
  Some (map (fun v => v * (1 # 2)) x).

(** A frame, or a delay line, without signal. *)
Definition silent (a : list Q) : Prop := Forall (fun x => x == 0) a.

(** The four stages in the order in which [process_audio] applies them. *)
Definition chain (butter_filtfilt : design -> list Q -> option (list Q))
  (np_tanh : Q -> Q) (st : processor) (audio_chunk : list Q)
  : res (processor * list Q) :=
  apply_echo st
    (apply_reverb st
       (apply_distortion np_tanh st
          (apply_filter butter_filtfilt st audio_chunk))).

(** The same keys pressed one after the other. *)
Definition press_all (st : processor) (keys : list string) : processor :=
  fold_left on_key_press keys st.

End EffectsInv.

(** ** The distortion stage on rounded samples *)

Module DistortionRun.

Import Effects.

(** [np.tanh] on binary32 samples where its rounding shows: from
    [|x| = 10] on, [1 - tanh |x|] is below half the distance from 1 to the
    binary32 number before it, so the rounded result is exactly 1, or -1;
    below, some value strictly inside (-1, 1), here [x / (1 + |x|)]. *)
Definition tanh_rounded (x : Q) : Q :=
  if Qle_bool 10 (Qabs x) then (if Qle_bool 0 x then 1 else - (1))
  else x / (1 + Qabs x).

(** The processor after the distortion key and six presses of the gain
    key: distortion on, gain at its maximum 5. *)
Definition loud : processor :=
  fold_left on_key_press ["d"; "9"; "9"; "9"; "9"; "9"; "9"]%string init.

(** A frame with two loud samples and a quiet one. *)
Definition loud_frame : list Q := [2; 1 # 10; - (2)].

End DistortionRun.

(** ** Bounded queues *)

Module QueueInv.

(** A queue with a capacity that holds no more than its capacity. *)
Definition bounded {A : Type} (q : PyQueue.t A) : Prop :=
  (0 < PyQueue.maxsize q)%nat
  /\ (length (PyQueue.items q) <= PyQueue.maxsize q)%nat.

End QueueInv.

(** ** The beat history *)

Module BeatInv.

Import Beat.

(** [beat_times] is in strictly ascending order and holds nothing later
    than [last_beat_time]. *)
Definition history_ok (st : detector) : Prop :=
  StronglySorted Qlt (beat_times st)
  /\ Forall (fun x => x <= last_beat_time st) (beat_times st).

(** The detector after a call of [detect_beats] that reports a beat at
    [t], [ob] being the onset history after the call. *)
Definition after_beat (st : detector) (ob : list Q) (t : Q) : detector :=
  set_beat_flash
    (update_tempo
       (set_beat_times (set_last_beat_time (set_onset_buffer st ob) t)
          (filter (recent_beat t) (beat_times st ++ [t]))))
    1.

(** A detector with a short onset history and no audio, for closed
    examples. *)
Definition small_detector : detector :=
  mk [] [0; 0; 0; 0; 0] [] [] (PyQueue.mk 50 []) 0 120 0 0.

(** Four beats half a second apart. *)
Definition steady_example : detector :=
  set_beat_times small_detector [1; 3 # 2; 2; 5 # 2].

End BeatInv.

(** ** Runs of the recorder *)

Module RecorderRun.

Import RecorderState.

(** Two channels put back into one interleaved stream. *)
Fixpoint interleave {A : Type} (l r : list A) : list A :=
  match l, r with
  | x :: l', y :: r' => x :: y :: interleave l' r'
  | _, _ => l ++ r
  end.

(** The peak [process_audio] computes for one frame, and the peak it
    accumulates over frames from [p]. *)
Definition frame_peak (samples : list Z) : Z :=
  match max_z (map abs16 samples) with
  | Ok m => m
  | Raise _ => 0%Z
  end.

Definition peak_from (p : Z) (recorded : list (list Z)) : Z :=
  fold_left (fun p f => Z.max p (frame_peak f)) recorded p.

(** A stand-in for [np.frombuffer] in closed examples: the bytes are the
    samples. *)
Definition frombuffer_stub (data : list Z) : res (list Z) := Ok data.

Section Run.

Variable bytes : Type.
Variable frombuffer : bytes -> res (list Z).

(** A paused recorder is recording. *)
Definition consistent (r : recorder bytes) : Prop :=
  is_paused r = true -> is_recording r = true.

(** What happens while a session is recorded: a frame is captured and
    processed, or the pause key is pressed. *)
Inductive event : Type :=
| Frame (data : bytes) (now : Q)
| PauseKey.

(** The capture callback on the frame, then one turn of the processing
    loop. *)
Definition deliver (r : recorder bytes) (data : bytes) (now : Q)
  : res (recorder bytes) :=
  '(q, _) <- Recorder.audio_callback (audio_queue r) data now now;;
  process_audio_iter frombuffer (set_audio_queue r q).

Fixpoint run (r : recorder bytes) (events : list event) : res (recorder bytes) :=
  match events with
  | [] => Ok r
  | Frame data now :: rest => r' <- deliver r data now;; run r' rest
  | PauseKey :: rest => run (toggle_pause r) rest
  end.

(** The frames captured while not paused, decoded, in order. *)
Fixpoint unpaused (paused : bool) (events : list event) : list (list Z) :=
  match events with
  | [] => []
  | Frame data _ :: rest =>
      if paused then unpaused paused rest
      else match frombuffer data with
           | Ok samples => samples :: unpaused paused rest
           | Raise _ => unpaused paused rest
           end
  | PauseKey :: rest => unpaused (negb paused) rest
  end.

(** A frame that decodes to at least one sample per channel and to no more
    samples than a visualization buffer of [size] entries holds. *)
Definition frame_ok (size : nat) (ev : event) : Prop :=
  match ev with
  | Frame data _ =>
      exists samples,
        frombuffer data = Ok samples
        /\ (2 <= length samples <= size)%nat
  | PauseKey => True
  end.

End Run.

(** Small stereo recorders for closed examples, with buffers of 4 samples:
    idle with an empty queue, idle with one queued frame, and recording
    with one queued frame. *)
Definition small_recorder : recorder (list Z) :=
  @RecorderState.mk (list Z) 2 false false [] None [0; 0; 0; 0]%Z
    [0; 0; 0; 0]%Z (PyQueue.mk 100 []) [] None.

Definition idle_example : recorder (list Z) :=
  set_audio_queue small_recorder (PyQueue.mk 100 [([7; 8]%Z, 1)]).

Definition recording_example : recorder (list Z) :=
  set_audio_queue (start_recording small_recorder 0)
    (PyQueue.mk 100 [([7; -32768]%Z, 1)]).

(** Three captured frames, the second one while paused. *)
Definition example_events : list (event (list Z)) :=
  [Frame [1; -2; 3; -4]%Z 1; PauseKey _; Frame [9; 9]%Z 2; PauseKey _;
   Frame [5; -32768]%Z 3].

End RecorderRun.

(** * Properties *)

(** ** Rolling buffers *)

Section RollingBufferFacts.

Variable A : Type.

Lemma roll_back_by (buf : list A) (k : nat) :
  (0 < k <= length buf)%nat ->
  Np.roll buf (- Z.of_nat k) = skipn k buf ++ firstn k buf.
Proof.
  intros Hk. unfold Np.roll.
  destruct (Nat.eqb_spec (length buf) 0) as [E | _]; [lia |].
  assert (Hs : (length buf - Z.to_nat (- Z.of_nat k mod Z.of_nat (length buf)))%nat = k).
  { destruct (Nat.eq_dec k (length buf)) as [-> | Hne].
    - rewrite Z.mod_opp_l_z by (try lia; apply Z.mod_same; lia).
      simpl. lia.
    - rewrite Z.mod_opp_l_nz by (rewrite ?Z.mod_small; lia).
      rewrite Z.mod_small by lia. lia. }
  rewrite Hs. reflexivity.
Qed.

Lemma set_tail_same_length (a v : list A) :
  (0 < length v <= length a)%nat ->
  Np.set_tail a (length v) v = Ok (firstn (length a - length v) a ++ v).
Proof.
  intros Hv. unfold Np.set_tail, Np.tail_start.
  destruct (Nat.eqb_spec (length v) 0) as [E | _]; [lia |].
  replace (length a - (length a - length v))%nat with (length v) by lia.
  rewrite Nat.eqb_refl. reflexivity.
Qed.

Lemma rolling_write_ok (buf chunk : list A) :
  (0 < length chunk <= length buf)%nat ->
  Np.rolling_write buf chunk = Ok (skipn (length chunk) buf ++ chunk).
Proof.
  intros Hk. unfold Np.rolling_write.
  rewrite roll_back_by by exact Hk.
  assert (Hlen : length (skipn (length chunk) buf ++ firstn (length chunk) buf)
                 = length buf).
  { rewrite length_app, length_skipn, length_firstn. lia. }
  rewrite set_tail_same_length by (rewrite Hlen; exact Hk).
  rewrite Hlen, firstn_app, length_skipn.
  replace (length buf - length chunk - (length buf - length chunk))%nat
    with 0%nat by lia.
  rewrite firstn_all2 by (rewrite length_skipn; lia).
  simpl. rewrite app_nil_r. reflexivity.
Qed.

(** Outside that range numpy refuses the write: an empty chunk selects the
    whole buffer as the slice, a chunk longer than the buffer does not fit. *)
Lemma length_roll (a : list A) (shift : Z) :
  length (Np.roll a shift) = length a.
Proof.
  unfold Np.roll. destruct (length a =? 0)%nat; [reflexivity |].
  rewrite length_app, length_skipn, length_firstn. lia.
Qed.

Lemma rolling_write_empty_chunk (buf : list A) :
  buf <> [] -> Np.rolling_write buf [] = Raise ValueError.
Proof.
  intros Hne. unfold Np.rolling_write, Np.set_tail, Np.tail_start.
  rewrite length_roll. simpl.
  destruct buf as [| x buf]; [congruence | reflexivity].
Qed.

Lemma rolling_write_long_chunk (buf chunk : list A) :
  (1 < length chunk)%nat -> (length buf < length chunk)%nat ->
  Np.rolling_write buf chunk = Raise ValueError.
Proof.
  intros H1 Hlt. unfold Np.rolling_write, Np.set_tail, Np.tail_start.
  rewrite length_roll.
  destruct (Nat.eqb_spec (length chunk) 0) as [E | _]; [lia |].
  destruct (Nat.eqb_spec (length chunk)
              (length buf - (length buf - length chunk))) as [E | _]; [lia |].
  destruct chunk as [| x [| y chunk]]; simpl in *; try lia; reflexivity.
Qed.

End RollingBufferFacts.

(** C7.  A rolling-buffer write of a chunk that is not empty and not longer
    than the buffer drops the oldest [len(chunk)] entries, keeps the others
    in their order and puts the chunk at the end; the capacity is kept.  A
    buffer [0,0,0,0] written with [1,2] and then [3,4,5] holds [2,3,4,5]. *)
Theorem rolling_write_evicts_oldest :
  forall (A : Type) (buf samples : list A),
    (0 < length samples <= length buf)%nat ->
    Np.rolling_write buf samples = Ok (skipn (length samples) buf ++ samples)
    /\ length (skipn (length samples) buf ++ samples) = length buf
    /\ (b <- Np.rolling_write [0; 0; 0; 0] [1; 2];;
        Np.rolling_write b [3; 4; 5]) = Ok [2; 3; 4; 5]%Q.
Proof.
  intros A buf samples H. split; [| split].
  - apply rolling_write_ok. exact H.
  - rewrite length_app, length_skipn. lia.
  - reflexivity.
Qed.

Lemma rolling_write_evicts_oldest_witness :
  (0 < length [1; 2] <= length [0; 0; 0; 0])%nat
  /\ Np.rolling_write [0; 0; 0; 0] [1; 2] = Ok [0; 0; 1; 2]%Q.
Proof.
  split.
  - simpl. lia.
  - apply (rolling_write_evicts_oldest [0; 0; 0; 0]%Q [1; 2]%Q). simpl. lia.
Defined.

(** ** The playback callback *)

(** C8.  On an empty output queue the playback callback returns, without
    raising, a frame of exactly [frame_count] samples that are all zero, and
    leaves the processor as it was. *)
Theorem output_callback_silence_when_empty :
  forall (st : Effects.processor) (frame_count : nat),
    PyQueue.items (Effects.output_queue st) = [] ->
    Effects.output_callback st frame_count
      = Ok (st, (Np.zeros frame_count, paContinue))
    /\ length (Np.zeros frame_count) = frame_count
    /\ Forall (fun x => x = 0%Q) (Np.zeros frame_count).
Proof.
  intros st frame_count Hempty. split; [| split].
  - unfold Effects.output_callback, PyQueue.get_nowait.
    rewrite Hempty. reflexivity.
  - apply repeat_length.
  - apply Forall_forall. intros x Hx.
    apply repeat_spec in Hx. exact Hx.
Qed.

Lemma output_callback_silence_when_empty_witness :
  PyQueue.items (Effects.output_queue Effects.init) = []
  /\ Effects.output_callback Effects.init 3
     = Ok (Effects.init, ([0; 0; 0]%Q, paContinue)).
Proof.
  split.
  - reflexivity.
  - apply (output_callback_silence_when_empty Effects.init 3). reflexivity.
Defined.

(** The callback returns in every state: the only exception its body can
    raise is the one it catches. *)
Lemma output_callback_never_raises (st : Effects.processor) (frame_count : nat) :
  is_ok (Effects.output_callback st frame_count) = true.
Proof.
  unfold Effects.output_callback, PyQueue.get_nowait.
  destruct (PyQueue.items (Effects.output_queue st)); reflexivity.
Qed.

(** ** The echo stage *)

Module EchoFacts.

Import Effects EchoRun.


Lemma mix_nil_r (feedback : Q) (chunk : list Q) : mix feedback chunk [] = chunk.
Proof. destruct chunk; reflexivity. Qed.

Lemma length_mix (feedback : Q) (chunk delayed : list Q) :
  length (mix feedback chunk delayed) = length chunk.
Proof.
  revert delayed. induction chunk as [| x chunk IH]; intros [| b delayed];
    simpl; try reflexivity.
  rewrite IH. reflexivity.
Qed.

Lemma getitem_in_range (buf : list Q) (j : nat) :
  (j < length buf)%nat ->
  Np.getitem buf (Z.of_nat j) = Ok (nth j buf 0%Q).
Proof.
  intros Hj. unfold Np.getitem.
  destruct (Z.ltb_spec (Z.of_nat j) 0) as [Hneg | _]; [lia |].
  destruct (Z.leb_spec 0 (Z.of_nat j)) as [_ | Hneg]; [| lia].
  destruct (Z.ltb_spec (Z.of_nat j) (Z.of_nat (length buf))) as [_ | Hge]; [| lia].
  simpl. rewrite Nat2Z.id.
  rewrite (nth_error_nth' buf 0%Q Hj). reflexivity.
Qed.

Lemma skipn_cons_nth (buf : list Q) (j : nat) :
  (j < length buf)%nat ->
  skipn j buf = nth j buf 0%Q :: skipn (S j) buf.
Proof.
  revert j. induction buf as [| b buf IH]; intros j Hj; simpl in Hj; [lia |].
  destruct j as [| j]; [reflexivity |].
  simpl. apply IH. lia.
Qed.

Lemma echo_loop_mix (buf : list Q) (feedback : Q) (d : nat) (chunk : list Q) :
  forall i : nat,
    echo_loop buf feedback (Z.of_nat d) (Z.of_nat i) chunk
    = Ok (mix feedback chunk (skipn (i + d) buf)).
Proof.
  induction chunk as [| x chunk IH]; intros i; [reflexivity |].
  cbn [echo_loop].
  replace (Z.of_nat i + 1)%Z with (Z.of_nat (S i)) by lia.
  rewrite IH.
  destruct (Z.ltb_spec (Z.of_nat i) (Z.of_nat (length buf) - Z.of_nat d)) as [Hin | Hout].
  - replace (Z.of_nat i + Z.of_nat d)%Z with (Z.of_nat (i + d)) by lia.
    rewrite getitem_in_range by lia.
    rewrite (@skipn_cons_nth buf (i + d)) by lia.
    reflexivity.
  - rewrite (skipn_all2 buf) by lia.
    rewrite (skipn_all2 buf) by lia.
    rewrite !mix_nil_r. reflexivity.
Qed.

(** An enabled call on a frame that fits the delay line. *)
Lemma apply_echo_enabled (st : processor) (chunk : list Q) :
  echo_enabled st = true ->
  (0 <= delay_samples st)%Z ->
  (0 < length chunk <= length (echo_buffer st))%nat ->
  let out := mix (echo_feedback st) chunk
               (skipn (Z.to_nat (delay_samples st)) (echo_buffer st)) in
  apply_echo st chunk
  = Ok (set_echo_buffer st (skipn (length chunk) (echo_buffer st) ++ out), out).
Proof.
  intros Hon Hd Hlen out. unfold apply_echo. rewrite Hon. simpl negb. cbv iota.
  fold (delay_samples st).
  pose proof (echo_loop_mix (echo_buffer st) (echo_feedback st)
                (Z.to_nat (delay_samples st)) chunk 0) as Hloop.
  rewrite Z2Nat.id in Hloop by exact Hd.
  change (Z.of_nat 0) with 0%Z in Hloop.
  rewrite Hloop. cbn [bind Nat.add]. fold out. cbv zeta.
  assert (Hout : length out = length chunk) by apply length_mix.
  assert (Hwrite : Np.set_tail
                     (Np.roll (echo_buffer st) (- Z.of_nat (length chunk)))
                     (length chunk) out
                   = Ok (skipn (length chunk) (echo_buffer st) ++ out)).
  { rewrite <- Hout. apply rolling_write_ok. rewrite Hout. exact Hlen. }
  rewrite Hwrite. reflexivity.
Qed.

End EchoFacts.

Module EchoRuns.

Import Effects EchoRun EchoFacts.

Lemma set_echo_buffer_same (st : processor) :
  set_echo_buffer st (echo_buffer st) = st.
Proof. destruct st; reflexivity. Qed.


Lemma run_echo_mix (chunks : list (list Q)) :
  forall st : processor,
    echo_enabled st = true ->
    (0 <= delay_samples st)%Z ->
    forallb (fits (length (echo_buffer st))) chunks = true ->
    let r := run_mix (echo_feedback st) (Z.to_nat (delay_samples st))
               (echo_buffer st) chunks in
    run_echo st chunks = Ok (set_echo_buffer st (fst r), snd r).
Proof.
  induction chunks as [| chunk rest IH]; intros st Hon Hd Hfit r.
  - simpl. rewrite set_echo_buffer_same. reflexivity.
  - simpl in Hfit. apply andb_prop in Hfit. destruct Hfit as [Hc Hrest].
    unfold fits in Hc. apply andb_prop in Hc. destruct Hc as [Hpos Hle].
    apply Nat.ltb_lt in Hpos. apply Nat.leb_le in Hle.
    cbn [run_echo].
    rewrite apply_echo_enabled by (try assumption; lia).
    cbn [bind].
    set (out := mix (echo_feedback st) chunk
                  (skipn (Z.to_nat (delay_samples st)) (echo_buffer st))) in *.
    set (st1 := set_echo_buffer st (skipn (length chunk) (echo_buffer st) ++ out)).
    assert (Hlen1 : length (echo_buffer st1) = length (echo_buffer st)).
    { unfold st1. simpl. rewrite length_app, length_skipn.
      unfold out. rewrite length_mix. lia. }
    rewrite (IH st1); [| exact Hon | exact Hd | rewrite Hlen1; exact Hrest].
    reflexivity.
Qed.

End EchoRuns.

Section EchoClaims.

Import Effects EchoRun EchoFacts EchoRuns.

(** Sample [i] of the output of an enabled call: the input sample plus
    [feedback] times the entry [i + delay_samples] of the delay line,
    counted from its oldest end. *)
Lemma mix_nth (feedback : Q) (chunk delayed : list Q) :
  forall i : nat,
    (i < length chunk)%nat -> (i < length delayed)%nat ->
    nth i (mix feedback chunk delayed) 0%Q
    = (nth i chunk 0 + feedback * nth i delayed 0)%Q.
Proof.
  revert delayed. induction chunk as [| x chunk IH]; intros delayed i Hc Hd;
    simpl in Hc; [lia |].
  destruct delayed as [| b delayed]; simpl in Hd; [lia |].
  destruct i as [| i]; simpl; [reflexivity |].
  apply IH; lia.
Qed.

Lemma nth_skipn (buf : list Q) (d i : nat) :
  nth i (skipn d buf) 0%Q = nth (d + i) buf 0%Q.
Proof.
  revert buf. induction d as [| d IH]; intros buf; [reflexivity |].
  destruct buf as [| b buf]; simpl; [destruct i; reflexivity | apply IH].
Qed.

Lemma apply_echo_reads (st : processor) (chunk : list Q) (i : nat) :
  echo_enabled st = true ->
  (0 <= delay_samples st)%Z ->
  (0 < length chunk <= length (echo_buffer st))%nat ->
  (i < length chunk)%nat ->
  (Z.to_nat (delay_samples st) + i < length (echo_buffer st))%nat ->
  exists st' out,
    apply_echo st chunk = Ok (st', out)
    /\ echo_buffer st' = skipn (length chunk) (echo_buffer st) ++ out
    /\ nth i out 0%Q
       = (nth i chunk 0
          + echo_feedback st
            * nth (Z.to_nat (delay_samples st) + i) (echo_buffer st) 0)%Q.
Proof.
  intros Hon Hd Hlen Hi Hin.
  eexists. eexists. split; [apply apply_echo_enabled; assumption |].
  split; [reflexivity |].
  rewrite mix_nth, nth_skipn; [reflexivity | exact Hi |].
  rewrite length_skipn. lia.
Qed.


(** C1 (the code departs from the claim).  With the echo switched on in
    the initial configuration ([echo_delay] 0.3 s, that is 13230 samples,
    delay line of 88200 samples) a pulse followed by silence is not echoed
    0.3 s later: the 145 frames after the pulse, which cover 0.3 s, are
    silent, and the echo, scaled by the feedback 0.4, comes out at sample
    218 of frame 146, that is 146 * 512 + 218 = 74970 = 88200 - 13230
    samples after the pulse. *)
Theorem echo_of_pulse_comes_late :
  delay_samples (on_key_press init "e") = 13230%Z
  /\ Z.of_nat (length (echo_buffer (on_key_press init "e"))) = 88200%Z
  /\ ('(_, outs) <- run_echo (on_key_press init "e")
                      (impulse :: repeat silence 146);;
      Ok (length outs,
          forallb all_zero (firstn 145 (skipn 1 outs)),
          Qeq_bool (nth 218 (nth 146 outs []) 0) (4 # 10)))
     = Ok (147%nat, true, true).
Proof.
  split; [vm_compute; reflexivity |].
  split; [vm_compute; reflexivity |].
  rewrite run_echo_mix;
    [| reflexivity | vm_compute; discriminate | vm_compute; reflexivity].
  cbv zeta. cbn [bind].
  vm_compute. reflexivity.
Qed.

(** C10.  With the echo switched off, [apply_echo] returns its input and
    the processor unchanged, over any number of frames; no key touches the
    delay line; and once the echo key switches the stage on again, the
    call reads the delay line as it was before. *)
Theorem apply_echo_disabled_keeps_delay_line :
  forall (st : processor) (chunks : list (list Q)) (chunk : list Q) (key : string),
    echo_enabled st = false ->
    apply_echo st chunk = Ok (st, chunk)
    /\ run_echo st chunks = Ok (st, chunks)
    /\ echo_buffer (on_key_press st key) = echo_buffer st
    /\ echo_enabled (on_key_press st "e") = true
    /\ apply_echo (on_key_press st "e") chunk
       = (output <- echo_loop (echo_buffer st) (echo_feedback st)
                      (delay_samples st) 0 chunk;;
          buf <- Np.set_tail
                   (Np.roll (echo_buffer st) (- Z.of_nat (length chunk)))
                   (length chunk) output;;
          Ok (set_echo_buffer (on_key_press st "e") buf, output)).
Proof.
  intros st chunks chunk key Hoff.
  assert (Hone : forall c, apply_echo st c = Ok (st, c)).
  { intros c. unfold apply_echo. rewrite Hoff. reflexivity. }
  split; [apply Hone |].
  split.
  { induction chunks as [| c rest IH]; [reflexivity |].
    cbn [run_echo]. rewrite Hone. cbn [bind]. rewrite IH. reflexivity. }
  split.
  { unfold on_key_press.
    repeat match goal with
           | |- context [if ?b then _ else _] => destruct b
           end; reflexivity. }
  split.
  { cbn. rewrite Hoff. reflexivity. }
  unfold apply_echo at 1. cbn. rewrite Hoff. reflexivity.
Qed.

Lemma apply_echo_disabled_keeps_delay_line_witness :
  echo_enabled init = false
  /\ apply_echo init [1; 2]%Q = Ok (init, [1; 2]%Q).
Proof.
  split.
  - reflexivity.
  - apply (@apply_echo_disabled_keeps_delay_line init [] [1; 2]%Q "e").
    reflexivity.
Defined.

End EchoClaims.

(** ** Queue overflow *)


Section OverflowClaims.

Import OverflowPolicy.


(** C2, as stated, fails twice.  The push of the effects processor to its
    full playback queue leaves the queue as it is, oldest frame included:
    the new frame is dropped.  The capture callback of the recorder, on its
    full capture queue, removes the oldest item and appends the new one. *)
Lemma overflow_policies_are_swapped :
  PyQueue.full (Effects.output_queue playback_full) = true
  /\ (st <- Effects.send_to_output playback_full [50];;
      Ok (Effects.output_queue st))
     = Ok (drop_newest (Effects.output_queue playback_full) [50])
  /\ drop_newest (Effects.output_queue playback_full) [50]
     <> drop_oldest_then_retry (Effects.output_queue playback_full) [50]
  /\ PyQueue.full recorder_full = true
  /\ (r <- Recorder.audio_callback recorder_full [100%nat] 100 101;; Ok (fst r))
     = Ok (drop_oldest_then_retry recorder_full ([100%nat], 101))
  /\ drop_oldest_then_retry recorder_full ([100%nat], 101)
     <> drop_newest recorder_full ([100%nat], 101).
Proof.
  repeat split; try reflexivity; intros H; discriminate H.
Qed.

Lemma full_within_capacity (A : Type) (q : PyQueue.t A) :
  PyQueue.full q = true ->
  (length (PyQueue.items q) <= PyQueue.maxsize q)%nat ->
  PyQueue.items q <> []
  /\ PyQueue.full (PyQueue.mk (PyQueue.maxsize q) (tl (PyQueue.items q))) = false.
Proof.
  unfold PyQueue.full. intros Hfull Hcap.
  apply andb_prop in Hfull. destruct Hfull as [Hpos Hle].
  apply Nat.ltb_lt in Hpos. apply Nat.leb_le in Hle.
  destruct q as [m xs]. simpl in *.
  destruct xs as [| x xs]; simpl in *; [lia |].
  split; [discriminate |].
  apply andb_false_iff. right. apply Nat.leb_gt. lia.
Qed.

(** C2, amended.  Every push is a [put] with [block=False].  On a full
    queue the effects processor drops the incoming frame, at its capture
    queue and at its playback queue alike, and so does the beat detector at
    its capture queue; the recorder, at its capture queue, drops the oldest
    item and pushes the incoming one again.  On a queue that is not full
    each of them appends the incoming item.  None of the four raises. *)
Theorem overflow_policy_per_queue :
  forall (st : Effects.processor) (bst : Beat.detector) (bytes : Type)
         (q : PyQueue.t (bytes * Q)) (frame : list Q) (in_data : bytes)
         (now now' : Q),
    (length (PyQueue.items q) <= PyQueue.maxsize q)%nat ->
    Effects.input_callback st frame
    = Ok (if PyQueue.full (Effects.input_queue st)
          then Effects.set_input_queue st
                 (drop_newest (Effects.input_queue st) frame)
          else Effects.set_input_queue st
                 (PyQueue.mk (PyQueue.maxsize (Effects.input_queue st))
                    (PyQueue.items (Effects.input_queue st) ++ [frame])),
          (None, paContinue))
    /\ Effects.send_to_output st frame
       = Ok (if PyQueue.full (Effects.output_queue st)
             then Effects.set_output_queue st
                    (drop_newest (Effects.output_queue st) frame)
             else Effects.set_output_queue st
                    (PyQueue.mk (PyQueue.maxsize (Effects.output_queue st))
                       (PyQueue.items (Effects.output_queue st) ++ [frame])))
    /\ Beat.audio_callback bst frame now
       = Ok (if PyQueue.full (Beat.audio_queue bst)
             then Beat.set_audio_queue bst
                    (drop_newest (Beat.audio_queue bst) (frame, now))
             else Beat.set_audio_queue bst
                    (PyQueue.mk (PyQueue.maxsize (Beat.audio_queue bst))
                       (PyQueue.items (Beat.audio_queue bst) ++ [(frame, now)])),
             (None, paContinue))
    /\ Recorder.audio_callback q in_data now now'
       = Ok (if PyQueue.full q
             then drop_oldest_then_retry q (in_data, now')
             else PyQueue.mk (PyQueue.maxsize q)
                    (PyQueue.items q ++ [(in_data, now)]),
             (None, paContinue)).
Proof.
  intros st bst bytes q frame in_data now now' Hcap.
  unfold drop_newest, drop_oldest_then_retry.
  split; [| split; [| split]].
  - unfold Effects.input_callback, PyQueue.put_nowait.
    destruct (PyQueue.full (Effects.input_queue st)); [| reflexivity].
    destruct st; reflexivity.
  - unfold Effects.send_to_output, PyQueue.put_nowait.
    destruct (PyQueue.full (Effects.output_queue st)); [| reflexivity].
    destruct st; reflexivity.
  - unfold Beat.audio_callback, PyQueue.put_nowait.
    destruct (PyQueue.full (Beat.audio_queue bst)); [| reflexivity].
    destruct bst; reflexivity.
  - unfold Recorder.audio_callback.
    unfold PyQueue.put_nowait at 1.
    destruct (PyQueue.full q) eqn:Hfull; [| reflexivity].
    destruct (full_within_capacity q Hfull Hcap) as [Hne Hroom].
    cbn [catch exn_eqb]. unfold PyQueue.get_nowait.
    destruct (PyQueue.items q) as [| x xs] eqn:Hitems; [congruence |].
    cbn [bind]. unfold PyQueue.put_nowait.
    simpl in Hroom. rewrite Hroom. reflexivity.
Qed.

Lemma overflow_policy_per_queue_witness :
  (length (PyQueue.items recorder_full) <= PyQueue.maxsize recorder_full)%nat
  /\ Effects.send_to_output playback_full [50] = Ok playback_full.
Proof.
  split.
  - apply Nat.leb_le. reflexivity.
  - apply (@overflow_policy_per_queue playback_full Beat.init (list nat)
             recorder_full [50] [100%nat] 100 101).
    apply Nat.leb_le. reflexivity.
Defined.

End OverflowClaims.

(** ** The beat tracker *)

Module BeatFacts.

Import Beat BeatRun.

Lemma Qltb_lt (a b : Q) : Qltb a b = true -> a < b.
Proof. unfold Qltb. destruct (Qlt_le_dec a b); [trivial | discriminate]. Qed.

Lemma Qltb_ge (a b : Q) : Qltb a b = false -> b <= a.
Proof. unfold Qltb. destruct (Qlt_le_dec a b); [discriminate | trivial]. Qed.

Lemma Qleb_le (a b : Q) : Qleb a b = true -> a <= b.
Proof. unfold Qleb. destruct (Qlt_le_dec b a); [discriminate | trivial]. Qed.

Lemma Qleb_gt (a b : Q) : Qleb a b = false -> b < a.
Proof. unfold Qleb. destruct (Qlt_le_dec b a); [trivial | discriminate]. Qed.


Lemma update_tempo_other_fields (st : detector) :
  last_beat_time (update_tempo st) = last_beat_time st
  /\ beat_times (update_tempo st) = beat_times st
  /\ onset_buffer (update_tempo st) = onset_buffer st
  /\ audio_buffer (update_tempo st) = audio_buffer st
  /\ audio_queue (update_tempo st) = audio_queue st.
Proof.
  unfold update_tempo.
  repeat match goal with
         | |- context [if ?b then _ else _] => destruct b
         end; repeat split; reflexivity.
Qed.

Lemma survivors_nonempty_intervals (st : detector) :
  (0 <? length (survivors_of st))%nat = true ->
  (0 <? length (intervals_of st))%nat = true.
Proof.
  unfold survivors_of. intros H. apply Nat.ltb_lt in H. apply Nat.ltb_lt.
  pose proof (filter_length_le (valid_interval (Np.median (intervals_of st)))
                (intervals_of st)). lia.
Qed.

Lemma update_tempo_skips (st : detector) :
  updates st = false -> update_tempo st = st.
Proof.
  unfold updates, update_tempo.
  fold (intervals_of st). fold (survivors_of st). fold (new_tempo_of st).
  intros H.
  destruct (Nat.ltb_spec (length (beat_times st)) 2) as [Hlt | Hge];
    [reflexivity |].
  destruct (0 <? length (intervals_of st))%nat; [| reflexivity].
  destruct (0 <? length (survivors_of st))%nat; [| reflexivity].
  destruct (Nat.leb_spec 2 (length (beat_times st))) as [_ | Hlt]; [| lia].
  simpl in H. rewrite H. reflexivity.
Qed.

Lemma update_tempo_smooths (st : detector) :
  updates st = true ->
  current_tempo (update_tempo st)
  = (8 # 10) * current_tempo st + (2 # 10) * new_tempo_of st.
Proof.
  unfold updates, update_tempo.
  fold (intervals_of st). fold (survivors_of st). fold (new_tempo_of st).
  intros H.
  apply andb_prop in H. destruct H as [H Hmax].
  apply andb_prop in H. destruct H as [H Hmin].
  apply andb_prop in H. destruct H as [Hlen Hsurv].
  apply Nat.leb_le in Hlen.
  destruct (Nat.ltb_spec (length (beat_times st)) 2) as [Hlt | _]; [lia |].
  rewrite (survivors_nonempty_intervals st Hsurv), Hsurv, Hmin, Hmax.
  cbn [andb].
  match goal with
  | |- context [if ?b then _ else _] => destruct b
  end; reflexivity.
Qed.

Lemma updates_in_range (st : detector) :
  updates st = true ->
  MIN_BPM <= new_tempo_of st /\ new_tempo_of st <= MAX_BPM.
Proof.
  unfold updates. intros H.
  apply andb_prop in H. destruct H as [H Hmax].
  apply andb_prop in H. destruct H as [_ Hmin].
  split; apply Qleb_le; assumption.
Qed.

Lemma update_tempo_in_range (st : detector) :
  tempo_in_range st -> tempo_in_range (update_tempo st).
Proof.
  intros [Hlo Hhi]. unfold tempo_in_range.
  destruct (updates st) eqn:Hu.
  - rewrite (update_tempo_smooths st Hu).
    destruct (updates_in_range st Hu) as [Hmin Hmax].
    unfold MIN_BPM, MAX_BPM in *. split; lra.
  - rewrite (update_tempo_skips st Hu). split; assumption.
Qed.

End BeatFacts.

Section BeatRuns.

Import Beat BeatRun BeatFacts.

Variable np_std : list Q -> Q.

Lemma length_set_last (a : list Q) (x : Q) :
  a <> [] ->
  exists b, Np.set_last a x = Ok b /\ length b = length a.
Proof.
  intros Hne. destruct a as [| y a]; [congruence |].
  exists (removelast (y :: a) ++ [x]). split; [reflexivity |].
  rewrite length_app. cbn [length].
  pose proof (app_removelast_last 0%Q Hne) as Hsplit.
  apply (f_equal (@length Q)) in Hsplit.
  rewrite length_app in Hsplit. cbn [length] in Hsplit. lia.
Qed.

Lemma max_of_window (a : list Q) :
  (5 <= length a)%nat -> exists m, Np.max (Np.last_n 5 a) = Ok m.
Proof.
  intros Hlen. unfold Np.last_n, Np.tail_start. cbn [Nat.eqb].
  destruct (skipn (length a - 5) a) as [| x w] eqn:Hw.
  - apply (f_equal (@length Q)) in Hw. rewrite length_skipn in Hw.
    simpl in Hw. lia.
  - eexists. reflexivity.
Qed.

(** One call of [detect_beats] on a detector whose onset history is not
    empty: it returns; the history keeps its length; a beat is reported
    only later than [60 / MAX_BPM] after the last one and moves
    [last_beat_time] to the current time; the tempo stays in range. *)
Lemma detect_beats_step (st : detector) (s t : Q) :
  onset_buffer st <> [] ->
  exists st' b,
    detect_beats np_std st s t = Ok (st', b)
    /\ length (onset_buffer st') = length (onset_buffer st)
    /\ (tempo_in_range st -> tempo_in_range st')
    /\ (if b then 60 / MAX_BPM < t - last_beat_time st /\ last_beat_time st' = t
        else last_beat_time st' = last_beat_time st).
Proof.
  intros Hne. unfold detect_beats.
  assert (Hroll : Np.roll (onset_buffer st) (-1) <> []).
  { intros E. apply (f_equal (@length Q)) in E. rewrite length_roll in E.
    destruct (onset_buffer st); [congruence | discriminate]. }
  destruct (@length_set_last _ s Hroll) as [ob [Hset Hlen]].
  rewrite length_roll in Hlen.
  rewrite Hset. cbn [bind].
  set (st0 := set_onset_buffer st ob).
  change (onset_buffer st0) with ob.
  change (last_beat_time st0) with (last_beat_time st).
  assert (Hquiet : exists st' b,
            Ok (st0, false) = Ok (st', b)
            /\ length (onset_buffer st') = length (onset_buffer st)
            /\ (tempo_in_range st -> tempo_in_range st')
            /\ (if b then 60 / MAX_BPM < t - last_beat_time st
                          /\ last_beat_time st' = t
                else last_beat_time st' = last_beat_time st)).
  { exists st0, false. split; [reflexivity |].
    split; [exact Hlen |]. split; [intros H; exact H | reflexivity]. }
  match goal with
  | |- context [if ?c then _ else _] => destruct c eqn:Hcond
  end; [| exact Hquiet].
  apply andb_prop in Hcond. destruct Hcond as [_ Hgap].
  apply Qltb_lt in Hgap.
  destruct (Nat.leb_spec 5 (length ob)) as [Hfive | _]; [| exact Hquiet].
  destruct (@max_of_window ob Hfive) as [m Hm]. rewrite Hm. cbn [bind].
  destruct (Qeq_bool s m); [| exact Hquiet].
  eexists. exists true. split; [reflexivity |].
  set (st1 := set_beat_times _ _).
  pose proof (update_tempo_other_fields st1) as [Hlast [_ [Hob _]]].
  cbn [onset_buffer last_beat_time set_beat_flash].
  rewrite Hlast, Hob.
  split; [exact Hlen |].
  split; [| split; [exact Hgap | reflexivity]].
  intros Hrange.
  assert (H1 : tempo_in_range (update_tempo st1)).
  { apply update_tempo_in_range. exact Hrange. }
  exact H1.
Qed.


Lemma run_beats_spaced (inputs : list (Q * Q)) :
  forall st : detector,
    onset_buffer st <> [] ->
    exists st' fired,
      run_beats np_std st inputs = Ok (st', fired)
      /\ spaced (last_beat_time st) fired
      /\ (tempo_in_range st -> tempo_in_range st').
Proof.
  induction inputs as [| [s t] rest IH]; intros st Hne.
  - exists st, []. split; [reflexivity |]. split; [exact I | intros H; exact H].
  - destruct (@detect_beats_step st s t Hne) as [st1 [b [Hstep [Hlen [Hrange Hb]]]]].
    assert (Hne1 : onset_buffer st1 <> []).
    { intros E. rewrite E in Hlen. destruct (onset_buffer st);
        [congruence | discriminate]. }
    destruct (IH st1 Hne1) as [st2 [fired [Hrun [Hsp Hrange2]]]].
    exists st2, (if b then t :: fired else fired).
    cbn [run_beats]. rewrite Hstep. cbn [bind]. rewrite Hrun. cbn [bind].
    split; [reflexivity |].
    split; [| tauto].
    destruct b.
    + destruct Hb as [Hgap Hlast]. rewrite Hlast in Hsp.
      split; assumption.
    + rewrite Hb in Hsp. exact Hsp.
Qed.

Lemma gap_positive : 0 < 60 / MAX_BPM.
Proof. reflexivity. Qed.

Lemma spaced_from_earlier (fired : list Q) :
  forall last last' : Q,
    last' <= last -> spaced last fired -> spaced last' fired.
Proof.
  destruct fired as [| t rest]; intros last last' Hle Hsp; [exact I |].
  destruct Hsp as [Hgap Hrest]. split; [lra | exact Hrest].
Qed.

Lemma spaced_pairwise (fired : list Q) :
  forall (last : Q) (i j : nat),
    spaced last fired ->
    (i < j < length fired)%nat ->
    60 / MAX_BPM < nth j fired 0 - nth i fired 0.
Proof.
  induction fired as [| t rest IH]; intros last i j Hsp Hij;
    simpl in Hij; [lia |].
  destruct Hsp as [Hgap Hrest].
  destruct j as [| j]; [lia |].
  destruct i as [| i].
  - cbn [nth].
    destruct j as [| j].
    + destruct rest as [| t' rest']; simpl in Hij; [lia |].
      destruct Hrest as [Hgap' _]. exact Hgap'.
    + assert (Hj : 60 / MAX_BPM < nth (S j) rest 0 - nth 0 rest 0).
      { apply (IH t 0%nat (S j) Hrest). lia. }
      destruct rest as [| t' rest']; simpl in Hij; [lia |].
      destruct Hrest as [Hgap' _]. cbn [nth] in Hj |- *.
      pose proof gap_positive. lra.
  - cbn [nth]. apply (IH t i j Hrest). lia.
Qed.

End BeatRuns.

Section BeatClaims.

Import Beat BeatRun BeatFacts.


(** C3.  Over any run of the tracker on time stamps that never go back,
    started with a non-empty onset history, every call returns and any two
    reported beats are more than [60 / MAX_BPM] seconds apart; the first one
    is that far from the initial [last_beat_time].  A single call reports a
    beat only when the current time exceeds [last_beat_time] by more than
    [60 / MAX_BPM], and then sets [last_beat_time] to the current time;
    otherwise it leaves [last_beat_time] alone. *)
Theorem beats_never_closer_than_min_interval :
  forall (np_std : list Q -> Q) (st : detector) (inputs : list (Q * Q)),
    onset_buffer st <> [] ->
    nondecreasing (map snd inputs) = true ->
    (exists st' fired,
        run_beats np_std st inputs = Ok (st', fired)
        /\ spaced (last_beat_time st) fired
        /\ forall i j : nat,
            (i < j < length fired)%nat ->
            60 / MAX_BPM < nth j fired 0 - nth i fired 0)
    /\ forall s t : Q,
        exists st1 b,
          detect_beats np_std st s t = Ok (st1, b)
          /\ (if b
              then 60 / MAX_BPM < t - last_beat_time st
                   /\ last_beat_time st1 = t
              else last_beat_time st1 = last_beat_time st).
Proof.
  intros np_std st inputs Hne _. split.
  - destruct (@run_beats_spaced np_std inputs st Hne)
      as [st' [fired [Hrun [Hsp _]]]].
    exists st', fired. split; [exact Hrun |]. split; [exact Hsp |].
    intros i j Hij. exact (@spaced_pairwise fired (last_beat_time st) i j Hsp Hij).
  - intros s t.
    destruct (@detect_beats_step np_std st s t Hne) as [st1 [b [Hstep [_ [_ Hb]]]]].
    exists st1, b. split; assumption.
Qed.

Lemma beats_never_closer_than_min_interval_witness :
  onset_buffer init <> []
  /\ nondecreasing (map snd [(1, 1); (1, 2); (1, 2 + (1 # 4)); (1, 3)]) = true
  /\ exists st' fired,
      run_beats std_stub init [(1, 1); (1, 2); (1, 2 + (1 # 4)); (1, 3)]
      = Ok (st', fired)
      /\ spaced (last_beat_time init) fired
      /\ forall i j : nat,
          (i < j < length fired)%nat ->
          60 / MAX_BPM < nth j fired 0 - nth i fired 0.
Proof.
  assert (Hne : onset_buffer init <> []) by (intros H; discriminate H).
  split; [exact Hne |].
  split; [reflexivity |].
  apply (@beats_never_closer_than_min_interval std_stub init
           [(1, 1); (1, 2); (1, 2 + (1 # 4)); (1, 3)] Hne).
  reflexivity.
Defined.

(** The run of the witness reports the beats at 1, 2 and 3 and passes over
    the onset at 2.25. *)
Example run_beats_example :
  (r <- run_beats std_stub init [(1, 1); (1, 2); (1, 2 + (1 # 4)); (1, 3)];;
   Ok (snd r))
  = Ok [1; 2; 3].
Proof. vm_compute. reflexivity. Qed.


Lemma detect_beats_keeps_range (np_std : list Q -> Q) (st st' : detector)
  (s t : Q) (b : bool) :
  detect_beats np_std st s t = Ok (st', b) ->
  tempo_in_range st -> tempo_in_range st'.
Proof.
  intros Hstep Hrange.
  destruct (onset_buffer st) as [| x ob] eqn:Hob.
  - unfold detect_beats in Hstep. rewrite Hob in Hstep. discriminate Hstep.
  - assert (Hne : onset_buffer st <> []) by (rewrite Hob; discriminate).
    destruct (@detect_beats_step np_std st s t Hne)
      as [st1 [b1 [Hstep1 [_ [Hkeep _]]]]].
    rewrite Hstep1 in Hstep. injection Hstep as <- _. apply Hkeep. exact Hrange.
Qed.

Lemma audio_callback_keeps_tempo (st st' : detector) (in_data : list Q) (now : Q)
  (r : option (list Q) * pa_flag) :
  audio_callback st in_data now = Ok (st', r) ->
  current_tempo st' = current_tempo st.
Proof.
  unfold audio_callback, PyQueue.put_nowait.
  destruct (PyQueue.full (audio_queue st)); cbn; intros H;
    injection H as <- _; reflexivity.
Qed.

Lemma process_audio_iter_keeps_range (np_std : list Q -> Q)
  (periodogram : list Q -> list Q) (st st' : detector) :
  process_audio_iter np_std periodogram st = Ok st' ->
  tempo_in_range st -> tempo_in_range st'.
Proof.
  unfold process_audio_iter, PyQueue.empty, PyQueue.get_nowait.
  destruct (PyQueue.items (audio_queue st)) as [| [chunk stamp] rest].
  - cbn. intros H. injection H as <-. trivial.
  - cbn.
    destruct (Np.rolling_write (audio_buffer st) chunk) as [ab | e].
    + cbn [bind].
      match goal with
      | |- context [detect_beats np_std ?s0 ?x ?y] =>
          destruct (detect_beats np_std s0 x y) as [[st1 b] | e] eqn:Hstep
      end.
      * cbn. intros H Hrange. injection H as <-.
        eapply detect_beats_keeps_range; [exact Hstep | exact Hrange].
      * cbn. destruct (exn_eqb e QueueEmpty); intros H Hrange;
          [injection H as <-; exact Hrange | discriminate H].
    + cbn. destruct (exn_eqb e QueueEmpty); intros H Hrange;
        [injection H as <-; exact Hrange | discriminate H].
Qed.

Lemma run_beats_reachable (np_std : list Q -> Q)
  (periodogram : list Q -> list Q) (inputs : list (Q * Q))
  (st st' : detector) (fired : list Q) :
  reachable np_std periodogram st ->
  run_beats np_std st inputs = Ok (st', fired) ->
  reachable np_std periodogram st'.
Proof.
  revert st st' fired.
  induction inputs as [| [s t] rest IH]; intros st st' fired Hreach Hrun.
  - cbn in Hrun. injection Hrun as <- _. exact Hreach.
  - cbn [run_beats] in Hrun.
    destruct (detect_beats np_std st s t) as [[st1 b] | e] eqn:Hstep;
      [| discriminate Hrun].
    cbn [bind] in Hrun.
    destruct (run_beats np_std st1 rest) as [[st2 fired2] | e] eqn:Hrest;
      [| discriminate Hrun].
    cbn [bind] in Hrun. injection Hrun as <- _.
    apply (IH st1 st2 fired2); [| exact Hrest].
    eapply reach_detect; [exact Hreach | exact Hstep].
Qed.

(** C4.  The tempo starts at 120 and lies in [[MIN_BPM, MAX_BPM]] in every
    detector the program can reach, whatever the library functions return;
    from there an update on any beat history keeps it in that range, either
    unchanged or replaced by 0.8 times itself plus 0.2 times a new tempo
    that lies in the range. *)
Theorem tempo_stays_in_range :
  forall (np_std : list Q -> Q) (periodogram : list Q -> list Q)
         (st : detector),
    reachable np_std periodogram st ->
    current_tempo init = 120
    /\ tempo_in_range st
    /\ forall beats : list Q,
        let st1 := set_beat_times st beats in
        tempo_in_range (update_tempo st1)
        /\ (current_tempo (update_tempo st1) = current_tempo st
            \/ (current_tempo (update_tempo st1)
                = (8 # 10) * current_tempo st + (2 # 10) * new_tempo_of st1
                /\ MIN_BPM <= new_tempo_of st1 <= MAX_BPM)).
Proof.
  intros np_std periodogram st Hreach.
  assert (Hrange : tempo_in_range st).
  { induction Hreach as [| st in_data now st' r _ IH Hcb
                         | st s t st' b _ IH Hstep
                         | st _ IH
                         | st st' _ IH Hproc].
    - unfold tempo_in_range, MIN_BPM, MAX_BPM. simpl. split; lra.
    - unfold tempo_in_range.
      erewrite audio_callback_keeps_tempo by exact Hcb. exact IH.
    - eapply detect_beats_keeps_range; [exact Hstep | exact IH].
    - apply update_tempo_in_range. exact IH.
    - eapply process_audio_iter_keeps_range; [exact Hproc | exact IH]. }
  split; [reflexivity |]. split; [exact Hrange |].
  intros beats st1.
  assert (Hrange1 : tempo_in_range st1) by exact Hrange.
  split; [apply update_tempo_in_range; exact Hrange1 |].
  destruct (updates st1) eqn:Hu.
  - right. split; [apply (update_tempo_smooths st1 Hu) |].
    apply updates_in_range. exact Hu.
  - left. rewrite (update_tempo_skips st1 Hu). reflexivity.
Qed.

Lemma tempo_stays_in_range_witness :
  reachable std_stub periodogram_stub two_beats
  /\ beat_times two_beats = [1; 2]
  /\ current_tempo two_beats == 108
  /\ tempo_in_range two_beats
  /\ new_tempo_of (set_beat_times two_beats [1; 2; 5 # 2]) == 80
  /\ current_tempo (update_tempo (set_beat_times two_beats [1; 2; 5 # 2]))
     == 512 # 5
  /\ tempo_in_range (update_tempo (set_beat_times two_beats [1; 2; 5 # 2])).
Proof.
  assert (H : reachable std_stub periodogram_stub two_beats).
  { unfold two_beats.
    destruct (run_beats std_stub init [(1, 1); (1, 2)]) as [[st fired] | e] eqn:Hrun.
    - eapply run_beats_reachable; [apply reach_init | exact Hrun].
    - apply reach_init. }
  split; [exact H |].
  split; [vm_compute; reflexivity |].
  split; [vm_compute; reflexivity |].
  pose proof (@tempo_stays_in_range std_stub periodogram_stub two_beats H)
    as [_ [Hrange Hupd]].
  split; [exact Hrange |].
  split; [vm_compute; reflexivity |].
  split; [vm_compute; reflexivity |].
  exact (proj1 (Hupd [1; 2; 5 # 2])).
Defined.

End BeatClaims.

(** ** The tempo update *)


Section TempoClaims.

Import Beat BeatRun BeatFacts TempoClaim.


(** C5, as stated, fails twice.  A new tempo of 30 BPM is out of range and
    leaves the tempo at 120, where smoothing and clamping would give 102.
    An interval that deviates from the median by exactly half of it is
    discarded: the new tempo is 60 and the result 108, where keeping the
    interval would give a new tempo of 72 and the result 110.4. *)
Lemma update_tempo_gates_and_excludes_half :
  new_tempo_of slow_beats == 30
  /\ current_tempo (update_tempo slow_beats) == 120
  /\ current_tempo (update_tempo_claimed slow_beats) == 102
  /\ intervals_of edge_beats = [(3 # 2) - 1; (5 # 2) - (3 # 2); (7 # 2) - (5 # 2)]
  /\ Np.median (intervals_of edge_beats) == 1
  /\ survivors_of edge_beats = [(5 # 2) - (3 # 2); (7 # 2) - (5 # 2)]
  /\ current_tempo (update_tempo edge_beats) == 108
  /\ current_tempo (update_tempo_claimed edge_beats) == 552 # 5
  /\ ~ current_tempo (update_tempo slow_beats)
       == current_tempo (update_tempo_claimed slow_beats)
  /\ ~ current_tempo (update_tempo edge_beats)
       == current_tempo (update_tempo_claimed edge_beats).
Proof.
  repeat match goal with |- _ /\ _ => split end.
  1-8: vm_compute; reflexivity.
  all: intros H; vm_compute in H; discriminate H.
Qed.

Lemma valid_interval_iff (median_interval interval : Q) :
  valid_interval median_interval interval = true
  <-> Qabs (interval - median_interval) < median_interval * (5 # 10).
Proof.
  unfold valid_interval, Qltb.
  destruct (Qlt_le_dec (Qabs (interval - median_interval))
              (median_interval * (5 # 10))) as [Hlt | Hge].
  - split; trivial.
  - split; [discriminate | intros Hlt; lra].
Qed.

Lemma length_last_n (k : nat) (a : list Q) :
  (0 < k)%nat -> length (Np.last_n k a) = Nat.min k (length a).
Proof.
  intros Hk. unfold Np.last_n, Np.tail_start.
  destruct (Nat.eqb_spec k 0) as [E | _]; [lia |].
  rewrite length_skipn. lia.
Qed.

Lemma diff_nth (a : list Q) :
  length (Np.diff a) = (length a - 1)%nat
  /\ forall i : nat,
      (S i < length a)%nat ->
      nth i (Np.diff a) 0 = nth (S i) a 0 - nth i a 0.
Proof.
  induction a as [| x a IH]; [split; [reflexivity | simpl; lia] |].
  destruct a as [| y a]; [split; [reflexivity | simpl; lia] |].
  destruct IH as [IHlen IHnth].
  change (Np.diff (x :: y :: a)) with ((y - x) :: Np.diff (y :: a)).
  split.
  - change (S (length (Np.diff (y :: a))) = (length (x :: y :: a) - 1)%nat).
    rewrite IHlen. simpl. lia.
  - intros i Hi. destruct i as [| i]; [reflexivity |].
    change (nth i (Np.diff (y :: a)) 0 = nth (S i) (y :: a) 0 - nth i (y :: a) 0).
    apply IHnth. simpl in Hi |- *. lia.
Qed.

(** The survivors lie strictly between half and one and a half times the
    median, which is therefore positive: their mean is positive too. *)
Lemma sum_positive (a : list Q) :
  a <> [] -> Forall (fun x => 0 < x) a -> 0 < Np.sum a.
Proof.
  induction a as [| x a IH]; intros Hne Hall; [congruence |].
  inversion Hall as [| ? ? Hx Hrest]; subst.
  destruct a as [| y a].
  - simpl. lra.
  - assert (0 < Np.sum (y :: a)) by (apply IH; [discriminate | exact Hrest]).
    change (0 < x + Np.sum (y :: a)). lra.
Qed.

Lemma survivors_positive (st : detector) :
  Forall (fun x => 0 < x) (survivors_of st).
Proof.
  apply Forall_forall. intros iv Hin.
  unfold survivors_of in Hin. apply filter_In in Hin. destruct Hin as [_ Hv].
  apply valid_interval_iff in Hv.
  revert Hv. apply Qabs_case; intros; lra.
Qed.

Lemma mean_survivors_positive (st : detector) :
  survivors_of st <> [] -> 0 < Np.mean (survivors_of st).
Proof.
  intros Hne. unfold Np.mean.
  pose proof (sum_positive Hne (survivors_positive st)) as Hsum.
  assert (Hn : 0 < inject_Z (Z.of_nat (length (survivors_of st)))).
  { destruct (survivors_of st); [congruence |].
    unfold Qlt. simpl. lia. }
  apply Qlt_shift_div_l; [exact Hn | lra].
Qed.

End TempoClaims.

Section TempoUpdate.

Import Beat BeatRun BeatFacts.

Lemma Qleb_iff (a b : Q) : Qleb a b = true <-> a <= b.
Proof.
  split; [apply Qleb_le |].
  unfold Qleb. destruct (Qlt_le_dec b a); [intros; lra | trivial].
Qed.

Lemma updates_iff (st : detector) :
  updates st = true
  <-> (2 <= length (beat_times st))%nat
      /\ survivors_of st <> []
      /\ MIN_BPM <= new_tempo_of st /\ new_tempo_of st <= MAX_BPM.
Proof.
  unfold updates. rewrite !andb_true_iff, Nat.leb_le, Nat.ltb_lt, !Qleb_iff.
  assert (Hne : (0 < length (survivors_of st))%nat <-> survivors_of st <> []).
  { destruct (survivors_of st); simpl; split; intros; try lia; congruence. }
  rewrite Hne. tauto.
Qed.

Lemma update_tempo_history (st : detector) :
  updates st = true ->
  tempo_history (update_tempo st)
  = let h := tempo_history st ++ [current_tempo (update_tempo st)] in
    if (50 <? length h)%nat then Np.last_n 50 h else h.
Proof.
  intros Hu. rewrite (update_tempo_smooths st Hu).
  revert Hu. unfold updates, update_tempo.
  fold (intervals_of st). fold (survivors_of st). fold (new_tempo_of st).
  intros H.
  apply andb_prop in H. destruct H as [H Hmax].
  apply andb_prop in H. destruct H as [H Hmin].
  apply andb_prop in H. destruct H as [Hlen Hsurv].
  apply Nat.leb_le in Hlen.
  destruct (Nat.ltb_spec (length (beat_times st)) 2) as [Hlt | _]; [lia |].
  rewrite (survivors_nonempty_intervals st Hsurv), Hsurv, Hmin, Hmax.
  cbn [andb]. cbv zeta.
  cbn [tempo_history set_tempo_history set_current_tempo current_tempo].
  match goal with
  | |- context [if ?b then _ else _] => destruct b
  end; reflexivity.
Qed.

(** C5, amended.  The update takes the intervals between up to the last 10
    beats, keeps those that deviate from the median interval by strictly
    less than half of it, averages them (the mean is positive) and
    converts to BPM.  When there are at least 2 beats, a survivor, and the
    new tempo lies in [[MIN_BPM, MAX_BPM]], the tempo becomes 0.8 times the
    previous one plus 0.2 times the new one, without clamping, and is
    appended to the history, of which the last 50 are kept.  In every other
    case, a new tempo out of range included, the detector is unchanged. *)
Theorem update_tempo_gated :
  forall st : detector,
    let beats := Np.last_n 10 (beat_times st) in
    let intervals := intervals_of st in
    let median_interval := Np.median intervals in
    let survivors := survivors_of st in
    let new_tempo := new_tempo_of st in
    length beats = Nat.min 10 (length (beat_times st))
    /\ length intervals = (length beats - 1)%nat
    /\ (forall i : nat,
           (S i < length beats)%nat ->
           nth i intervals 0 = nth (S i) beats 0 - nth i beats 0)
    /\ (forall iv : Q,
           In iv survivors
           <-> In iv intervals
               /\ Qabs (iv - median_interval) < median_interval * (5 # 10))
    /\ new_tempo = 60 / Np.mean survivors
    /\ (survivors <> [] -> 0 < Np.mean survivors)
    /\ (updates st = true
        <-> (2 <= length (beat_times st))%nat
            /\ survivors <> []
            /\ MIN_BPM <= new_tempo /\ new_tempo <= MAX_BPM)
    /\ (updates st = true ->
        current_tempo (update_tempo st)
        = (8 # 10) * current_tempo st + (2 # 10) * new_tempo
        /\ tempo_history (update_tempo st)
           = (let h := tempo_history st ++ [current_tempo (update_tempo st)] in
              if (50 <? length h)%nat then Np.last_n 50 h else h)
        /\ beat_times (update_tempo st) = beat_times st
        /\ last_beat_time (update_tempo st) = last_beat_time st)
    /\ (updates st = false -> update_tempo st = st).
Proof.
  intros st beats intervals median_interval survivors new_tempo.
  split; [apply length_last_n; lia |].
  split; [apply (diff_nth beats) |].
  split; [apply (diff_nth beats) |].
  split.
  { intros iv. unfold survivors, survivors_of.
    rewrite filter_In, valid_interval_iff. reflexivity. }
  split; [reflexivity |].
  split; [apply mean_survivors_positive |].
  split; [apply updates_iff |].
  split.
  { intros Hu.
    split; [apply (update_tempo_smooths st Hu) |].
    split; [apply (update_tempo_history st Hu) |].
    split; apply (update_tempo_other_fields st). }
  apply update_tempo_skips.
Qed.

Lemma update_tempo_gated_witness :
  updates edge_beats = true
  /\ updates slow_beats = false
  /\ current_tempo (update_tempo edge_beats)
     = (8 # 10) * current_tempo edge_beats + (2 # 10) * new_tempo_of edge_beats
  /\ update_tempo slow_beats = slow_beats.
Proof.
  assert (He : updates edge_beats = true) by (vm_compute; reflexivity).
  assert (Hs : updates slow_beats = false) by (vm_compute; reflexivity).
  split; [exact He |]. split; [exact Hs |].
  split.
  - apply (update_tempo_gated edge_beats). exact He.
  - apply (update_tempo_gated slow_beats). exact Hs.
Defined.

End TempoUpdate.

(** ** Onset strength *)

Section OnsetClaims.

Import Beat BeatRun OnsetClaim.

Variable periodogram : list Q -> list Q.

Lemma positive_part_nonneg (d : Q) : 0 <= positive_part d.
Proof. unfold positive_part. destruct (Qlt_le_dec d 0); lra. Qed.

Lemma sum_nonneg (a : list Q) :
  Forall (fun x => 0 <= x) a -> 0 <= Np.sum a.
Proof.
  induction 1 as [| x a Hx _ IH]; [simpl; lra |].
  change (0 <= x + Np.sum a). lra.
Qed.

Lemma mean_nonneg (a : list Q) :
  Forall (fun x => 0 <= x) a -> 0 <= Np.mean a.
Proof.
  intros Hall. unfold Np.mean.
  destruct a as [| x a]; [simpl; unfold Qle; simpl; lia |].
  apply Qle_shift_div_l.
  - unfold Qlt. simpl. lia.
  - pose proof (sum_nonneg Hall). lra.
Qed.

Lemma column_flux_nonneg (prev next : list Q) : 0 <= column_flux prev next.
Proof.
  unfold column_flux. apply sum_nonneg.
  apply Forall_forall. intros x Hx. apply in_map_iff in Hx.
  destruct Hx as [p [<- _]]. apply positive_part_nonneg.
Qed.

Lemma spectral_flux_facts (columns : list (list Q)) :
  length (spectral_flux columns) = (length columns - 1)%nat
  /\ Forall (fun x => 0 <= x) (spectral_flux columns).
Proof.
  induction columns as [| prev columns IH]; [split; [reflexivity | constructor] |].
  destruct columns as [| next columns]; [split; [reflexivity | constructor] |].
  destruct IH as [IHlen IHall].
  change (spectral_flux (prev :: next :: columns))
    with (column_flux prev next :: spectral_flux (next :: columns)).
  split.
  - change (S (length (spectral_flux (next :: columns)))
            = (length (prev :: next :: columns) - 1)%nat).
    rewrite IHlen. simpl. lia.
  - constructor; [apply column_flux_nonneg | exact IHall].
Qed.

Lemma length_spectrogram (x : list Q) (nperseg noverlap : nat) :
  length (spectrogram periodogram x nperseg noverlap)
  = n_segments (length x) nperseg noverlap.
Proof.
  unfold spectrogram, segments. rewrite !length_map, length_seq. reflexivity.
Qed.


Lemma n_segments_subframes (len : nat) :
  (1024 <= len)%nat -> n_segments len 1024 (1024 - 512) = subframes len.
Proof.
  intros Hlen. unfold n_segments, subframes.
  destruct (Nat.ltb_spec len 1024) as [Hlt | _]; [lia |].
  replace (1024 - (1024 - 512))%nat with 512%nat by lia.
  replace (len - (1024 - 512))%nat with ((len - 1024) + 1 * 512)%nat by lia.
  rewrite Nat.div_add by lia. lia.
Qed.

Lemma subframes_lt_2 (len : nat) :
  (subframes len < 2)%nat <-> (len < 1024 + 512)%nat.
Proof.
  unfold subframes.
  destruct (Nat.ltb_spec len 1024) as [Hlt | Hge]; [lia |].
  split; intros H.
  - assert (Hd : ((len - 1024) / 512 = 0)%nat) by lia.
    apply Nat.div_small_iff in Hd; lia.
  - assert (Hd : ((len - 1024) / 512 = 0)%nat) by (apply Nat.div_small; lia).
    lia.
Qed.

Lemma nth_map_lt (A B : Type) (f : A -> B) (l : list A) (i : nat) (d : A)
  (e : B) :
  (i < length l)%nat -> nth i (map f l) e = f (nth i l d).
Proof.
  intros Hi. rewrite (nth_indep (map f l) e (f d)) by (rewrite length_map; exact Hi).
  apply map_nth.
Qed.

Lemma spectral_flux_nth (columns : list (list Q)) (i : nat) :
  (S i < length columns)%nat ->
  nth i (spectral_flux columns) 0
  = column_flux (nth i columns []) (nth (S i) columns []).
Proof.
  revert i.
  induction columns as [| prev columns IH]; intros i Hi; [simpl in Hi; lia |].
  destruct columns as [| next columns]; [simpl in Hi; lia |].
  destruct i as [| i]; [reflexivity |].
  change (nth i (spectral_flux (next :: columns)) 0
          = column_flux (nth i (next :: columns) [])
              (nth (S i) (next :: columns) [])).
  apply IH. simpl in Hi |- *. lia.
Qed.

(** The columns the code hands to the flux are the magnitude spectra of
    the sub-frames. *)
Lemma magnitude_nth (audio_chunk : list Q) (i : nat) :
  (i < subframes (length audio_chunk))%nat ->
  nth i (map (map Qabs) (spectrogram periodogram audio_chunk 1024 (1024 - 512)))
      []
  = magnitude_column periodogram audio_chunk i.
Proof.
  intros Hi.
  assert (Hlong : (1024 <= length audio_chunk)%nat).
  { unfold subframes in Hi.
    destruct (Nat.ltb_spec (length audio_chunk) 1024); lia. }
  unfold spectrogram, segments. rewrite !map_map.
  rewrite (n_segments_subframes Hlong).
  rewrite (@nth_map_lt nat (list Q) _ (seq 0 (subframes (length audio_chunk)))
             i 0%nat [])
    by (rewrite length_seq; exact Hi).
  rewrite seq_nth by exact Hi. cbn [plus].
  unfold magnitude_column, subframe.
  replace (i * (1024 - (1024 - 512)))%nat with (512 * i)%nat by lia.
  reflexivity.
Qed.

Lemma positive_part_max (d : Q) : positive_part d == Qmax 0 d.
Proof.
  unfold positive_part. destruct (Qlt_le_dec d 0) as [Hneg | Hpos].
  - symmetry. apply Q.max_l. lra.
  - symmetry. apply Q.max_r. exact Hpos.
Qed.

(** The flux the code computes between two columns is the sum of the
    positive differences, bin by bin. *)
Lemma column_flux_claimed (prev next : list Q) :
  column_flux prev next == flux_claimed prev next.
Proof.
  unfold column_flux, flux_claimed. revert next.
  induction prev as [| a prev IH]; intros next; [reflexivity |].
  destruct next as [| b next]; [reflexivity |].
  cbn [combine map length Nat.min seq fold_right Np.sum fst snd].
  change (Np.sum ?l) with (fold_right Qplus 0 l).
  cbn [fold_right nth].
  rewrite <- seq_shift, map_map. cbn [nth].
  rewrite <- (IH next). unfold Np.sum.
  rewrite positive_part_max. reflexivity.
Qed.

Lemma sum_by_index (a : list Q) :
  Np.sum a = fold_right Qplus 0 (map (fun i => nth i a 0) (seq 0 (length a))).
Proof.
  unfold Np.sum. induction a as [| x a IH]; [reflexivity |].
  cbn [length seq map fold_right nth].
  rewrite <- seq_shift, map_map. cbn [nth]. rewrite <- IH. reflexivity.
Qed.

Lemma sum_pointwise (f g : nat -> Q) (start len : nat) :
  (forall i, (start <= i < start + len)%nat -> f i == g i) ->
  fold_right Qplus 0 (map f (seq start len))
  == fold_right Qplus 0 (map g (seq start len)).
Proof.
  revert start. induction len as [| len IH]; intros start H; [reflexivity |].
  cbn [seq map fold_right].
  rewrite (H start) by lia. rewrite (IH (S start)); [reflexivity |].
  intros i Hi. apply H. lia.
Qed.

(** C6.  The onset strength of any chunk is nonnegative.  It is exactly 0
    when fewer than 2 sub-frames (window 1024, hop 512) fit in the chunk;
    otherwise it is the mean, over the transitions between consecutive
    sub-frames, of the spectral flux.  The columns are the magnitude
    spectra of the sub-frames, and the flux of a transition is the sum,
    over the frequency bins, of the positive differences between the
    magnitudes of the later and of the earlier column: the code computes
    the onset strength the specification describes. *)
Theorem onset_strength_is_mean_positive_flux :
  forall audio_chunk : list Q,
    let n := subframes (length audio_chunk) in
    let magnitude :=
      map (map Qabs) (spectrogram periodogram audio_chunk 1024 (1024 - 512)) in
    let flux := spectral_flux magnitude in
    0 <= compute_onset_strength periodogram audio_chunk
    /\ ((n < 2)%nat -> compute_onset_strength periodogram audio_chunk = 0)
    /\ ((2 <= n)%nat ->
        compute_onset_strength periodogram audio_chunk = Np.mean flux
        /\ length magnitude = n
        /\ length flux = (n - 1)%nat
        /\ Forall (fun x => 0 <= x) flux
        /\ forall i : nat,
            (S i < n)%nat ->
            nth i flux 0
            = column_flux (nth i magnitude []) (nth (S i) magnitude [])
            /\ nth i magnitude [] = magnitude_column periodogram audio_chunk i
            /\ nth (S i) magnitude []
               = magnitude_column periodogram audio_chunk (S i)
            /\ nth i flux 0
               == flux_claimed (magnitude_column periodogram audio_chunk i)
                    (magnitude_column periodogram audio_chunk (S i)))
    /\ compute_onset_strength periodogram audio_chunk
       == onset_strength_claimed periodogram audio_chunk.
Proof.
  intros audio_chunk n magnitude flux.
  assert (Hmag : (1024 <= length audio_chunk)%nat -> length magnitude = n).
  { intros Hlen. unfold magnitude, n.
    rewrite length_map, length_spectrogram. apply n_segments_subframes. exact Hlen. }
  destruct (spectral_flux_facts magnitude) as [Hflen Hfall]. fold flux in Hflen, Hfall.
  assert (Hval : compute_onset_strength periodogram audio_chunk
                 = if (n <? 2)%nat then 0 else Np.mean flux).
  { unfold compute_onset_strength.
    destruct (Nat.ltb_spec (length audio_chunk) 1024) as [Hshort | Hlong].
    - unfold n, subframes.
      destruct (Nat.ltb_spec (length audio_chunk) 1024) as [_ | Hge]; [| lia].
      reflexivity.
    - fold magnitude. fold flux. rewrite Hflen, (Hmag Hlong).
      destruct (Nat.ltb_spec 1 n) as [Hn | Hn];
        destruct (Nat.ltb_spec n 2) as [Hn2 | Hn2]; try lia; try reflexivity.
      destruct (Nat.ltb_spec 0 (n - 1)) as [_ | Hz]; [reflexivity | lia]. }
  assert (Hlong : (2 <= n)%nat -> (1024 <= length audio_chunk)%nat).
  { intros Hn. unfold n, subframes in Hn.
    destruct (Nat.ltb_spec (length audio_chunk) 1024); lia. }
  assert (Hentry : forall i : nat,
             (S i < n)%nat ->
             nth i flux 0
             = column_flux (nth i magnitude []) (nth (S i) magnitude [])
             /\ nth i magnitude [] = magnitude_column periodogram audio_chunk i
             /\ nth (S i) magnitude []
                = magnitude_column periodogram audio_chunk (S i)
             /\ nth i flux 0
                == flux_claimed (magnitude_column periodogram audio_chunk i)
                     (magnitude_column periodogram audio_chunk (S i))).
  { intros i Hi.
    assert (Hn : (2 <= n)%nat) by lia.
    assert (Hf : nth i flux 0
                 = column_flux (nth i magnitude []) (nth (S i) magnitude [])).
    { apply spectral_flux_nth. rewrite (Hmag (Hlong Hn)). exact Hi. }
    assert (Hc : nth i magnitude [] = magnitude_column periodogram audio_chunk i).
    { apply magnitude_nth. fold n. lia. }
    assert (Hc' : nth (S i) magnitude []
                  = magnitude_column periodogram audio_chunk (S i)).
    { apply magnitude_nth. fold n. lia. }
    split; [exact Hf |]. split; [exact Hc |]. split; [exact Hc' |].
    rewrite Hf, Hc, Hc'. apply column_flux_claimed. }
  split.
  { rewrite Hval. destruct (n <? 2)%nat; [lra | apply mean_nonneg; exact Hfall]. }
  split.
  { intros Hn. rewrite Hval.
    destruct (Nat.ltb_spec n 2) as [_ | Hge]; [reflexivity | lia]. }
  split.
  { intros Hn.
    split.
    { rewrite Hval. destruct (Nat.ltb_spec n 2) as [Hlt | _]; [lia | reflexivity]. }
    split; [exact (Hmag (Hlong Hn)) |].
    split; [rewrite Hflen, (Hmag (Hlong Hn)); reflexivity |].
    split; [exact Hfall | exact Hentry]. }
  rewrite Hval. unfold onset_strength_claimed. fold n.
  destruct (Nat.ltb_spec n 2) as [_ | Hn]; [reflexivity |].
  assert (Hlen : length flux = (n - 1)%nat).
  { rewrite Hflen, (Hmag (Hlong Hn)). reflexivity. }
  unfold Np.mean. rewrite sum_by_index, Hlen.
  apply Qmult_comp; [| reflexivity].
  apply sum_pointwise. intros i Hi. apply Hentry. lia.
Qed.

End OnsetClaims.

Lemma onset_strength_is_mean_positive_flux_witness :
  BeatRun.subframes (length OnsetClaim.example_chunk) = 3%nat
  /\ OnsetClaim.flux_claimed
       (OnsetClaim.magnitude_column BeatRun.periodogram_stub
          OnsetClaim.example_chunk 0)
       (OnsetClaim.magnitude_column BeatRun.periodogram_stub
          OnsetClaim.example_chunk 1)
     == 1024
  /\ OnsetClaim.flux_claimed
       (OnsetClaim.magnitude_column BeatRun.periodogram_stub
          OnsetClaim.example_chunk 1)
       (OnsetClaim.magnitude_column BeatRun.periodogram_stub
          OnsetClaim.example_chunk 2)
     == 1536
  /\ Beat.compute_onset_strength BeatRun.periodogram_stub
       OnsetClaim.example_chunk
     == 1280
  /\ nth 1
       (Beat.spectral_flux
          (map (map Qabs)
             (Beat.spectrogram BeatRun.periodogram_stub
                OnsetClaim.example_chunk 1024 (1024 - 512))))
       0
     == 1536.
Proof.
  assert (Hn : BeatRun.subframes (length OnsetClaim.example_chunk) = 3%nat)
    by (vm_compute; reflexivity).
  assert (H1 : OnsetClaim.flux_claimed
                 (OnsetClaim.magnitude_column BeatRun.periodogram_stub
                    OnsetClaim.example_chunk 1)
                 (OnsetClaim.magnitude_column BeatRun.periodogram_stub
                    OnsetClaim.example_chunk 2)
               == 1536)
    by (vm_compute; reflexivity).
  assert (Hc : OnsetClaim.onset_strength_claimed BeatRun.periodogram_stub
                 OnsetClaim.example_chunk
               == 1280)
    by (vm_compute; reflexivity).
  pose proof (@onset_strength_is_mean_positive_flux BeatRun.periodogram_stub
                OnsetClaim.example_chunk) as [_ [_ [Hlong Heq]]].
  assert (H2 : (2 <= BeatRun.subframes (length OnsetClaim.example_chunk))%nat)
    by (rewrite Hn; lia).
  assert (H3 : (2 < BeatRun.subframes (length OnsetClaim.example_chunk))%nat)
    by (rewrite Hn; lia).
  destruct (Hlong H2) as [_ [_ [_ [_ Hentry]]]].
  destruct (Hentry 1%nat H3) as [_ [_ [_ Hflux]]].
  split; [exact Hn |].
  split; [vm_compute; reflexivity |].
  split; [exact H1 |].
  split; [rewrite Heq; exact Hc |].
  rewrite Hflux. exact H1.
Defined.

(** A chunk of three half-windows, silent then at level 1: two sub-frames
    fit, and with the samples themselves as spectrum the flux of the one
    transition is 512. *)
Example onset_strength_example :
  BeatRun.subframes (length (Np.zeros 1024 ++ repeat 1 512)) = 2%nat
  /\ Beat.compute_onset_strength BeatRun.periodogram_stub
       (Np.zeros 1024 ++ repeat 1 512) == 512.
Proof. split; vm_compute; reflexivity. Qed.

(** ** The distortion stage *)

Section Distortion.

Import Effects.

Variable np_tanh : Q -> Q.

(** The bound on the distorted samples is the bound on what [np.tanh]
    returns, halved.  A [tanh] that stays strictly inside (-1, 1), as the
    real function does, gives samples strictly inside (-0.5, 0.5); a
    rounded [tanh], which returns 1 or -1 on large arguments, gives the
    closed interval only. *)
Lemma apply_distortion_bound (st : processor) (audio_chunk : list Q) :
  distortion_enabled st = true ->
  ((forall x, Qabs (np_tanh x) < 1) ->
   Forall (fun y => Qabs y < 5 # 10) (apply_distortion np_tanh st audio_chunk))
  /\ ((forall x, Qabs (np_tanh x) <= 1) ->
      Forall (fun y => Qabs y <= 5 # 10) (apply_distortion np_tanh st audio_chunk)).
Proof.
  intros Hon. unfold apply_distortion. rewrite Hon. cbn [negb].
  split; intros Hb; apply Forall_forall; intros y Hy;
    apply in_map_iff in Hy; destruct Hy as [t [<- Ht]];
    apply in_map_iff in Ht; destruct Ht as [a [<- _]];
    specialize (Hb a).
  - apply Qabs_Qlt_condition in Hb. apply Qabs_Qlt_condition. split; lra.
  - apply Qabs_Qle_condition in Hb. apply Qabs_Qle_condition. split; lra.
Qed.

Lemma half_strict (y : Q) : Qabs (y * (5 # 10)) < 5 # 10 <-> Qabs y < 1.
Proof.
  split; intros H.
  - apply Qabs_Qlt_condition in H. apply Qabs_Qlt_condition. split; lra.
  - apply Qabs_Qlt_condition in H. apply Qabs_Qlt_condition. split; lra.
Qed.

(** C9.  Every sample the enabled distortion stage returns is 0.5 times
    what [np.tanh] returns on the sample scaled by the gain, so its absolute
    value is at most 0.5 for every frame and every gain, [np.tanh] staying
    within [-1, 1].  It is strictly below 0.5 exactly for the samples on
    which [np.tanh] is strictly inside (-1, 1); where the rounded [np.tanh]
    returns 1 or -1 the output is 0.5 or -0.5 itself. *)
Theorem distortion_output_within_half :
  forall (st : processor) (audio_chunk : list Q),
    distortion_enabled st = true ->
    (forall x, Qabs (np_tanh x) <= 1) ->
    let out := apply_distortion np_tanh st audio_chunk in
    length out = length audio_chunk
    /\ Forall (fun y => Qabs y <= 5 # 10) out
    /\ forall i : nat,
        (i < length audio_chunk)%nat ->
        let t := np_tanh (nth i audio_chunk 0 * distortion_gain st) in
        nth i out 0 = t * (5 # 10)
        /\ (Qabs (nth i out 0) < 5 # 10 <-> Qabs t < 1)
        /\ (Qabs t == 1 -> Qabs (nth i out 0) == 5 # 10).
Proof.
  intros st audio_chunk Hon Hb out.
  assert (Hout : out
                 = map (fun x => np_tanh (x * distortion_gain st) * (5 # 10))
                       audio_chunk).
  { unfold out, apply_distortion. rewrite Hon. cbn [negb].
    rewrite !map_map. reflexivity. }
  split; [rewrite Hout; apply length_map |].
  split; [apply (proj2 (apply_distortion_bound st audio_chunk Hon) Hb) |].
  intros i Hi t.
  assert (Hnth : nth i out 0 = t * (5 # 10)).
  { rewrite Hout.
    rewrite (@nth_map_lt Q Q _ audio_chunk i 0 0 Hi). reflexivity. }
  split; [exact Hnth |]. rewrite Hnth.
  split; [apply half_strict |].
  intros Ht. rewrite Qabs_Qmult, Ht. reflexivity.
Qed.

End Distortion.

Section DistortionExamples.

Import Effects DistortionRun.

Lemma tanh_rounded_bound (x : Q) : Qabs (tanh_rounded x) <= 1.
Proof.
  unfold tanh_rounded.
  destruct (Qle_bool 10 (Qabs x)).
  - destruct (Qle_bool 0 x); vm_compute; discriminate.
  - pose proof (Qabs_nonneg x) as H0.
    pose proof (Qle_Qabs x) as H1.
    pose proof (Qle_Qabs (- x)) as H2. rewrite Qabs_opp in H2.
    apply Qabs_Qle_condition. split.
    + apply Qle_shift_div_l; lra.
    + apply Qle_shift_div_r; lra.
Qed.

(** C9, as stated, fails on the samples the program handles: at the
    maximal gain 5, which the gain key reaches, the samples 2 and -2 of
    the frame [2, 0.1, -2] are scaled to 10 and -10, where the binary32 [np.tanh] returns exactly 1
    and -1, and the stage returns 0.5 and -0.5, not less in absolute
    value. *)
Lemma distortion_reaches_half :
  distortion_enabled loud = true
  /\ distortion_gain loud == 5
  /\ Qabs (nth 0 (apply_distortion tanh_rounded loud loud_frame) 0) == 5 # 10
  /\ Qabs (nth 2 (apply_distortion tanh_rounded loud loud_frame) 0) == 5 # 10
  /\ ~ Forall (fun y => Qabs y < 5 # 10)
         (apply_distortion tanh_rounded loud loud_frame).
Proof.
  split; [reflexivity |]. split; [vm_compute; reflexivity |].
  split; [vm_compute; reflexivity |]. split; [vm_compute; reflexivity |].
  intros H. apply Forall_inv in H. vm_compute in H. discriminate H.
Qed.

Lemma distortion_output_within_half_witness :
  distortion_enabled loud = true
  /\ Forall (fun y => Qabs y <= 5 # 10)
        (apply_distortion tanh_rounded loud loud_frame)
  /\ (Qabs (nth 1 (apply_distortion tanh_rounded loud loud_frame) 0)
      < 5 # 10
      <-> Qabs (tanh_rounded ((1 # 10) * distortion_gain loud)) < 1).
Proof.
  assert (Hon : distortion_enabled loud = true) by reflexivity.
  assert (Hi : (1 < length loud_frame)%nat) by (cbn; lia).
  pose proof (@distortion_output_within_half tanh_rounded loud
                loud_frame Hon tanh_rounded_bound) as [_ [Hall Hnth]].
  split; [exact Hon |]. split; [exact Hall |].
  exact (proj1 (proj2 (Hnth 1%nat Hi))).
Defined.

End DistortionExamples.

(** * Further properties of the effects processor *)

Section EffectsMore.

Import Effects EchoRun EchoFacts EffectsInv.

Lemma on_key_press_in_range (st : processor) (key : string) :
  params_in_range st -> params_in_range (on_key_press st key).
Proof.
  intros [[Hr1 Hr2] [[He1 He2] [Hc [Hg1 Hg2]]]].
  unfold on_key_press.
  repeat match goal with
         | |- context [if ?b then _ else _] => destruct b
         end;
    unfold params_in_range; cbn;
    repeat match goal with
           | |- _ /\ _ => split
           end;
    try assumption; try lia;
    unfold Py.max, Py.min;
    repeat match goal with
           | |- context [Qlt_le_dec ?a ?b] => destruct (Qlt_le_dec a b)
           end; lra.
Qed.

(** X1.  The parameters start in their ranges and no sequence of keys takes
    them out: reverb decay in [0.1, 0.9], echo delay in [0.1, 1] s, filter
    cutoff in [100, 8000] Hz, distortion gain in [1, 5]. *)
Theorem keys_keep_parameters_in_range :
  forall keys : list string, params_in_range (press_all init keys).
Proof.
  intros keys. unfold press_all.
  assert (Hinit : params_in_range init).
  { unfold params_in_range. cbn. repeat split; try lia; lra. }
  revert Hinit. generalize init.
  induction keys as [| key keys IH]; intros st Hst; [exact Hst |].
  cbn [fold_left]. apply IH. apply on_key_press_in_range. exact Hst.
Qed.

Lemma toggle_twice (st : processor) :
  on_key_press (on_key_press st "r") "r" = st
  /\ on_key_press (on_key_press st "e") "e" = st
  /\ on_key_press (on_key_press st "f") "f" = st
  /\ on_key_press (on_key_press st "d") "d" = st
  /\ on_key_press (on_key_press (on_key_press st "7") "7") "7" = st.
Proof.
  destruct st as [r e f d rd ed ef fc ft dg ib ob eb rb iq oq].
  cbn. rewrite !negb_involutive.
  repeat split; destruct ft; reflexivity.
Qed.

(** X2.  Each of the four effect keys pressed twice gives the processor back,
    and so does the filter-type key pressed three times: a toggle changes
    nothing but its flag, and the filter type cycles through its three
    values. *)
Theorem toggle_keys_undo_themselves :
  forall (st : processor) (key : string),
    In key ["r"; "e"; "f"; "d"]%string ->
    on_key_press (on_key_press st key) key = st
    /\ on_key_press (on_key_press (on_key_press st "7") "7") "7" = st.
Proof.
  intros st key Hkey.
  destruct (toggle_twice st) as [Hr [He [Hf [Hd H7]]]].
  split; [| exact H7].
  cbn [In] in Hkey.
  destruct Hkey as [<- | [<- | [<- | [<- | []]]]]; assumption.
Qed.

Lemma toggle_keys_undo_themselves_witness :
  In "e"%string ["r"; "e"; "f"; "d"]%string
  /\ on_key_press (on_key_press init "e") "e" = init.
Proof.
  assert (H : In "e"%string ["r"; "e"; "f"; "d"]%string)
    by (right; left; reflexivity).
  split; [exact H |].
  exact (proj1 (@toggle_keys_undo_themselves init "e"%string H)).
Defined.

(** X3.  With the cutoff in the range the keys keep, [apply_filter] asks
    [signal.butter] for critical frequencies it accepts, whatever the filter
    type: strictly between 0 and Nyquist, and a band whose lower edge is
    below its upper edge.  The stage returns what the library computes for
    that design, and its input when the library raises or the stage is
    off. *)
Theorem filter_design_is_valid :
  forall st : processor,
    (100 <= filter_cutoff st <= 8000)%Z ->
    valid_design (filter_design st)
    /\ forall (butter_filtfilt : design -> list Q -> option (list Q))
              (audio_chunk : list Q),
        apply_filter butter_filtfilt st audio_chunk
        = if filter_enabled st
          then match butter_filtfilt (filter_design st) audio_chunk with
               | Some filtered => filtered
               | None => audio_chunk
               end
          else audio_chunk.
Proof.
  intros st [Hlo Hhi]. split.
  - unfold filter_design, valid_design, RATE.
    assert (H1 : 100 <= inject_Z (filter_cutoff st)).
    { change 100 with (inject_Z 100). rewrite <- Zle_Qle. exact Hlo. }
    assert (H2 : inject_Z (filter_cutoff st) <= 8000).
    { change 8000 with (inject_Z 8000). rewrite <- Zle_Qle. exact Hhi. }
    set (x := inject_Z (filter_cutoff st)) in *.
    assert (Hn : x / (inject_Z 44100 / 2) == x * (2 # 44100)).
    { unfold Qdiv. apply Qmult_comp; [reflexivity |]. reflexivity. }
    destruct (filter_type st); cbv zeta.
    + rewrite Hn. split; lra.
    + rewrite Hn. split; lra.
    + unfold Py.max, Py.min.
      destruct (Qlt_le_dec _ _) as [Ha | Ha];
        destruct (Qlt_le_dec _ _) as [Hb | Hb];
        rewrite ?Hn in *; repeat split; lra.
  - intros butter_filtfilt audio_chunk. unfold apply_filter, filter_design.
    destruct (filter_enabled st); reflexivity.
Qed.

Lemma filter_design_is_valid_witness :
  (100 <= filter_cutoff init <= 8000)%Z
  /\ valid_design (filter_design init).
Proof.
  assert (H : (100 <= filter_cutoff init <= 8000)%Z) by (cbn; lia).
  split; [exact H |].
  exact (proj1 (@filter_design_is_valid init H)).
Defined.

Lemma reverb_loop_short (decay : Q) (delay_samples todo : nat) :
  forall (i : nat) (output : list Q),
    (i + todo <= delay_samples)%nat ->
    reverb_loop decay delay_samples todo i output = output.
Proof.
  induction todo as [| todo IH]; intros i output Hle; [reflexivity |].
  cbn [reverb_loop].
  destruct (Nat.leb_spec delay_samples i) as [Hge | _]; [lia |].
  apply IH. lia.
Qed.

Lemma length_list_set (a : list Q) (i : nat) (x : Q) :
  (i < length a)%nat -> length (list_set a i x) = length a.
Proof.
  intros Hi. unfold list_set.
  rewrite length_app. cbn [length]. rewrite length_firstn, length_skipn. lia.
Qed.

Lemma length_reverb_loop (decay : Q) (delay_samples todo : nat) :
  forall (i : nat) (output : list Q),
    (i + todo <= length output)%nat ->
    length (reverb_loop decay delay_samples todo i output) = length output.
Proof.
  induction todo as [| todo IH]; intros i output Hle; [reflexivity |].
  cbn [reverb_loop].
  destruct (delay_samples <=? i)%nat.
  - rewrite IH; rewrite length_list_set; lia.
  - apply IH. lia.
Qed.

Lemma reverb_delay_samples :
  Z.to_nat (int ((5 # 100) * inject_Z RATE)) = 2205%nat.
Proof. reflexivity. Qed.

(** X4.  The reverb keeps the length of every frame.  On a frame of at most
    2205 samples (50 ms; the processor's frames have 512) no sample has a
    delayed sample inside the frame, so the enabled reverb only scales the
    frame by 0.7. *)
Theorem reverb_of_short_frame_is_attenuation :
  forall (st : processor) (audio_chunk : list Q),
    reverb_enabled st = true ->
    (length audio_chunk <= 2205)%nat ->
    apply_reverb st audio_chunk = map (fun x => x * (7 # 10)) audio_chunk
    /\ forall longer : list Q,
        length (apply_reverb st longer) = length longer.
Proof.
  intros st audio_chunk Hon Hshort. unfold apply_reverb. rewrite Hon. cbn [negb].
  rewrite reverb_delay_samples. split.
  - rewrite reverb_loop_short by lia. reflexivity.
  - intros longer. rewrite length_map. apply length_reverb_loop. lia.
Qed.

Lemma reverb_of_short_frame_is_attenuation_witness :
  reverb_enabled (on_key_press init "r") = true
  /\ (length [1; 2] <= 2205)%nat
  /\ apply_reverb (on_key_press init "r") [1; 2]
     = [1 * (7 # 10); 2 * (7 # 10)].
Proof.
  assert (H1 : reverb_enabled (on_key_press init "r") = true) by reflexivity.
  assert (H2 : (length [1; 2] <= 2205)%nat) by (cbn; lia).
  split; [exact H1 |]. split; [exact H2 |].
  exact (proj1 (@reverb_of_short_frame_is_attenuation
                  (on_key_press init "r") [1; 2] H1 H2)).
Defined.

End EffectsMore.

Section ProcessingLoop.

Import Effects EchoRun EchoFacts EchoRuns EffectsInv.

Variable butter_filtfilt : design -> list Q -> option (list Q).
Variable np_tanh : Q -> Q.

Lemma int_nonneg (x : Q) : 0 <= x -> (0 <= int (x * inject_Z RATE))%Z.
Proof.
  intros Hx. unfold int. apply Z.quot_pos; [| lia].
  unfold Qle in Hx. cbn in Hx |- *. unfold RATE. lia.
Qed.

Lemma length_apply_filter (st : processor) (chunk : list Q) :
  filter_enabled st = false \/ length_preserving butter_filtfilt ->
  length (apply_filter butter_filtfilt st chunk) = length chunk.
Proof.
  intros Hlen. unfold apply_filter.
  destruct (filter_enabled st); cbn [negb]; [| reflexivity].
  destruct Hlen as [Hoff | Hlen]; [discriminate Hoff |].
  match goal with
  | |- context [butter_filtfilt ?d chunk] =>
      destruct (butter_filtfilt d chunk) as [y |] eqn:Hy
  end; [exact (Hlen _ _ _ Hy) | reflexivity].
Qed.

Lemma length_apply_distortion (st : processor) (chunk : list Q) :
  length (apply_distortion np_tanh st chunk) = length chunk.
Proof.
  unfold apply_distortion. destruct (distortion_enabled st); cbn [negb];
    [| reflexivity].
  rewrite !length_map. reflexivity.
Qed.

Lemma length_apply_reverb (st : processor) (chunk : list Q) :
  length (apply_reverb st chunk) = length chunk.
Proof.
  unfold apply_reverb. destruct (reverb_enabled st); cbn [negb]; [| reflexivity].
  rewrite length_map. apply length_reverb_loop. lia.
Qed.

(** The echo stage returns on every frame that fits its delay line, and
    changes nothing of the processor but the content of the delay line. *)
Lemma apply_echo_returns (st : processor) (chunk : list Q) :
  echo_enabled st = false \/ 0 <= echo_delay st ->
  (0 < length chunk <= length (echo_buffer st))%nat ->
  exists (buf out : list Q),
    apply_echo st chunk = Ok (set_echo_buffer st buf, out)
    /\ length buf = length (echo_buffer st)
    /\ length out = length chunk
    /\ (echo_enabled st = false -> buf = echo_buffer st /\ out = chunk).
Proof.
  intros Hd Hfit.
  destruct (echo_enabled st) eqn:Hon.
  - destruct Hd as [Hoff | Hd]; [discriminate Hoff |].
    pose proof (int_nonneg Hd) as Hd'. fold (delay_samples st) in Hd'.
    eexists. eexists. split; [apply apply_echo_enabled; assumption |].
    split; [| split; [apply length_mix | discriminate]].
    rewrite length_app, length_skipn, length_mix. lia.
  - exists (echo_buffer st), chunk.
    unfold apply_echo. rewrite Hon. cbn [negb].
    rewrite set_echo_buffer_same. repeat split; reflexivity.
Qed.

Lemma process_audio_iter_step (st : processor) (chunk : list Q)
  (rest : list (list Q)) :
  filter_enabled st = false \/ length_preserving butter_filtfilt ->
  echo_enabled st = false \/ 0 <= echo_delay st ->
  PyQueue.items (input_queue st) = chunk :: rest ->
  frame_fits st chunk ->
  exists (st' : processor) (processed : list Q),
    process_audio_iter butter_filtfilt np_tanh st = Ok st'
    /\ length processed = length chunk
    /\ PyQueue.items (input_queue st') = rest
    /\ input_buffer st' = skipn (length chunk) (input_buffer st) ++ chunk
    /\ output_buffer st' = skipn (length chunk) (output_buffer st) ++ processed
    /\ length (echo_buffer st') = length (echo_buffer st)
    /\ PyQueue.items (output_queue st')
       = (if PyQueue.full (output_queue st)
          then PyQueue.items (output_queue st)
          else PyQueue.items (output_queue st) ++ [processed])
    /\ (all_off st -> processed = chunk /\ echo_buffer st' = echo_buffer st).
Proof.
  intros Hlp Hd Hq [Hpos [Hin [Hout Hecho]]].
  unfold process_audio_iter, PyQueue.empty, PyQueue.get_nowait.
  rewrite Hq. cbn [negb bind].
  set (st0 := set_input_queue st _).
  change (input_buffer st0) with (input_buffer st).
  rewrite rolling_write_ok by lia. cbn [bind].
  set (st1 := set_input_buffer st0 _).
  set (p1 := apply_filter butter_filtfilt st1 chunk).
  set (p2 := apply_distortion np_tanh st1 p1).
  set (p3 := apply_reverb st1 p2).
  assert (Hp3 : length p3 = length chunk).
  { unfold p3, p2, p1.
    rewrite length_apply_reverb, length_apply_distortion, length_apply_filter
      by exact Hlp. reflexivity. }
  destruct (@apply_echo_returns st1 p3) as [buf [out [He [Hbuf [Hlen Hoff]]]]].
  { exact Hd. }
  { rewrite Hp3. change (echo_buffer st1) with (echo_buffer st). lia. }
  rewrite He. cbn [bind].
  change (output_buffer (set_echo_buffer st1 buf)) with (output_buffer st).
  rewrite rolling_write_ok by (rewrite Hlen, Hp3; lia). cbn [bind].
  rewrite Hlen, Hp3.
  set (st2 := set_output_buffer _ _).
  unfold send_to_output, PyQueue.put_nowait.
  change (output_queue st2) with (output_queue st).
  destruct (PyQueue.full (output_queue st)).
  - exists st2, out. cbn [bind catch exn_eqb].
    split; [reflexivity |]. split; [rewrite Hlen; exact Hp3 |].
    do 4 (split; [reflexivity || exact Hbuf |]).
    split; [reflexivity |].
    intros [Hf [Hdist [Hrev Hech]]].
    destruct (Hoff Hech) as [-> ->]. split; [| reflexivity].
    unfold p3, p2, p1, apply_reverb, apply_distortion, apply_filter.
    change (reverb_enabled st1) with (reverb_enabled st).
    change (distortion_enabled st1) with (distortion_enabled st).
    change (filter_enabled st1) with (filter_enabled st).
    rewrite Hf, Hdist, Hrev. reflexivity.
  - eexists. exists out. cbn [bind catch].
    split; [reflexivity |]. split; [rewrite Hlen; exact Hp3 |].
    do 4 (split; [reflexivity || exact Hbuf |]).
    split; [reflexivity |].
    intros [Hf [Hdist [Hrev Hech]]].
    destruct (Hoff Hech) as [-> ->]. split; [| reflexivity].
    unfold p3, p2, p1, apply_reverb, apply_distortion, apply_filter.
    change (reverb_enabled st1) with (reverb_enabled st).
    change (distortion_enabled st1) with (distortion_enabled st).
    change (filter_enabled st1) with (filter_enabled st).
    rewrite Hf, Hdist, Hrev. reflexivity.
Qed.

(** X5.  A turn of the processing loop on a queued frame that fits the rolling
    buffers returns, whatever effects are on, provided the library filter
    keeps the length of a frame and the echo delay is not negative: it
    takes the frame off the capture queue, keeps the size of the three
    buffers, so that the next frame of that size fits again, and hands a
    frame of the same length to the playback queue unless that queue is
    full. *)
Theorem process_audio_keeps_running :
  forall (st : processor) (chunk : list Q) (rest : list (list Q)),
    length_preserving butter_filtfilt ->
    0 <= echo_delay st ->
    PyQueue.items (input_queue st) = chunk :: rest ->
    frame_fits st chunk ->
    exists (st' : processor) (processed : list Q),
      process_audio_iter butter_filtfilt np_tanh st = Ok st'
      /\ PyQueue.items (input_queue st') = rest
      /\ length processed = length chunk
      /\ length (input_buffer st') = length (input_buffer st)
      /\ length (output_buffer st') = length (output_buffer st)
      /\ length (echo_buffer st') = length (echo_buffer st)
      /\ frame_fits st' chunk
      /\ PyQueue.items (output_queue st')
         = (if PyQueue.full (output_queue st)
            then PyQueue.items (output_queue st)
            else PyQueue.items (output_queue st) ++ [processed]).
Proof.
  intros st chunk rest Hlp Hd Hq Hfit.
  destruct (@process_audio_iter_step st chunk rest
              (or_intror Hlp) (or_intror Hd) Hq Hfit)
    as [st' [processed [Hrun [Hlen [Hrest [Hib [Hob [Heb [Hoq _]]]]]]]]].
  destruct Hfit as [Hpos [Hin [Hout Hecho]]].
  assert (Hib' : length (input_buffer st') = length (input_buffer st)).
  { rewrite Hib, length_app, length_skipn. lia. }
  assert (Hob' : length (output_buffer st') = length (output_buffer st)).
  { rewrite Hob, length_app, length_skipn. lia. }
  exists st', processed.
  repeat match goal with |- _ /\ _ => split end; try assumption.
  unfold frame_fits. rewrite Hib', Hob', Heb. repeat split; assumption.
Qed.

(** X6.  With every effect switched off, a turn of the processing loop passes
    the queued frame through unchanged: the frame itself enters the output
    buffer and, unless it is full, the playback queue, and the delay line
    is left as it was.  Neither the filter nor [tanh] is consulted. *)
Theorem disabled_chain_is_identity :
  forall (st : processor) (chunk : list Q) (rest : list (list Q)),
    all_off st ->
    PyQueue.items (input_queue st) = chunk :: rest ->
    frame_fits st chunk ->
    exists st' : processor,
      process_audio_iter butter_filtfilt np_tanh st = Ok st'
      /\ output_buffer st' = skipn (length chunk) (output_buffer st) ++ chunk
      /\ echo_buffer st' = echo_buffer st
      /\ PyQueue.items (output_queue st')
         = (if PyQueue.full (output_queue st)
            then PyQueue.items (output_queue st)
            else PyQueue.items (output_queue st) ++ [chunk]).
Proof.
  intros st chunk rest Hoff Hq Hfit.
  pose proof Hoff as [Hf [_ [_ He]]].
  destruct (@process_audio_iter_step st chunk rest
              (or_introl Hf) (or_introl He) Hq Hfit)
    as [st' [processed [Hrun [_ [_ [_ [Hob [_ [Hoq Hid]]]]]]]]].
  destruct (Hid Hoff) as [-> Heb].
  exists st'. repeat split; assumption.
Qed.

End ProcessingLoop.

Lemma process_audio_keeps_running_witness :
  EffectsInv.length_preserving EffectsInv.filter_stub
  /\ 0 <= Effects.echo_delay
            (Effects.set_input_queue Effects.init (PyQueue.mk 50 [[1; 2]]))
  /\ exists (st' : Effects.processor) (processed : list Q),
      Effects.process_audio_iter EffectsInv.filter_stub EffectsInv.tanh_stub
        (Effects.set_input_queue Effects.init (PyQueue.mk 50 [[1; 2]]))
      = Ok st'
      /\ PyQueue.items (Effects.input_queue st') = []
      /\ length processed = 2%nat.
Proof.
  assert (Hlp : EffectsInv.length_preserving EffectsInv.filter_stub).
  { intros d x y H. injection H as <-. apply length_map. }
  assert (Hd : 0 <= Effects.echo_delay
                      (Effects.set_input_queue Effects.init
                         (PyQueue.mk 50 [[1; 2]]))).
  { cbn. lra. }
  split; [exact Hlp |]. split; [exact Hd |].
  destruct (@process_audio_keeps_running EffectsInv.filter_stub
              EffectsInv.tanh_stub
              (Effects.set_input_queue Effects.init (PyQueue.mk 50 [[1; 2]]))
              [1; 2] [] Hlp Hd eq_refl)
    as [st' [processed [Hrun [Hrest [Hlen _]]]]].
  - unfold EffectsInv.frame_fits. cbn [length].
    change (length (Effects.input_buffer _)) with (length (Np.zeros Effects.ROLLING_WINDOW)).
    change (length (Effects.output_buffer _)) with (length (Np.zeros Effects.ROLLING_WINDOW)).
    change (length (Effects.echo_buffer _)) with (length (Np.zeros (Z.to_nat (Effects.RATE * 2)))).
    unfold Np.zeros. rewrite !repeat_length.
    repeat split; apply Nat.leb_le; vm_compute; reflexivity.
  - exists st', processed. repeat split; assumption.
Defined.

Lemma disabled_chain_is_identity_witness :
  EffectsInv.all_off
    (Effects.set_input_queue Effects.init (PyQueue.mk 50 [[1; 2]]))
  /\ exists st' : Effects.processor,
      Effects.process_audio_iter EffectsInv.filter_stub EffectsInv.tanh_stub
        (Effects.set_input_queue Effects.init (PyQueue.mk 50 [[1; 2]]))
      = Ok st'
      /\ PyQueue.items (Effects.output_queue st') = [[1; 2]].
Proof.
  assert (Hoff : EffectsInv.all_off
                   (Effects.set_input_queue Effects.init
                      (PyQueue.mk 50 [[1; 2]]))).
  { repeat split. }
  split; [exact Hoff |].
  destruct (@disabled_chain_is_identity EffectsInv.filter_stub
              EffectsInv.tanh_stub
              (Effects.set_input_queue Effects.init (PyQueue.mk 50 [[1; 2]]))
              [1; 2] [] Hoff eq_refl)
    as [st' [Hrun [_ [_ Hoq]]]].
  - unfold EffectsInv.frame_fits. cbn [length].
    change (length (Effects.input_buffer _)) with (length (Np.zeros Effects.ROLLING_WINDOW)).
    change (length (Effects.output_buffer _)) with (length (Np.zeros Effects.ROLLING_WINDOW)).
    change (length (Effects.echo_buffer _)) with (length (Np.zeros (Z.to_nat (Effects.RATE * 2)))).
    unfold Np.zeros. rewrite !repeat_length.
    repeat split; apply Nat.leb_le; vm_compute; reflexivity.
  - exists st'. split; [exact Hrun | exact Hoq].
Defined.

(** * Further properties of the queues *)

Section QueueBounds.

Import QueueInv.

Lemma put_nowait_bounded (A : Type) (q : PyQueue.t A) (x : A) :
  bounded q ->
  match PyQueue.put_nowait q x with
  | Ok q' => bounded q' /\ PyQueue.maxsize q' = PyQueue.maxsize q
  | Raise e => e = QueueFull
  end.
Proof.
  intros [Hpos Hle]. unfold PyQueue.put_nowait, PyQueue.full.
  destruct (Nat.ltb_spec 0 (PyQueue.maxsize q)) as [_ | Hz]; [| lia].
  destruct (Nat.leb_spec (PyQueue.maxsize q) (length (PyQueue.items q)))
    as [Hfull | Hroom]; cbn [andb]; [reflexivity |].
  unfold bounded. cbn. rewrite length_app. cbn. repeat split; lia.
Qed.

(** X8.  No callback and no push lets a queue grow beyond its capacity: a
    bounded queue is bounded, with the same capacity, after the capture
    callback and the playback push of the effects processor, after the
    capture callback of the beat detector and after the capture callback of
    the recorder, each of which returns. *)
Theorem queues_stay_within_capacity :
  forall (st : Effects.processor) (bst : Beat.detector) (bytes : Type)
         (q : PyQueue.t (bytes * Q)) (frame : list Q) (in_data : bytes)
         (now now' : Q),
    bounded (Effects.input_queue st) ->
    bounded (Effects.output_queue st) ->
    bounded (Beat.audio_queue bst) ->
    bounded q ->
    (exists st', Effects.input_callback st frame = Ok (st', (None, paContinue))
                 /\ bounded (Effects.input_queue st')
                 /\ PyQueue.maxsize (Effects.input_queue st')
                    = PyQueue.maxsize (Effects.input_queue st)
                 /\ Effects.output_queue st' = Effects.output_queue st)
    /\ (exists st', Effects.send_to_output st frame = Ok st'
                    /\ bounded (Effects.output_queue st')
                    /\ PyQueue.maxsize (Effects.output_queue st')
                       = PyQueue.maxsize (Effects.output_queue st)
                    /\ Effects.input_queue st' = Effects.input_queue st)
    /\ (exists bst', Beat.audio_callback bst frame now
                     = Ok (bst', (None, paContinue))
                     /\ bounded (Beat.audio_queue bst')
                     /\ PyQueue.maxsize (Beat.audio_queue bst')
                        = PyQueue.maxsize (Beat.audio_queue bst))
    /\ (exists q', Recorder.audio_callback q in_data now now'
                   = Ok (q', (None, paContinue))
                   /\ bounded q'
                   /\ PyQueue.maxsize q' = PyQueue.maxsize q).
Proof.
  intros st bst bytes q frame in_data now now' Hin Hout Hb Hq.
  split; [| split; [| split]].
  - unfold Effects.input_callback.
    pose proof (put_nowait_bounded frame Hin) as Hput.
    destruct (PyQueue.put_nowait (Effects.input_queue st) frame) as [q' | e].
    + exists (Effects.set_input_queue st q'). cbn.
      destruct Hput as [Hbd Hmax].
      split; [reflexivity |]. split; [exact Hbd |]. split; [exact Hmax |].
      reflexivity.
    + subst e. exists st. cbn.
      split; [reflexivity |]. split; [exact Hin |]. split; reflexivity.
  - unfold Effects.send_to_output.
    pose proof (put_nowait_bounded frame Hout) as Hput.
    destruct (PyQueue.put_nowait (Effects.output_queue st) frame) as [q' | e].
    + exists (Effects.set_output_queue st q'). cbn.
      destruct Hput as [Hbd Hmax].
      split; [reflexivity |]. split; [exact Hbd |]. split; [exact Hmax |].
      reflexivity.
    + subst e. exists st. cbn.
      split; [reflexivity |]. split; [exact Hout |]. split; reflexivity.
  - unfold Beat.audio_callback.
    pose proof (put_nowait_bounded (frame, now) Hb) as Hput.
    destruct (PyQueue.put_nowait (Beat.audio_queue bst) (frame, now)) as [q' | e].
    + exists (Beat.set_audio_queue bst q'). cbn.
      destruct Hput as [Hbd Hmax].
      split; [reflexivity |]. split; [exact Hbd | exact Hmax].
    + subst e. exists bst. cbn.
      split; [reflexivity |]. split; [exact Hb | reflexivity].
  - unfold Recorder.audio_callback.
    pose proof (put_nowait_bounded (in_data, now) Hq) as Hput.
    destruct (PyQueue.put_nowait q (in_data, now)) as [q' | e] eqn:Hfirst.
    + exists q'. cbn. repeat split; apply Hput.
    + subst e. cbn [catch exn_eqb]. unfold PyQueue.get_nowait.
      destruct Hq as [Hpos Hle].
      destruct (PyQueue.items q) as [| x xs] eqn:Hitems.
      * exists q. cbn. unfold bounded. rewrite Hitems. cbn. repeat split; lia.
      * cbn [bind].
        assert (Hq1 : bounded (PyQueue.mk (PyQueue.maxsize q) xs)).
        { unfold bounded. cbn in Hle |- *. split; lia. }
        pose proof (put_nowait_bounded (in_data, now') Hq1) as Hput1.
        unfold PyQueue.put_nowait, PyQueue.full in Hput1 |- *.
        cbn [PyQueue.maxsize PyQueue.items] in Hput1 |- *.
        cbn in Hle.
        destruct (Nat.ltb_spec 0 (PyQueue.maxsize q)) as [_ | Hz]; [| lia].
        destruct (Nat.leb_spec (PyQueue.maxsize q) (length xs)) as [Hfull | _];
          [lia |].
        cbn [andb] in Hput1 |- *. cbn [catch bind].
        eexists. split; [reflexivity |]. exact Hput1.
Qed.

Lemma queues_stay_within_capacity_witness :
  bounded (Effects.input_queue Effects.init)
  /\ bounded (Effects.output_queue playback_full)
  /\ bounded (Beat.audio_queue Beat.init)
  /\ bounded recorder_full
  /\ (exists st', Effects.send_to_output playback_full [50] = Ok st'
                  /\ bounded (Effects.output_queue st')
                  /\ PyQueue.maxsize (Effects.output_queue st')
                     = PyQueue.maxsize (Effects.output_queue playback_full)
                  /\ Effects.input_queue st'
                     = Effects.input_queue playback_full)
  /\ exists q', Recorder.audio_callback recorder_full [100%nat] 100 101
                = Ok (q', (None, paContinue))
                /\ bounded q'
                /\ PyQueue.maxsize q' = PyQueue.maxsize recorder_full.
Proof.
  assert (H1 : bounded (Effects.input_queue Effects.init))
    by (split; apply Nat.leb_le; reflexivity).
  assert (H2 : bounded (Effects.output_queue playback_full))
    by (split; apply Nat.leb_le; reflexivity).
  assert (H2' : bounded (Effects.input_queue playback_full))
    by (split; apply Nat.leb_le; reflexivity).
  assert (H3 : bounded (Beat.audio_queue Beat.init))
    by (split; apply Nat.leb_le; reflexivity).
  assert (H4 : bounded recorder_full)
    by (split; apply Nat.leb_le; reflexivity).
  split; [exact H1 |]. split; [exact H2 |]. split; [exact H3 |].
  split; [exact H4 |].
  pose proof (@queues_stay_within_capacity playback_full Beat.init (list nat)
                recorder_full [50] [100%nat] 100 101 H2' H2 H3 H4)
    as [_ [Hsend [_ Hrec]]].
  split; [exact Hsend | exact Hrec].
Defined.

End QueueBounds.

(** * Further properties of the beat detector *)

Section BeatMore.

Import Beat BeatRun BeatFacts BeatInv.

Variable np_std : list Q -> Q.
Variable periodogram : list Q -> list Q.

Lemma roll_set_last (a : list Q) (x : Q) :
  a <> [] -> Np.set_last (Np.roll a (-1)) x = Ok (tl a ++ [x]).
Proof.
  intros Hne. destruct a as [| y a]; [congruence |].
  change (-1)%Z with (- Z.of_nat 1)%Z.
  rewrite roll_back_by by (cbn; lia).
  cbn [skipn firstn tl]. unfold Np.set_last.
  rewrite removelast_last.
  destruct (a ++ [y]) eqn:E; [| reflexivity].
  destruct a; discriminate E.
Qed.

(** The two outcomes of a call of [detect_beats]. *)
Lemma detect_beats_cases (st : detector) (s t : Q) :
  onset_buffer st <> [] ->
  detect_beats np_std st s t
  = Ok (set_onset_buffer st (tl (onset_buffer st) ++ [s]), false)
  \/ (60 / MAX_BPM < t - last_beat_time st
      /\ BEAT_THRESHOLD < s
      /\ detect_beats np_std st s t
         = Ok (after_beat st (tl (onset_buffer st) ++ [s]) t, true)).
Proof.
  intros Hne. unfold detect_beats.
  rewrite (roll_set_last s Hne). cbn [bind].
  set (ob := tl (onset_buffer st) ++ [s]).
  set (st0 := set_onset_buffer st ob).
  change (onset_buffer st0) with ob.
  change (last_beat_time st0) with (last_beat_time st).
  match goal with
  | |- context [if ?c then _ else _] => destruct c eqn:Hcond
  end; [| left; reflexivity].
  apply andb_prop in Hcond. destruct Hcond as [Hcond Hgap].
  apply andb_prop in Hcond. destruct Hcond as [_ Hfloor].
  apply Qltb_lt in Hgap. apply Qltb_lt in Hfloor.
  destruct (5 <=? length ob)%nat; [| left; reflexivity].
  destruct (Np.max (Np.last_n 5 ob)) as [m | e] eqn:Hm.
  - cbn [bind]. destruct (Qeq_bool s m); [| left; reflexivity].
    right. split; [exact Hgap |]. split; [exact Hfloor |]. reflexivity.
  - exfalso. unfold Np.max in Hm.
    destruct (Np.last_n 5 ob) eqn:Hw; [| discriminate Hm].
    unfold Np.last_n, Np.tail_start in Hw. cbn [Nat.eqb] in Hw.
    apply (f_equal (@length Q)) in Hw. rewrite length_skipn in Hw.
    unfold ob in Hw. rewrite length_app in Hw. cbn in Hw. lia.
Qed.

Lemma onset_history_is_a_rolling_window_step (st : detector) (s t : Q) :
  onset_buffer st <> [] ->
  exists (st' : detector) (b : bool),
    detect_beats np_std st s t = Ok (st', b)
    /\ length (onset_buffer st') = length (onset_buffer st).
Proof.
  intros Hne.
  assert (Hlen : length (tl (onset_buffer st) ++ [s]) = length (onset_buffer st)).
  { rewrite length_app. destruct (onset_buffer st); [congruence |]. cbn. lia. }
  destruct (@detect_beats_cases st s t Hne) as [Hq | [_ [_ Hb]]].
  - eexists. exists false. split; [exact Hq | exact Hlen].
  - eexists. exists true. split; [exact Hb |].
    unfold after_beat. cbn [onset_buffer set_beat_flash].
    set (st1 := set_beat_times _ _).
    destruct (update_tempo_other_fields st1) as [_ [_ [Hob _]]].
    rewrite Hob. exact Hlen.
Qed.

(** X9.  Every call of [detect_beats] on a non-empty onset history returns
    and makes the history a rolling window: the oldest onset strength is
    dropped, the others keep their order and the new one comes last, also
    when a beat is reported. *)
Theorem onset_history_is_a_rolling_window :
  forall (st : detector) (s t : Q),
    onset_buffer st <> [] ->
    exists (st' : detector) (b : bool),
      detect_beats np_std st s t = Ok (st', b)
      /\ onset_buffer st' = tl (onset_buffer st) ++ [s]
      /\ length (onset_buffer st') = length (onset_buffer st)
      /\ audio_buffer st' = audio_buffer st
      /\ audio_queue st' = audio_queue st.
Proof.
  intros st s t Hne.
  assert (Hlen : length (tl (onset_buffer st) ++ [s]) = length (onset_buffer st)).
  { rewrite length_app. destruct (onset_buffer st); [congruence |]. cbn. lia. }
  destruct (@detect_beats_cases st s t Hne) as [Hq | [_ [_ Hb]]].
  - eexists. exists false. split; [exact Hq |]. cbn.
    repeat split; try reflexivity. exact Hlen.
  - eexists. exists true. split; [exact Hb |].
    unfold after_beat. cbn [onset_buffer audio_buffer audio_queue set_beat_flash].
    set (st1 := set_beat_times _ _).
    destruct (update_tempo_other_fields st1) as [_ [_ [Hob [Hab Haq]]]].
    rewrite Hob, Hab, Haq. cbn. repeat split; try reflexivity. exact Hlen.
Qed.

Lemma onset_strength_of_short_chunk (chunk : list Q) :
  (length chunk < 1024 + 512)%nat ->
  compute_onset_strength periodogram chunk = 0.
Proof.
  intros Hshort. unfold compute_onset_strength. cbv zeta.
  destruct (Nat.ltb_spec (length chunk) 1024) as [_ | Hlong]; [reflexivity |].
  rewrite length_map, length_spectrogram, n_segments_subframes by exact Hlong.
  assert (Hn : (subframes (length chunk) < 2)%nat)
    by (apply subframes_lt_2; exact Hshort).
  destruct (Nat.ltb_spec 1 (subframes (length chunk))) as [Hge | _];
    [lia | reflexivity].
Qed.

Lemma detect_beats_quiet (st : detector) (s t : Q) :
  onset_buffer st <> [] ->
  s <= BEAT_THRESHOLD ->
  detect_beats np_std st s t
  = Ok (set_onset_buffer st (tl (onset_buffer st) ++ [s]), false).
Proof.
  intros Hne Hs.
  destruct (@detect_beats_cases st s t Hne) as [Hq | [_ [Hfloor _]]];
    [exact Hq | lra].
Qed.

(** X10.  A queued frame of fewer than 1536 samples (the detector's own frames
    have 1024) never yields a beat: its onset strength is 0, below the beat
    floor, so a turn of the processing loop only rolls the frame into the
    audio buffer and a 0 into the onset history; beat times, last beat
    time, tempo and tempo history stay as they are. *)
Theorem short_frames_never_beat :
  forall (st : detector) (chunk : list Q) (stamp : Q)
         (rest : list (list Q * Q)),
    PyQueue.items (audio_queue st) = (chunk, stamp) :: rest ->
    (0 < length chunk < 1024 + 512)%nat ->
    (length chunk <= length (audio_buffer st))%nat ->
    onset_buffer st <> [] ->
    exists st' : detector,
      process_audio_iter np_std periodogram st = Ok st'
      /\ beat_times st' = beat_times st
      /\ last_beat_time st' = last_beat_time st
      /\ current_tempo st' = current_tempo st
      /\ tempo_history st' = tempo_history st
      /\ onset_buffer st' = tl (onset_buffer st) ++ [0]
      /\ audio_buffer st' = skipn (length chunk) (audio_buffer st) ++ chunk
      /\ PyQueue.items (audio_queue st') = rest.
Proof.
  intros st chunk stamp rest Hq [Hpos Hshort] Hfit Hne.
  unfold process_audio_iter, PyQueue.empty, PyQueue.get_nowait.
  rewrite Hq. cbn [negb bind].
  set (st0 := set_audio_queue st _).
  change (audio_buffer st0) with (audio_buffer st).
  rewrite rolling_write_ok by lia. cbn [bind].
  rewrite (onset_strength_of_short_chunk chunk Hshort).
  set (st1 := set_audio_buffer st0 _).
  rewrite detect_beats_quiet;
    [| exact Hne | unfold BEAT_THRESHOLD; lra].
  cbn [bind catch].
  eexists. split; [reflexivity |]. cbn. repeat split; reflexivity.
Qed.

End BeatMore.

Lemma short_frames_never_beat_witness :
  PyQueue.items
    (Beat.audio_queue
       (Beat.set_audio_queue Beat.init (PyQueue.mk 50 [(Np.zeros 1024, 1)])))
  = [(Np.zeros 1024, 1)]
  /\ exists st' : Beat.detector,
      Beat.process_audio_iter BeatRun.std_stub BeatRun.periodogram_stub
        (Beat.set_audio_queue Beat.init (PyQueue.mk 50 [(Np.zeros 1024, 1)]))
      = Ok st'
      /\ Beat.beat_times st' = []
      /\ Beat.last_beat_time st' = 0.
Proof.
  split; [reflexivity |].
  destruct (@short_frames_never_beat BeatRun.std_stub BeatRun.periodogram_stub
              (Beat.set_audio_queue Beat.init
                 (PyQueue.mk 50 [(Np.zeros 1024, 1)]))
              (Np.zeros 1024) 1 [] eq_refl)
    as [st' [Hrun [Hbt [Hlast _]]]].
  - unfold Np.zeros. rewrite repeat_length. split; apply Nat.ltb_lt; reflexivity.
  - change (length (Beat.audio_buffer _)) with (length (Np.zeros Beat.BUFFER_SIZE)).
    unfold Np.zeros. rewrite !repeat_length. apply Nat.leb_le. vm_compute. reflexivity.
  - intros H. discriminate H.
  - exists st'. split; [exact Hrun |]. split; [exact Hbt | exact Hlast].
Defined.

Lemma onset_history_is_a_rolling_window_witness :
  Beat.onset_buffer (Beat.set_onset_buffer Beat.init [1; 2; 3]) <> []
  /\ exists (st' : Beat.detector) (b : bool),
      Beat.detect_beats BeatRun.std_stub
        (Beat.set_onset_buffer Beat.init [1; 2; 3]) 4 1
      = Ok (st', b)
      /\ Beat.onset_buffer st' = [2; 3; 4].
Proof.
  assert (Hne : Beat.onset_buffer (Beat.set_onset_buffer Beat.init [1; 2; 3])
                <> []) by (intros H; discriminate H).
  split; [exact Hne |].
  destruct (@onset_history_is_a_rolling_window BeatRun.std_stub
              (Beat.set_onset_buffer Beat.init [1; 2; 3]) 4 1 Hne)
    as [st' [b [Hrun [Hob _]]]].
  exists st', b. split; [exact Hrun | exact Hob].
Defined.

Section BeatHistory.

Import Beat BeatRun BeatFacts BeatInv.

Variable np_std : list Q -> Q.

Lemma filter_sorted (f : Q -> bool) (l : list Q) :
  StronglySorted Qlt l -> StronglySorted Qlt (filter f l).
Proof.
  induction 1 as [| x l Hl IH Hx]; [constructor |].
  cbn [filter]. destruct (f x); [| exact IH].
  constructor; [exact IH |].
  apply Forall_forall. intros y Hy. apply filter_In in Hy.
  rewrite Forall_forall in Hx. apply Hx. apply Hy.
Qed.

Lemma sorted_snoc (l : list Q) (t : Q) :
  StronglySorted Qlt l -> Forall (fun x => x < t) l ->
  StronglySorted Qlt (l ++ [t]).
Proof.
  induction 1 as [| x l Hl IH Hx]; intros Hlt.
  - repeat constructor.
  - inversion Hlt as [| ? ? Hxt Hrest]; subst.
    cbn [app]. constructor; [apply IH; exact Hrest |].
    apply Forall_app. split; [exact Hx | repeat constructor; exact Hxt].
Qed.

Lemma recent_beat_self (t : Q) : recent_beat t t = true.
Proof.
  unfold recent_beat, Qltb.
  destruct (Qlt_le_dec (t - t) 10) as [_ | H]; [reflexivity | lra].
Qed.

Lemma beat_times_after_beat (st : detector) (ob : list Q) (t : Q) :
  beat_times (after_beat st ob t)
  = filter (recent_beat t) (beat_times st) ++ [t]
  /\ last_beat_time (after_beat st ob t) = t.
Proof.
  unfold after_beat. cbn [beat_times last_beat_time set_beat_flash].
  set (st1 := set_beat_times _ _).
  destruct (update_tempo_other_fields st1) as [Hlast [Hbt _]].
  rewrite Hlast, Hbt. unfold st1. cbn.
  rewrite filter_app. cbn [filter]. rewrite recent_beat_self.
  split; reflexivity.
Qed.

Lemma detect_beats_history (st st' : detector) (s t : Q) (b : bool) :
  onset_buffer st <> [] ->
  history_ok st ->
  detect_beats np_std st s t = Ok (st', b) ->
  history_ok st'.
Proof.
  intros Hne [Hsorted Hbound] Hrun.
  destruct (@detect_beats_cases np_std st s t Hne) as [Hq | [Hgap [_ Hb]]];
    rewrite Hrun in *.
  - injection Hq as -> _. split; assumption.
  - injection Hb as -> _.
    destruct (beat_times_after_beat st (tl (onset_buffer st) ++ [s]) t)
      as [Hbt Hlast].
    unfold history_ok. rewrite Hbt, Hlast.
    assert (Hpos : 0 < 60 / MAX_BPM) by reflexivity.
    assert (Hlt : Forall (fun x => x < t) (filter (recent_beat t) (beat_times st))).
    { apply Forall_forall. intros x Hx. apply filter_In in Hx.
      rewrite Forall_forall in Hbound. pose proof (Hbound x (proj1 Hx)). lra. }
    split.
    + apply sorted_snoc; [apply filter_sorted; exact Hsorted | exact Hlt].
    + apply Forall_app. split.
      * revert Hlt. apply Forall_impl. intros x Hx. lra.
      * repeat constructor. lra.
Qed.

(** X11.  The beat history stays in strictly ascending order, with nothing
    later than the last beat time, over any run of the tracker, whatever
    the time stamps are: a beat is only appended when it is later than the
    last one. *)
Theorem beat_history_stays_sorted :
  forall (inputs : list (Q * Q)) (st : detector),
    onset_buffer st <> [] ->
    history_ok st ->
    exists (st' : detector) (fired : list Q),
      run_beats np_std st inputs = Ok (st', fired)
      /\ history_ok st'.
Proof.
  induction inputs as [| [s t] rest IH]; intros st Hne Hok.
  - exists st, []. split; [reflexivity | exact Hok].
  - destruct (@onset_history_is_a_rolling_window_step np_std st s t Hne)
      as [st1 [b [Hstep Hlen]]].
    assert (Hne1 : onset_buffer st1 <> []).
    { intros E. rewrite E in Hlen. destruct (onset_buffer st);
        [congruence | discriminate]. }
    destruct (IH st1 Hne1 (@detect_beats_history st st1 s t b Hne Hok Hstep))
      as [st2 [fired [Hrun Hok2]]].
    exists st2, (if b then t :: fired else fired).
    cbn [run_beats]. rewrite Hstep. cbn [bind]. rewrite Hrun. cbn [bind].
    split; [reflexivity | exact Hok2].
Qed.

(** X12.  A reported beat at time [t] enters the beat history as its last
    entry, after the earlier beats that are less than 10 s old, the older
    ones being dropped, and becomes the last beat time; a call that reports
    no beat leaves beat history, last beat time and tempo alone. *)
Theorem reported_beat_enters_history :
  forall (st st' : detector) (s t : Q) (b : bool),
    onset_buffer st <> [] ->
    detect_beats np_std st s t = Ok (st', b) ->
    if b
    then beat_times st' = filter (recent_beat t) (beat_times st) ++ [t]
         /\ Forall (fun x => t - x < 10) (beat_times st')
         /\ last_beat_time st' = t
         /\ BEAT_THRESHOLD < s
    else beat_times st' = beat_times st
         /\ last_beat_time st' = last_beat_time st
         /\ current_tempo st' = current_tempo st.
Proof.
  intros st st' s t b Hne Hrun.
  destruct (@detect_beats_cases np_std st s t Hne) as [Hq | [_ [Hfloor Hb]]];
    rewrite Hrun in *.
  - injection Hq as -> ->. repeat split; reflexivity.
  - injection Hb as -> ->.
    destruct (beat_times_after_beat st (tl (onset_buffer st) ++ [s]) t)
      as [Hbt Hlast].
    rewrite Hbt, Hlast. repeat split; try assumption.
    apply Forall_app. split.
    + apply Forall_forall. intros x Hx. apply filter_In in Hx.
      destruct Hx as [_ Hx]. apply Qltb_lt in Hx. exact Hx.
    + repeat constructor. lra.
Qed.

End BeatHistory.

Lemma beat_history_stays_sorted_witness :
  Beat.onset_buffer BeatInv.small_detector <> []
  /\ BeatInv.history_ok BeatInv.small_detector
  /\ exists (st' : Beat.detector) (fired : list Q),
      BeatRun.run_beats BeatRun.std_stub BeatInv.small_detector
        [(1, 1); (1, 2)]
      = Ok (st', fired)
      /\ BeatInv.history_ok st'.
Proof.
  assert (Hne : Beat.onset_buffer BeatInv.small_detector <> [])
    by (intros H; discriminate H).
  assert (Hok : BeatInv.history_ok BeatInv.small_detector)
    by (split; constructor).
  split; [exact Hne |]. split; [exact Hok |].
  exact (@beat_history_stays_sorted BeatRun.std_stub [(1, 1); (1, 2)]
           BeatInv.small_detector Hne Hok).
Defined.

Lemma reported_beat_enters_history_witness :
  Beat.onset_buffer BeatInv.small_detector <> []
  /\ Beat.detect_beats BeatRun.std_stub BeatInv.small_detector 1 1
     = Ok (BeatInv.after_beat BeatInv.small_detector [0; 0; 0; 0; 1] 1, true)
  /\ Beat.beat_times
       (BeatInv.after_beat BeatInv.small_detector [0; 0; 0; 0; 1] 1)
     = filter (Beat.recent_beat 1) (Beat.beat_times BeatInv.small_detector)
       ++ [1].
Proof.
  assert (Hne : Beat.onset_buffer BeatInv.small_detector <> [])
    by (intros H; discriminate H).
  assert (Hrun : Beat.detect_beats BeatRun.std_stub BeatInv.small_detector 1 1
                 = Ok (BeatInv.after_beat BeatInv.small_detector
                         [0; 0; 0; 0; 1] 1, true))
    by (vm_compute; reflexivity).
  split; [exact Hne |]. split; [exact Hrun |].
  exact (proj1 (@reported_beat_enters_history BeatRun.std_stub
                  BeatInv.small_detector _ 1 1 true Hne Hrun)).
Defined.

Section SteadyTempo.

Import Beat BeatRun BeatFacts BeatInv.

Lemma insert_sorted_facts (P : Q -> Prop) (x : Q) (a : list Q) :
  (P x -> Forall P a -> Forall P (Np.insert_sorted x a))
  /\ length (Np.insert_sorted x a) = S (length a).
Proof.
  induction a as [| y a [IHP IHlen]]; [split; [repeat constructor; assumption | reflexivity] |].
  cbn [Np.insert_sorted]. destruct (Qlt_le_dec y x).
  - split.
    + intros Hx Hall. inversion Hall; subst. constructor; [assumption |].
      apply IHP; assumption.
    + cbn [length]. rewrite IHlen. reflexivity.
  - split; [intros Hx Hall; constructor; assumption | reflexivity].
Qed.

Lemma sort_facts (P : Q -> Prop) (a : list Q) :
  (Forall P a -> Forall P (Np.sort a)) /\ length (Np.sort a) = length a.
Proof.
  induction a as [| x a [IHP IHlen]]; [split; [trivial | reflexivity] |].
  unfold Np.sort in *. cbn [fold_right].
  destruct (insert_sorted_facts P x (fold_right Np.insert_sorted [] a))
    as [HP Hlen].
  split.
  - intros Hall. inversion Hall; subst. apply HP; [assumption |].
    apply IHP. assumption.
  - rewrite Hlen, IHlen. reflexivity.
Qed.

Lemma nth_all_eq (d : Q) (a : list Q) (k : nat) :
  Forall (fun x => x == d) a -> (k < length a)%nat -> nth k a 0 == d.
Proof.
  intros Hall Hk. rewrite Forall_forall in Hall. apply Hall.
  apply nth_In. exact Hk.
Qed.

Lemma median_of_equal (d : Q) (a : list Q) :
  a <> [] -> Forall (fun x => x == d) a -> Np.median a == d.
Proof.
  intros Hne Hall. unfold Np.median.
  destruct (sort_facts (fun x => x == d) a) as [Hs Hlen].
  specialize (Hs Hall).
  assert (Hpos : (0 < length (Np.sort a))%nat).
  { rewrite Hlen. destruct a; [congruence | cbn; lia]. }
  set (srt := Np.sort a) in *.
  assert (Hhalf : (length srt / 2 < length srt)%nat)
    by (apply Nat.div_lt; lia).
  destruct (Nat.even (length srt)).
  - rewrite (nth_all_eq (k := length srt / 2 - 1) Hs) by lia.
    rewrite (nth_all_eq (k := length srt / 2) Hs) by lia.
    field.
  - apply nth_all_eq; assumption.
Qed.

Lemma sum_of_equal (d : Q) (a : list Q) :
  Forall (fun x => x == d) a ->
  Np.sum a == inject_Z (Z.of_nat (length a)) * d.
Proof.
  induction 1 as [| x a Hx _ IH].
  - cbn. ring.
  - change (Np.sum (x :: a)) with (x + Np.sum a).
    cbn [length]. rewrite IH, Hx. rewrite Nat2Z.inj_succ.
    unfold Z.succ. rewrite inject_Z_plus. ring.
Qed.

Lemma mean_of_equal (d : Q) (a : list Q) :
  a <> [] -> Forall (fun x => x == d) a -> Np.mean a == d.
Proof.
  intros Hne Hall. unfold Np.mean. rewrite (sum_of_equal Hall).
  assert (Hn : ~ inject_Z (Z.of_nat (length a)) == 0).
  { destruct a; [congruence |]. unfold Qeq. cbn. lia. }
  field. exact Hn.
Qed.

Lemma filter_all (f : Q -> bool) (a : list Q) :
  Forall (fun x => f x = true) a -> filter f a = a.
Proof.
  induction 1 as [| x a Hx _ IH]; [reflexivity |].
  cbn [filter]. rewrite Hx, IH. reflexivity.
Qed.

Lemma steady_survivors (st : detector) (d : Q) :
  0 < d ->
  intervals_of st <> [] ->
  Forall (fun iv => iv == d) (intervals_of st) ->
  survivors_of st = intervals_of st /\ new_tempo_of st == 60 / d.
Proof.
  intros Hd Hne Hall.
  pose proof (median_of_equal Hne Hall) as Hmed.
  assert (Hsurv : survivors_of st = intervals_of st).
  { unfold survivors_of. apply filter_all.
    revert Hall. apply Forall_impl. intros iv Hiv.
    apply valid_interval_iff. rewrite Hmed, Hiv.
    apply Qabs_case; intros; lra. }
  split; [exact Hsurv |].
  unfold new_tempo_of. rewrite Hsurv, (mean_of_equal Hne Hall). reflexivity.
Qed.

(** X13.  A steady beat sets the tempo it has.  When the intervals between the
    (up to 10) last beats all equal [d] seconds, none is discarded and the
    new tempo is exactly [60 / d] BPM.  For [d] between 1/3 s and 1 s (180
    to 60 BPM) the tempo moves a fifth of the way to it: the distance
    between tempo and [60 / d] shrinks by the factor 0.8 at each update.
    For a slower or faster beat the tempo is left alone. *)
Theorem steady_beat_sets_its_tempo :
  forall (st : detector) (d : Q),
    0 < d ->
    (2 <= length (beat_times st))%nat ->
    Forall (fun iv => iv == d) (intervals_of st) ->
    survivors_of st = intervals_of st
    /\ new_tempo_of st == 60 / d
    /\ ((1 # 3) <= d /\ d <= 1 ->
        current_tempo (update_tempo st) - 60 / d
        == (8 # 10) * (current_tempo st - 60 / d))
    /\ (d < (1 # 3) \/ 1 < d -> update_tempo st = st).
Proof.
  intros st d Hd Hlen Hall.
  assert (Hne : intervals_of st <> []).
  { intros E. apply (f_equal (@length Q)) in E.
    unfold intervals_of in E.
    rewrite (proj1 (diff_nth _)), length_last_n in E by lia.
    cbn [length] in E. lia. }
  destruct (@steady_survivors st d Hd Hne Hall) as [Hsurv Hnew].
  split; [exact Hsurv |]. split; [exact Hnew |].
  assert (Hsne : survivors_of st <> []) by (rewrite Hsurv; exact Hne).
  split.
  - intros [Hlo Hhi].
    assert (Hu : updates st = true).
    { apply updates_iff. split; [exact Hlen |]. split; [exact Hsne |].
      rewrite Hnew. unfold MIN_BPM, MAX_BPM. split.
      - apply Qle_shift_div_l; [exact Hd | lra].
      - apply Qle_shift_div_r; [exact Hd | lra]. }
    rewrite (update_tempo_smooths st Hu), Hnew. ring.
  - intros Hout. apply update_tempo_skips.
    destruct (updates st) eqn:Hu; [| reflexivity].
    apply updates_iff in Hu. destruct Hu as [_ [_ [Hmin Hmax]]].
    rewrite Hnew in Hmin, Hmax. unfold MIN_BPM, MAX_BPM in *.
    exfalso. destruct Hout as [Hfast | Hslow].
    + assert (H : 180 < 60 / d).
      { apply Qlt_shift_div_l; [exact Hd | lra]. }
      lra.
    + assert (H : 60 / d < 60).
      { apply Qlt_shift_div_r; [exact Hd | lra]. }
      lra.
Qed.

Lemma steady_beat_sets_its_tempo_witness :
  0 < 1 # 2
  /\ (2 <= length (beat_times steady_example))%nat
  /\ new_tempo_of steady_example == 60 / (1 # 2).
Proof.
  assert (Hd : 0 < 1 # 2) by reflexivity.
  assert (Hlen : (2 <= length (beat_times steady_example))%nat)
    by (cbn; lia).
  assert (Hall : Forall (fun iv => iv == 1 # 2) (intervals_of steady_example))
    by (repeat constructor).
  split; [exact Hd |]. split; [exact Hlen |].
  exact (proj1 (proj2 (@steady_beat_sets_its_tempo steady_example (1 # 2)
                         Hd Hlen Hall))).
Defined.

End SteadyTempo.

Section TempoHistory.

Import Beat BeatRun BeatFacts BeatInv.

(** X14.  The tempo history never holds more than 50 tempi.  An update that
    changes the tempo appends the new tempo, and drops the oldest entry when
    50 are already held; an update that leaves the tempo alone leaves the
    history alone. *)
Theorem tempo_history_keeps_last_50 :
  forall st : detector,
    (length (tempo_history st) <= 50)%nat ->
    (length (tempo_history (update_tempo st)) <= 50)%nat
    /\ (updates st = false -> tempo_history (update_tempo st) = tempo_history st)
    /\ (updates st = true ->
        tempo_history (update_tempo st)
        = (if (length (tempo_history st) <? 50)%nat
           then tempo_history st
           else tl (tempo_history st))
          ++ [current_tempo (update_tempo st)]).
Proof.
  intros st Hlen.
  assert (Hupd : updates st = true ->
                 tempo_history (update_tempo st)
                 = (if (length (tempo_history st) <? 50)%nat
                    then tempo_history st
                    else tl (tempo_history st))
                   ++ [current_tempo (update_tempo st)]).
  { intros Hu. rewrite (update_tempo_history st Hu) at 1. cbv zeta.
    rewrite length_app. cbn [length].
    destruct (Nat.ltb_spec (length (tempo_history st)) 50) as [Hlt | Hge].
    - destruct (Nat.ltb_spec 50 (length (tempo_history st) + 1)) as [H | _];
        [lia | reflexivity].
    - destruct (Nat.ltb_spec 50 (length (tempo_history st) + 1)) as [_ | H];
        [| lia].
      unfold Np.last_n, Np.tail_start. cbn [Nat.eqb].
      rewrite length_app. cbn [length].
      replace (length (tempo_history st) + 1 - 50)%nat with 1%nat by lia.
      destruct (tempo_history st) as [| x th]; [cbn in Hge; lia |].
      reflexivity. }
  split; [| split; [| exact Hupd]].
  - destruct (updates st) eqn:Hu.
    + rewrite (Hupd eq_refl), length_app. cbn [length].
      destruct (Nat.ltb_spec (length (tempo_history st)) 50) as [Hlt | Hge];
        [lia |].
      destruct (tempo_history st); cbn in *; lia.
    + rewrite (update_tempo_skips st Hu). exact Hlen.
  - intros Hu. rewrite (update_tempo_skips st Hu). reflexivity.
Qed.

Lemma tempo_history_keeps_last_50_witness :
  (length (tempo_history steady_example) <= 50)%nat
  /\ updates steady_example = true
  /\ tempo_history (update_tempo steady_example)
     = [current_tempo (update_tempo steady_example)].
Proof.
  assert (Hlen : (length (tempo_history steady_example) <= 50)%nat)
    by (cbn; lia).
  assert (Hu : updates steady_example = true) by (vm_compute; reflexivity).
  split; [exact Hlen |]. split; [exact Hu |].
  exact (proj2 (proj2 (@tempo_history_keeps_last_50 steady_example Hlen)) Hu).
Defined.

End TempoHistory.

(** * Properties of the recorder *)

Section RecorderFacts.

Import RecorderState RecorderRun.

Variable bytes : Type.
Variable frombuffer : bytes -> res (list Z).

Lemma every_other_cons (A : Type) (x : A) (a : list A) :
  every_other (x :: a) = x :: every_other (tl a).
Proof. destruct a; reflexivity. Qed.

Lemma every_other_facts (A : Type) (n : nat) :
  forall a : list A,
    (length a <= n)%nat ->
    interleave (every_other a) (every_other (tl a)) = a
    /\ length (every_other a) = ((length a + 1) / 2)%nat
    /\ length (every_other (tl a)) = (length a / 2)%nat.
Proof.
  induction n as [| n IH]; intros a Hlen.
  - destruct a; [repeat split | cbn in Hlen; lia].
  - destruct a as [| x [| y rest]]; [repeat split | repeat split |].
    cbn [tl]. rewrite !every_other_cons. cbn [tl interleave].
    destruct (IH rest) as [Hi [Hl Hr]]; [cbn in Hlen; lia |].
    rewrite Hi. cbn [length]. rewrite Hl, Hr.
    split; [reflexivity |].
    split.
    + replace (S (S (length rest)) + 1)%nat
        with ((length rest + 1) + 1 * 2)%nat by lia.
      rewrite Nat.div_add by lia. lia.
    + replace (S (S (length rest)))%nat with (length rest + 1 * 2)%nat by lia.
      rewrite Nat.div_add by lia. lia.
Qed.

(** X15.  In stereo mode a frame of interleaved samples is split into its
    channels, even positions left and odd positions right: interleaving
    the two gives the frame back, the left channel has one sample more when
    the count is odd, and each channel is rolled into its own buffer, oldest
    samples out. *)
Theorem stereo_frame_is_split :
  forall (r : recorder bytes) (audio_data : bytes) (samples : list Z),
    CHANNELS r = 2%Z ->
    frombuffer audio_data = Ok samples ->
    (2 <= length samples)%nat ->
    (length samples <= length (left_buffer r))%nat ->
    (length samples <= length (right_buffer r))%nat ->
    let left_samples := every_other samples in
    let right_samples := every_other (tl samples) in
    interleave left_samples right_samples = samples
    /\ length left_samples = ((length samples + 1) / 2)%nat
    /\ length right_samples = (length samples / 2)%nat
    /\ update_buffers frombuffer r audio_data
       = Ok (set_right_buffer
               (set_left_buffer r
                  (skipn (length left_samples) (left_buffer r) ++ left_samples))
               (skipn (length right_samples) (right_buffer r) ++ right_samples),
             samples).
Proof.
  intros r audio_data samples Hch Hdec H2 Hl Hr left_samples right_samples.
  destruct (@every_other_facts Z (length samples) samples (le_n _))
    as [Hi [Hll Hlr]].
  fold left_samples in Hi, Hll. fold right_samples in Hi, Hlr.
  split; [exact Hi |]. split; [exact Hll |]. split; [exact Hlr |].
  assert (Hdiv : (length samples / 2 <= length samples)%nat)
    by (apply Nat.Div0.div_le_upper_bound; lia).
  assert (Hdiv1 : ((length samples + 1) / 2 <= length samples)%nat).
  { apply Nat.Div0.div_le_upper_bound. lia. }
  assert (Hpos : (0 < length samples / 2)%nat).
  { apply Nat.div_str_pos. lia. }
  assert (Hpos1 : (0 < (length samples + 1) / 2)%nat).
  { apply Nat.div_str_pos. lia. }
  unfold update_buffers. rewrite Hch. cbn [Z.eqb Pos.eqb]. rewrite Hdec.
  cbn [bind]. fold left_samples. fold right_samples.
  rewrite rolling_write_ok by lia. cbn [bind].
  change (right_buffer (set_left_buffer r _)) with (right_buffer r).
  rewrite rolling_write_ok by lia. reflexivity.
Qed.

Lemma length_every_other (A : Type) (a : list A) :
  (length (every_other a) <= length a)%nat
  /\ (length (every_other (tl a)) <= length a)%nat
  /\ ((2 <= length a)%nat ->
      (0 < length (every_other a))%nat
      /\ (0 < length (every_other (tl a)))%nat).
Proof.
  destruct (@every_other_facts A (length a) a (le_n _)) as [_ [Hl Hr]].
  rewrite Hl, Hr.
  split.
  { destruct (length a) as [| n]; [cbn; lia |].
    apply Nat.Div0.div_le_upper_bound. lia. }
  split; [apply Nat.Div0.div_le_upper_bound; lia |].
  intros H2. split; apply Nat.div_str_pos; lia.
Qed.

(** The update of the buffers returns on a frame of 2 to [size] samples,
    keeps the size of both buffers and touches nothing else. *)
Lemma update_buffers_ok (r : recorder bytes) (audio_data : bytes)
  (samples : list Z) (size : nat) :
  frombuffer audio_data = Ok samples ->
  (2 <= length samples <= size)%nat ->
  length (left_buffer r) = size ->
  length (right_buffer r) = size ->
  exists lb rb : list Z,
    update_buffers frombuffer r audio_data
    = Ok (set_right_buffer (set_left_buffer r lb) rb, samples)
    /\ length lb = size /\ length rb = size.
Proof.
  intros Hdec [H2 Hsz] Hl Hr. unfold update_buffers. rewrite Hdec. cbn [bind].
  destruct (@length_every_other Z samples) as [Hle [Hle' Hpos]].
  destruct (Hpos H2) as [Hp Hp'].
  destruct (CHANNELS r =? 2)%Z.
  - rewrite rolling_write_ok by lia. cbn [bind].
    change (right_buffer (set_left_buffer r _)) with (right_buffer r).
    rewrite rolling_write_ok by lia.
    eexists. eexists. split; [reflexivity |].
    rewrite !length_app, !length_skipn. split; lia.
  - rewrite rolling_write_ok by lia.
    exists (skipn (length samples) (left_buffer r) ++ samples), (right_buffer r).
    split; [destruct r; reflexivity |].
    rewrite length_app, length_skipn. split; lia.
Qed.

Lemma max_z_frame_peak (samples : list Z) :
  samples <> [] -> max_z (map abs16 samples) = Ok (frame_peak samples).
Proof.
  intros Hne. unfold frame_peak.
  destruct samples as [| x rest]; [congruence | reflexivity].
Qed.

Lemma python_max (p c : Z) : (if (p <? c)%Z then c else p) = Z.max p c.
Proof. destruct (Z.ltb_spec p c); lia. Qed.

(** One turn of the processing loop on a queued frame of 2 to [size]
    samples, field by field. *)
Lemma process_step (r : recorder bytes) (audio_data : bytes) (stamp : Q)
  (rest : list (bytes * Q)) (samples : list Z) (size : nat) :
  PyQueue.items (audio_queue r) = (audio_data, stamp) :: rest ->
  frombuffer audio_data = Ok samples ->
  (2 <= length samples <= size)%nat ->
  length (left_buffer r) = size ->
  length (right_buffer r) = size ->
  exists r' : recorder bytes,
    process_audio_iter frombuffer r = Ok r'
    /\ (CHANNELS r' = CHANNELS r
        /\ is_recording r' = is_recording r
        /\ is_paused r' = is_paused r
        /\ recording_sessions r' = recording_sessions r)
    /\ (length (left_buffer r') = size /\ length (right_buffer r') = size)
    /\ (PyQueue.items (audio_queue r') = rest
        /\ PyQueue.maxsize (audio_queue r') = PyQueue.maxsize (audio_queue r))
    /\ (if is_recording r && negb (is_paused r)
        then current_recording r' = current_recording r ++ [samples]
             /\ current_session r'
                = option_map
                    (fun s => set_peak_level s
                                (Z.max (peak_level s) (frame_peak samples)))
                    (current_session r)
        else current_recording r' = current_recording r
             /\ current_session r' = current_session r).
Proof.
  intros Hq Hdec Hsz Hl Hr.
  unfold process_audio_iter, PyQueue.empty, PyQueue.get_nowait.
  rewrite Hq. cbn [negb bind].
  set (r0 := set_audio_queue r _).
  destruct (@update_buffers_ok r0 audio_data samples size Hdec Hsz Hl Hr)
    as [lb [rb [Hbuf [Hlb Hrb]]]].
  rewrite Hbuf. cbn [bind].
  set (r1 := set_right_buffer _ rb).
  change (is_recording r1) with (is_recording r).
  change (is_paused r1) with (is_paused r).
  destruct (is_recording r && negb (is_paused r)).
  - rewrite Hdec. cbn [bind].
    change (current_session (set_current_recording r1 _))
      with (current_session r).
    destruct (current_session r) as [s |] eqn:Hs.
    + rewrite max_z_frame_peak by (destruct samples; [cbn in Hsz; lia | discriminate]).
      cbn [bind catch]. rewrite python_max.
      eexists. split; [reflexivity |]. cbn. rewrite ?Hs.
      repeat split; try reflexivity; assumption.
    + cbn [catch]. eexists. split; [reflexivity |]. cbn. rewrite ?Hs.
      repeat split; try reflexivity; assumption.
  - cbn [catch]. exists r1. split; [reflexivity |]. cbn.
    repeat split; try reflexivity; assumption.
Qed.

(** What a turn of the processing loop leaves in the visualization
    buffers. *)
Lemma process_step_buffers (r r' : recorder bytes) (audio_data : bytes)
  (stamp : Q) (rest : list (bytes * Q)) (samples : list Z) (size : nat) :
  PyQueue.items (audio_queue r) = (audio_data, stamp) :: rest ->
  frombuffer audio_data = Ok samples ->
  (2 <= length samples <= size)%nat ->
  length (left_buffer r) = size ->
  length (right_buffer r) = size ->
  process_audio_iter frombuffer r = Ok r' ->
  left_buffer r'
  = (if (CHANNELS r =? 2)%Z
     then skipn (length (every_other samples)) (left_buffer r)
          ++ every_other samples
     else skipn (length samples) (left_buffer r) ++ samples)
  /\ right_buffer r'
     = (if (CHANNELS r =? 2)%Z
        then skipn (length (every_other (tl samples))) (right_buffer r)
             ++ every_other (tl samples)
        else right_buffer r).
Proof.
  intros Hq Hdec [H2 Hsz] Hl Hr.
  unfold process_audio_iter, PyQueue.empty, PyQueue.get_nowait.
  rewrite Hq. cbn [negb bind].
  set (r0 := set_audio_queue r _).
  unfold update_buffers. rewrite Hdec. cbn [bind].
  change (CHANNELS r0) with (CHANNELS r).
  change (left_buffer r0) with (left_buffer r).
  destruct (@length_every_other Z samples) as [Hle [Hle' Hpos]].
  destruct (Hpos H2) as [Hp Hp'].
  destruct (CHANNELS r =? 2)%Z.
  - rewrite rolling_write_ok by lia. cbn [bind].
    change (right_buffer (set_left_buffer r0 _)) with (right_buffer r).
    rewrite rolling_write_ok by lia. cbn [bind].
    set (r1 := set_right_buffer _ _).
    change (is_recording r1) with (is_recording r).
    change (is_paused r1) with (is_paused r).
    destruct (is_recording r && negb (is_paused r)).
    + try rewrite Hdec. cbn [bind].
      change (current_session (set_current_recording r1 _))
        with (current_session r).
      destruct (current_session r) as [s |].
      * rewrite max_z_frame_peak
          by (destruct samples; [cbn in H2; lia | discriminate]).
        cbn [bind catch]. intros H. injection H as <-. split; reflexivity.
      * cbn [catch]. intros H. injection H as <-. split; reflexivity.
    + cbn [catch]. intros H. injection H as <-. split; reflexivity.
  - rewrite rolling_write_ok by lia. cbn [bind].
    set (r1 := set_left_buffer _ _).
    change (is_recording r1) with (is_recording r).
    change (is_paused r1) with (is_paused r).
    destruct (is_recording r && negb (is_paused r)).
    + try rewrite Hdec. cbn [bind].
      change (current_session (set_current_recording r1 _))
        with (current_session r).
      destruct (current_session r) as [s |].
      * rewrite max_z_frame_peak
          by (destruct samples; [cbn in H2; lia | discriminate]).
        cbn [bind catch]. intros H. injection H as <-. split; reflexivity.
      * cbn [catch]. intros H. injection H as <-. split; reflexivity.
    + cbn [catch]. intros H. injection H as <-. split; reflexivity.
Qed.

Lemma deliver_step (r : recorder bytes) (audio_data : bytes) (now : Q)
  (samples : list Z) (size : nat) :
  PyQueue.items (audio_queue r) = [] ->
  (0 < PyQueue.maxsize (audio_queue r))%nat ->
  frombuffer audio_data = Ok samples ->
  (2 <= length samples <= size)%nat ->
  length (left_buffer r) = size ->
  length (right_buffer r) = size ->
  exists r' : recorder bytes,
    deliver frombuffer r audio_data now = Ok r'
    /\ (CHANNELS r' = CHANNELS r
        /\ is_recording r' = is_recording r
        /\ is_paused r' = is_paused r
        /\ recording_sessions r' = recording_sessions r)
    /\ (length (left_buffer r') = size /\ length (right_buffer r') = size)
    /\ (PyQueue.items (audio_queue r') = []
        /\ PyQueue.maxsize (audio_queue r') = PyQueue.maxsize (audio_queue r))
    /\ (if is_recording r && negb (is_paused r)
        then current_recording r' = current_recording r ++ [samples]
             /\ current_session r'
                = option_map
                    (fun s => set_peak_level s
                                (Z.max (peak_level s) (frame_peak samples)))
                    (current_session r)
        else current_recording r' = current_recording r
             /\ current_session r' = current_session r).
Proof.
  intros Hq Hpos Hdec Hsz Hl Hr.
  unfold deliver, Recorder.audio_callback, PyQueue.put_nowait, PyQueue.full.
  rewrite Hq. cbn [length app].
  destruct (Nat.ltb_spec 0 (PyQueue.maxsize (audio_queue r))) as [_ | H]; [| lia].
  destruct (Nat.leb_spec (PyQueue.maxsize (audio_queue r)) 0) as [H | _]; [lia |].
  cbn [andb catch bind].
  set (r0 := set_audio_queue r _).
  exact (@process_step r0 audio_data now [] samples size eq_refl Hdec Hsz Hl Hr).
Qed.

Lemma set_peak_level_same (s : session) : set_peak_level s (peak_level s) = s.
Proof. destruct s; reflexivity. Qed.

Lemma run_recording (size : nat) (events : list (event bytes)) :
  forall (r : recorder bytes) (s : session),
    is_recording r = true ->
    current_session r = Some s ->
    PyQueue.items (audio_queue r) = [] ->
    (0 < PyQueue.maxsize (audio_queue r))%nat ->
    length (left_buffer r) = size ->
    length (right_buffer r) = size ->
    Forall (frame_ok frombuffer size) events ->
    exists r' : recorder bytes,
      run frombuffer r events = Ok r'
      /\ is_recording r' = true
      /\ current_session r'
         = Some (set_peak_level s
                   (peak_from (peak_level s)
                      (unpaused frombuffer (is_paused r) events)))
      /\ current_recording r'
         = current_recording r ++ unpaused frombuffer (is_paused r) events
      /\ recording_sessions r' = recording_sessions r.
Proof.
  induction events as [| ev events IH]; intros r s Hrec Hs Hq Hpos Hl Hr Hok.
  - exists r. cbn. rewrite set_peak_level_same, app_nil_r.
    repeat split; assumption.
  - apply Forall_cons_iff in Hok. destruct Hok as [Hev Hrest].
    destruct ev as [data now |].
    + destruct Hev as [samples [Hdec Hsz]].
      destruct (@deliver_step r data now samples size Hq Hpos Hdec Hsz Hl Hr)
        as [r1 [Hrun [[_ [Hrec1 [Hp1 Hss1]]] [[Hl1 Hr1] [[Hq1 Hm1] Hact]]]]].
      cbn [run]. rewrite Hrun. cbn [bind].
      rewrite Hrec in Hact. cbn [andb] in Hact.
      cbn [unpaused]. rewrite Hdec.
      destruct (is_paused r) eqn:Hp; cbn [negb] in Hact;
        destruct Hact as [Hcr Hcs].
      * destruct (IH r1 s) as [r' [Hrun' [Hrec' [Hs' [Hcr' Hss']]]]];
          try assumption; try congruence.
        exists r'. rewrite Hp1 in Hs', Hcr'.
        repeat split; try assumption; congruence.
      * rewrite Hs in Hcs. cbn [option_map] in Hcs.
        destruct (IH r1 _ (eq_trans Hrec1 Hrec) Hcs) as
            [r' [Hrun' [Hrec' [Hs' [Hcr' Hss']]]]];
          try assumption; try congruence.
        exists r'. rewrite Hp1 in Hs', Hcr'.
        split; [exact Hrun' |]. split; [exact Hrec' |].
        split; [exact Hs' |].
        split; [| congruence].
        rewrite Hcr', Hcr, <- app_assoc. reflexivity.
    + cbn [run unpaused]. unfold toggle_pause. rewrite Hrec.
      destruct (IH (set_is_paused r (negb (is_paused r))) s)
        as [r' Hr']; try assumption.
      exists r'. exact Hr'.
Qed.

(** X16.  A recording session holds what was captured while it was not paused.
    When the record key starts a session at [t0], frames of 2 to [size]
    samples are captured and processed with pause keys in between, and the
    record key stops the session at [t1], one session is added to the
    recorded ones: it starts at [t0], lasts [t1 - t0], holds exactly the
    frames captured while not paused, in order, and its peak is the largest
    peak of those frames.  The recorder ends neither recording nor
    paused. *)
Theorem session_holds_unpaused_frames :
  forall (r : recorder bytes) (events : list (event bytes)) (t0 t1 : Q)
         (size : nat),
    is_recording r = false ->
    PyQueue.items (audio_queue r) = [] ->
    (0 < PyQueue.maxsize (audio_queue r))%nat ->
    length (left_buffer r) = size ->
    length (right_buffer r) = size ->
    Forall (frame_ok frombuffer size) events ->
    exists r0 r1 r2 : recorder bytes,
      toggle_recording r t0 = Returned r0
      /\ run frombuffer r0 events = Ok r1
      /\ toggle_recording r1 t1 = Returned r2
      /\ recording_sessions r2
         = recording_sessions r
           ++ [{| start_time := t0;
                  duration := t1 - t0;
                  frames := unpaused frombuffer false events;
                  peak_level := peak_from 0 (unpaused frombuffer false events);
                  filename := None |}]
      /\ is_recording r2 = false
      /\ is_paused r2 = false.
Proof.
  intros r events t0 t1 size Hoff Hq Hpos Hl Hr Hok.
  exists (start_recording r t0).
  destruct (@run_recording size events (start_recording r t0)
              {| start_time := t0; duration := 0; frames := [];
                 peak_level := 0; filename := None |})
    as [r1 [Hrun [Hrec [Hs [Hcr Hss]]]]]; try assumption; try reflexivity.
  exists r1. eexists.
  split; [unfold toggle_recording; rewrite Hoff; reflexivity |].
  split; [exact Hrun |].
  unfold toggle_recording, stop_recording. rewrite Hrec. cbn [negb].
  change (current_session (set_is_paused (set_is_recording r1 false) false))
    with (current_session r1).
  rewrite Hs. cbv zeta.
  split; [reflexivity |]. cbn. rewrite Hss, Hcr. cbn.
  repeat split; reflexivity.
Qed.

(** X17.  Frames captured while the recorder is stopped or paused are shown but
    not recorded: a turn of the processing loop takes the frame off the
    queue and rolls it into the visualization buffers (in stereo the
    even-indexed samples into the left one and the odd-indexed into the
    right one, in mono the whole frame into the left one, the right one
    untouched; the oldest entries leave and the sizes stay), and leaves the
    current recording, the current session, the recorded sessions and the
    two flags as they are. *)
Theorem inactive_frame_is_not_recorded :
  forall (r : recorder bytes) (audio_data : bytes) (stamp : Q)
         (rest : list (bytes * Q)) (samples : list Z) (size : nat),
    PyQueue.items (audio_queue r) = (audio_data, stamp) :: rest ->
    frombuffer audio_data = Ok samples ->
    (2 <= length samples <= size)%nat ->
    length (left_buffer r) = size ->
    length (right_buffer r) = size ->
    is_recording r = false \/ is_paused r = true ->
    exists r' : recorder bytes,
      process_audio_iter frombuffer r = Ok r'
      /\ current_recording r' = current_recording r
      /\ current_session r' = current_session r
      /\ recording_sessions r' = recording_sessions r
      /\ is_recording r' = is_recording r
      /\ is_paused r' = is_paused r
      /\ PyQueue.items (audio_queue r') = rest
      /\ left_buffer r'
         = (if (CHANNELS r =? 2)%Z
            then skipn (length (every_other samples)) (left_buffer r)
                 ++ every_other samples
            else skipn (length samples) (left_buffer r) ++ samples)
      /\ right_buffer r'
         = (if (CHANNELS r =? 2)%Z
            then skipn (length (every_other (tl samples))) (right_buffer r)
                 ++ every_other (tl samples)
            else right_buffer r)
      /\ length (left_buffer r') = size
      /\ length (right_buffer r') = size.
Proof.
  intros r audio_data stamp rest samples size Hq Hdec Hsz Hl Hr Hoff.
  destruct (@process_step r audio_data stamp rest samples size Hq Hdec Hsz Hl Hr)
    as [r' [Hrun [[_ [Hrec [Hpau Hss]]] [[Hl' Hr'] [[Hq' _] Hact]]]]].
  destruct (@process_step_buffers r r' audio_data stamp rest samples size
              Hq Hdec Hsz Hl Hr Hrun) as [Hlb Hrb].
  assert (Hinactive : is_recording r && negb (is_paused r) = false).
  { destruct Hoff as [-> | ->]; [reflexivity |].
    destruct (is_recording r); reflexivity. }
  rewrite Hinactive in Hact. destruct Hact as [Hcr Hcs].
  exists r'.
  split; [exact Hrun |]. split; [exact Hcr |]. split; [exact Hcs |].
  split; [exact Hss |]. split; [exact Hrec |]. split; [exact Hpau |].
  split; [exact Hq' |]. split; [exact Hlb |]. split; [exact Hrb |].
  split; [exact Hl' | exact Hr'].
Qed.

Lemma abs16_range (x : Z) : (-32768 <= abs16 x <= 32767)%Z.
Proof.
  unfold abs16, wrap16.
  pose proof (Z.mod_pos_bound (Z.abs x + 32768) 65536). lia.
Qed.

Lemma abs16_in_range (x : Z) :
  (-32768 < x <= 32767)%Z -> abs16 x = Z.abs x.
Proof.
  intros Hx. unfold abs16, wrap16. rewrite Z.mod_small by lia. lia.
Qed.

Lemma fold_left_max_spec (rest : list Z) :
  forall x : Z,
    (x <= fold_left Z.max rest x)%Z
    /\ Forall (fun y => (y <= fold_left Z.max rest x)%Z) rest
    /\ In (fold_left Z.max rest x) (x :: rest).
Proof.
  induction rest as [| y rest IH]; intros x.
  - cbn. repeat split; [lia | constructor | left; reflexivity].
  - cbn [fold_left]. destruct (IH (Z.max x y)) as [Hge [Hall Hin]].
    split; [lia |]. split; [constructor; [lia | exact Hall] |].
    destruct Hin as [Heq | Hin]; [| right; right; exact Hin].
    rewrite <- Heq. destruct (Z.max_spec x y) as [[_ ->] | [_ ->]];
      [right; left | left]; reflexivity.
Qed.

Lemma frame_peak_spec (samples : list Z) :
  samples <> [] ->
  In (frame_peak samples) (map abs16 samples)
  /\ forall x, In x samples -> (abs16 x <= frame_peak samples)%Z.
Proof.
  intros Hne. destruct samples as [| x0 rest]; [congruence |].
  unfold frame_peak. cbn [map max_z].
  destruct (fold_left_max_spec (map abs16 rest) (abs16 x0)) as [Hge [Hall Hin]].
  split; [exact Hin |].
  intros x [<- | Hx]; [exact Hge |].
  rewrite Forall_forall in Hall. apply Hall. apply in_map. exact Hx.
Qed.

(** X18.  A frame captured while recording and not paused is appended to the
    current recording, and the peak of the session becomes the larger of
    the old peak and the largest 16-bit magnitude in the frame.  The peak
    never decreases and stays in [0, 32767]; every sample other than
    -32768 is within it; the magnitude of -32768 wraps to -32768 in 16 bits,
    so that a frame of only full-scale negative samples leaves the peak
    where it was. *)
Theorem active_frame_is_recorded_with_its_peak :
  forall (r : recorder bytes) (audio_data : bytes) (stamp : Q)
         (rest : list (bytes * Q)) (samples : list Z) (size : nat)
         (s : session),
    PyQueue.items (audio_queue r) = (audio_data, stamp) :: rest ->
    frombuffer audio_data = Ok samples ->
    (2 <= length samples <= size)%nat ->
    length (left_buffer r) = size ->
    length (right_buffer r) = size ->
    is_recording r = true ->
    is_paused r = false ->
    current_session r = Some s ->
    (0 <= peak_level s <= 32767)%Z ->
    exists (r' : recorder bytes) (s' : session),
      process_audio_iter frombuffer r = Ok r'
      /\ current_recording r' = current_recording r ++ [samples]
      /\ current_session r' = Some s'
      /\ start_time s' = start_time s
      /\ peak_level s' = Z.max (peak_level s) (frame_peak samples)
      /\ (peak_level s <= peak_level s' <= 32767)%Z
      /\ (forall x, In x samples -> (-32768 < x <= 32767)%Z ->
                    (Z.abs x <= peak_level s')%Z)
      /\ (Forall (fun x => x = (-32768)%Z) samples ->
          peak_level s' = peak_level s).
Proof.
  intros r audio_data stamp rest samples size s Hq Hdec Hsz Hl Hr
         Hrec Hpause Hs Hpeak.
  destruct (@process_step r audio_data stamp rest samples size Hq Hdec Hsz Hl Hr)
    as [r' [Hrun [_ [_ [_ Hact]]]]].
  rewrite Hrec, Hpause in Hact. cbn [andb negb] in Hact.
  destruct Hact as [Hcr Hcs]. rewrite Hs in Hcs. cbn [option_map] in Hcs.
  assert (Hne : samples <> []).
  { destruct samples; [cbn in Hsz; lia | discriminate]. }
  destruct (frame_peak_spec Hne) as [Hin Hall].
  apply in_map_iff in Hin. destruct Hin as [x0 [Hx0 Hx0in]].
  pose proof (abs16_range x0) as Hrange. rewrite Hx0 in Hrange.
  eexists. eexists. split; [exact Hrun |]. split; [exact Hcr |].
  split; [exact Hcs |]. cbn [start_time peak_level set_peak_level].
  split; [reflexivity |]. split; [reflexivity |]. split; [lia |]. split.
  - intros x Hx Hxr. pose proof (Hall x Hx) as Hle.
    rewrite (abs16_in_range Hxr) in Hle. lia.
  - intros Hfull.
    assert (Hp : frame_peak samples = (-32768)%Z).
    { rewrite <- Hx0. rewrite Forall_forall in Hfull.
      rewrite (Hfull x0 Hx0in). reflexivity. }
    rewrite Hp. lia.
Qed.

Lemma update_buffers_flags (r r1 : recorder bytes) (audio_data : bytes)
  (samples : list Z) :
  update_buffers frombuffer r audio_data = Ok (r1, samples) ->
  is_recording r1 = is_recording r /\ is_paused r1 = is_paused r.
Proof.
  unfold update_buffers.
  destruct (CHANNELS r =? 2)%Z; destruct (frombuffer audio_data); cbn [bind];
    try discriminate.
  - destruct (Np.rolling_write (left_buffer r) _); cbn [bind]; try discriminate.
    destruct (Np.rolling_write _ _); cbn [bind]; try discriminate.
    intros H. injection H as <- _. split; reflexivity.
  - destruct (Np.rolling_write (left_buffer r) _); cbn [bind]; try discriminate.
    intros H. injection H as <- _. split; reflexivity.
Qed.

Lemma process_audio_iter_flags (r r' : recorder bytes) :
  process_audio_iter frombuffer r = Ok r' ->
  is_recording r' = is_recording r /\ is_paused r' = is_paused r.
Proof.
  unfold process_audio_iter, PyQueue.empty, PyQueue.get_nowait.
  destruct (PyQueue.items (audio_queue r)) as [| [audio_data stamp] rest].
  - cbn. intros H. injection H as <-. split; reflexivity.
  - cbn [negb bind].
    set (r0 := set_audio_queue r _).
    destruct (update_buffers frombuffer r0 audio_data) as [[r1 samples] | e]
      eqn:Hbuf; cbn [bind].
    + destruct (update_buffers_flags _ _ Hbuf) as [H1 H2].
      change (is_recording r0) with (is_recording r) in H1.
      change (is_paused r0) with (is_paused r) in H2.
      destruct (is_recording r1 && negb (is_paused r1)).
      * destruct (frombuffer audio_data) as [frame | e]; cbn [bind].
        -- change (current_session (set_current_recording r1 _))
             with (current_session r1).
           destruct (current_session r1) as [s |].
           ++ destruct (max_z (map abs16 samples)) as [m | e]; cbn [bind catch].
              ** intros H. injection H as <-. cbn. split; assumption.
              ** destruct (exn_eqb e QueueEmpty); intros H;
                   [injection H as <-; split; reflexivity | discriminate H].
           ++ cbn [catch]. intros H. injection H as <-. cbn. split; assumption.
        -- cbn [catch]. destruct (exn_eqb e QueueEmpty); intros H;
             [injection H as <-; split; reflexivity | discriminate H].
      * cbn [catch]. intros H. injection H as <-. split; assumption.
    + cbn [catch]. destruct (exn_eqb e QueueEmpty); intros H;
        [injection H as <-; split; reflexivity | discriminate H].
Qed.

(** X19.  A paused recorder is always a recording one: if that holds for a
    recorder, it holds after each of its handlers and after a turn of the
    processing loop.  Stopping, however the handler ends, leaves the
    recorder neither recording nor paused; the record key flips the
    recording flag; pause and stop do nothing when no recording runs. *)
Theorem recorder_flags_stay_consistent :
  forall (r : recorder bytes) (now : Q),
    consistent r ->
    consistent (start_recording r now)
    /\ consistent (toggle_pause r)
    /\ consistent (clear_recordings r)
    /\ (forall r', stop_recording r now = Returned r'
                   \/ stop_recording r now = RaisedTypeError r' ->
                   is_recording r' = false /\ is_paused r' = false)
    /\ (forall r', toggle_recording r now = Returned r'
                   \/ toggle_recording r now = RaisedTypeError r' ->
                   consistent r'
                   /\ is_recording r' = negb (is_recording r))
    /\ (forall r', process_audio_iter frombuffer r = Ok r' -> consistent r')
    /\ (is_recording r = false ->
        toggle_pause r = r /\ stop_recording r now = Returned r).
Proof.
  intros r now Hc. unfold consistent in *.
  assert (Hstop : forall r', stop_recording r now = Returned r'
                             \/ stop_recording r now = RaisedTypeError r' ->
                             is_recording r' = false /\ is_paused r' = false).
  { intros r'. unfold stop_recording.
    destruct (is_recording r) eqn:Hrec.
    - change (current_session (set_is_paused (set_is_recording r false) false))
        with (current_session r).
      destruct (current_session r); cbv zeta;
        intros [H | H]; try discriminate H; injection H as <-;
        split; reflexivity.
    - intros [H | H]; [| discriminate H]. injection H as <-.
      split; [exact Hrec |].
      destruct (is_paused r) eqn:Hp; [| reflexivity].
      specialize (Hc eq_refl). congruence. }
  split; [cbn; intros H; reflexivity |].
  split.
  { unfold toggle_pause. destruct (is_recording r) eqn:Hrec; cbn;
      [intros _; exact Hrec | intros Hp; specialize (Hc Hp); congruence]. }
  split; [cbn; exact Hc |].
  split; [exact Hstop |].
  split.
  { intros r'. unfold toggle_recording.
    destruct (is_recording r) eqn:Hrec; cbn [negb].
    - intros H. destruct (Hstop r' H) as [H1 H2]. rewrite H1, H2.
      split; [intros H'; discriminate H' | reflexivity].
    - intros [H | H]; [| discriminate H]. injection H as <-.
      split; [cbn; intros _; reflexivity | reflexivity]. }
  split.
  { intros r' Hrun. destruct (process_audio_iter_flags _ Hrun) as [-> ->].
    exact Hc. }
  intros Hrec. unfold toggle_pause, stop_recording. rewrite Hrec.
  split; reflexivity.
Qed.

End RecorderFacts.

Section RecorderExamples.

Import RecorderState RecorderRun.

Lemma stereo_frame_is_split_witness :
  CHANNELS small_recorder = 2%Z
  /\ frombuffer_stub [1; -2; 3; -4]%Z = Ok [1; -2; 3; -4]%Z
  /\ (2 <= length [1; -2; 3; -4]%Z)%nat
  /\ update_buffers frombuffer_stub small_recorder [1; -2; 3; -4]%Z
     = Ok (set_right_buffer
             (set_left_buffer small_recorder [0; 0; 1; 3]%Z) [0; 0; -2; -4]%Z,
           [1; -2; 3; -4]%Z).
Proof.
  assert (H2 : (2 <= length [1; -2; 3; -4]%Z)%nat) by (cbn; lia).
  split; [reflexivity |]. split; [reflexivity |]. split; [exact H2 |].
  refine (proj2 (proj2 (proj2
            (@stereo_frame_is_split (list Z) frombuffer_stub small_recorder
               [1; -2; 3; -4]%Z [1; -2; 3; -4]%Z eq_refl eq_refl H2 _ _))));
    cbn; lia.
Defined.

Lemma example_events_ok : Forall (frame_ok frombuffer_stub 4) example_events.
Proof.
  repeat constructor;
    (eexists; split; [reflexivity | cbn; lia]).
Qed.

Lemma session_holds_unpaused_frames_witness :
  is_recording small_recorder = false
  /\ Forall (frame_ok frombuffer_stub 4) example_events
  /\ exists r0 r1 r2 : recorder (list Z),
      toggle_recording small_recorder 10 = Returned r0
      /\ run frombuffer_stub r0 example_events = Ok r1
      /\ toggle_recording r1 13 = Returned r2
      /\ recording_sessions r2
         = recording_sessions small_recorder
           ++ [{| start_time := 10;
                  duration := 13 - 10;
                  frames := unpaused frombuffer_stub false example_events;
                  peak_level :=
                    peak_from 0 (unpaused frombuffer_stub false example_events);
                  filename := None |}]
      /\ is_recording r2 = false
      /\ is_paused r2 = false.
Proof.
  split; [reflexivity |]. split; [exact example_events_ok |].
  refine (@session_holds_unpaused_frames (list Z) frombuffer_stub
            small_recorder example_events 10 13 4 eq_refl eq_refl _ eq_refl
            eq_refl example_events_ok).
  cbn. lia.
Defined.

(** The session of the witness holds the first and the third frame, and
    its peak is 5: the sample -32768 of the third frame does not count. *)
Example example_session :
  unpaused frombuffer_stub false example_events
  = [[1; -2; 3; -4]; [5; -32768]]%Z
  /\ peak_from 0 (unpaused frombuffer_stub false example_events) = 5%Z.
Proof. split; reflexivity. Qed.

Lemma inactive_frame_is_not_recorded_witness :
  PyQueue.items (audio_queue idle_example) = [([7; 8]%Z, 1)]
  /\ (is_recording idle_example = false \/ is_paused idle_example = true)
  /\ exists r' : recorder (list Z),
      process_audio_iter frombuffer_stub idle_example = Ok r'
      /\ current_recording r' = current_recording idle_example
      /\ current_session r' = current_session idle_example
      /\ recording_sessions r' = recording_sessions idle_example
      /\ PyQueue.items (audio_queue r') = []
      /\ left_buffer r' = [0; 0; 0; 7]%Z
      /\ right_buffer r' = [0; 0; 0; 8]%Z.
Proof.
  split; [reflexivity |]. split; [left; reflexivity |].
  assert (Hsz : (2 <= length [7; 8]%Z <= 4)%nat) by (cbn; lia).
  destruct (@inactive_frame_is_not_recorded (list Z) frombuffer_stub
              idle_example [7; 8]%Z 1 [] [7; 8]%Z 4 eq_refl eq_refl Hsz eq_refl
              eq_refl (or_introl eq_refl))
    as [r' [Hrun [Hcr [Hcs [Hss [_ [_ [Hq [Hlb [Hrb _]]]]]]]]]].
  exists r'.
  split; [exact Hrun |]. split; [exact Hcr |]. split; [exact Hcs |].
  split; [exact Hss |]. split; [exact Hq |].
  split; [exact Hlb | exact Hrb].
Defined.

Lemma active_frame_is_recorded_with_its_peak_witness :
  is_recording recording_example = true
  /\ is_paused recording_example = false
  /\ exists (r' : recorder (list Z)) (s' : session),
      process_audio_iter frombuffer_stub recording_example = Ok r'
      /\ current_recording r' = [[7; -32768]%Z]
      /\ current_session r' = Some s'
      /\ peak_level s' = 7%Z.
Proof.
  split; [reflexivity |]. split; [reflexivity |].
  destruct (@active_frame_is_recorded_with_its_peak (list Z) frombuffer_stub
              recording_example [7; -32768]%Z 1 [] [7; -32768]%Z 4
              {| start_time := 0; duration := 0; frames := [];
                 peak_level := 0; filename := None |}
              eq_refl eq_refl)
    as [r' [s' [Hrun [Hcr [Hs [_ [Hpeak _]]]]]]];
    try reflexivity; try (cbn; lia).
  exists r', s'. repeat split; assumption.
Defined.

Lemma recorder_flags_stay_consistent_witness :
  consistent small_recorder
  /\ consistent (start_recording small_recorder 1)
  /\ (toggle_pause small_recorder = small_recorder
      /\ stop_recording small_recorder 1 = Returned small_recorder).
Proof.
  assert (Hc : consistent small_recorder) by (intros H; discriminate H).
  split; [exact Hc |].
  destruct (@recorder_flags_stay_consistent (list Z) frombuffer_stub
              small_recorder 1 Hc) as [Hstart [_ [_ [_ [_ [_ Hidle]]]]]].
  split; [exact Hstart | exact (Hidle eq_refl)].
Defined.

End RecorderExamples.

(** * Silence through the effects *)

Section Silence.

Import Effects EchoRun EchoFacts EchoRuns EffectsInv.

Variable butter_filtfilt : design -> list Q -> option (list Q).
Variable np_tanh : Q -> Q.

Lemma silent_nth (a : list Q) (i : nat) : silent a -> nth i a 0 == 0.
Proof.
  intros Ha. destruct (Nat.lt_ge_cases i (length a)) as [Hi | Hi].
  - unfold silent in Ha. rewrite Forall_forall in Ha. apply Ha.
    apply nth_In. exact Hi.
  - rewrite nth_overflow by exact Hi. reflexivity.
Qed.

Lemma silent_firstn (a : list Q) (k : nat) : silent a -> silent (firstn k a).
Proof.
  unfold silent. intros Ha. rewrite <- (firstn_skipn k a) in Ha.
  apply Forall_app in Ha. apply Ha.
Qed.

Lemma silent_skipn (a : list Q) (k : nat) : silent a -> silent (skipn k a).
Proof.
  unfold silent. intros Ha. rewrite <- (firstn_skipn k a) in Ha.
  apply Forall_app in Ha. apply Ha.
Qed.

Lemma silent_reverb_loop (decay : Q) (delay_samples todo : nat) :
  forall (i : nat) (output : list Q),
    silent output -> silent (reverb_loop decay delay_samples todo i output).
Proof.
  induction todo as [| todo IH]; intros i output Hs; [exact Hs |].
  cbn [reverb_loop]. apply IH.
  destruct (delay_samples <=? i)%nat; [| exact Hs].
  unfold list_set. apply Forall_app. split; [apply silent_firstn; exact Hs |].
  constructor; [| apply silent_skipn; exact Hs].
  rewrite (silent_nth i Hs), (silent_nth (i - delay_samples) Hs). ring.
Qed.

Lemma silent_mix (feedback : Q) (chunk delayed : list Q) :
  silent chunk -> silent delayed -> silent (mix feedback chunk delayed).
Proof.
  intros Hc. revert delayed.
  induction Hc as [| x chunk Hx Hc IH]; intros delayed Hd;
    [destruct delayed; constructor |].
  destruct delayed as [| b delayed]; [constructor; assumption |].
  inversion Hd as [| ? ? Hb Hd']; subst.
  cbn [mix]. constructor; [| apply IH; exact Hd'].
  cbv beta in Hx, Hb. rewrite Hx, Hb. ring.
Qed.

(** X7.  Silence in, silence out.  When the delay line holds no signal, a
    frame without signal leaves the four stages, in the order of the
    processing loop and whatever is switched on, as a frame without signal
    and of the same length, and the delay line still holds none; this
    assumes of the libraries that the filter maps silence to silence and
    keeps the length, and that [tanh] is 0 at 0. *)
Theorem silence_stays_silent :
  forall (st : processor) (audio_chunk : list Q),
    (forall d x y, silent x -> butter_filtfilt d x = Some y -> silent y) ->
    length_preserving butter_filtfilt ->
    (forall x, x == 0 -> np_tanh x == 0) ->
    0 <= echo_delay st ->
    (0 < length audio_chunk <= length (echo_buffer st))%nat ->
    silent audio_chunk ->
    silent (echo_buffer st) ->
    exists (st' : processor) (out : list Q),
      chain butter_filtfilt np_tanh st audio_chunk = Ok (st', out)
      /\ silent out
      /\ length out = length audio_chunk
      /\ silent (echo_buffer st')
      /\ length (echo_buffer st') = length (echo_buffer st).
Proof.
  intros st chunk Hfs Hlp Ht Hd Hfit Hc Hb. unfold chain.
  set (p1 := apply_filter butter_filtfilt st chunk).
  set (p2 := apply_distortion np_tanh st p1).
  set (p3 := apply_reverb st p2).
  assert (H1 : silent p1).
  { unfold p1, apply_filter. destruct (filter_enabled st); cbn [negb];
      [| exact Hc].
    match goal with
    | |- context [butter_filtfilt ?d chunk] =>
        destruct (butter_filtfilt d chunk) as [y |] eqn:Hy
    end; [exact (Hfs _ _ _ Hc Hy) | exact Hc]. }
  assert (H2 : silent p2).
  { unfold p2, apply_distortion. destruct (distortion_enabled st); cbn [negb];
      [| exact H1].
    unfold silent in *. rewrite !Forall_map.
    revert H1. apply Forall_impl. intros x Hx.
    rewrite (Ht (x * distortion_gain st)); [ring | rewrite Hx; ring]. }
  assert (H3 : silent p3).
  { unfold p3, apply_reverb. destruct (reverb_enabled st); cbn [negb];
      [| exact H2].
    unfold silent. rewrite Forall_map.
    pose proof (silent_reverb_loop (reverb_decay st)
                  (Z.to_nat (int ((5 # 100) * inject_Z RATE)))
                  (length p2) 0 H2) as Hloop.
    revert Hloop. apply Forall_impl. intros x Hx. rewrite Hx. ring. }
  assert (Hlen : length p3 = length chunk).
  { unfold p3, p2, p1.
    rewrite length_apply_reverb, length_apply_distortion.
    apply length_apply_filter. right. exact Hlp. }
  destruct (echo_enabled st) eqn:Hon.
  - pose proof (int_nonneg Hd) as Hd'. fold (delay_samples st) in Hd'.
    rewrite apply_echo_enabled by (try assumption; rewrite Hlen; exact Hfit).
    eexists. eexists. split; [reflexivity |].
    assert (Hout : silent (mix (echo_feedback st) p3
                             (skipn (Z.to_nat (delay_samples st))
                                (echo_buffer st)))).
    { apply silent_mix; [exact H3 | apply silent_skipn; exact Hb]. }
    split; [exact Hout |]. split; [rewrite length_mix; exact Hlen |].
    cbn [echo_buffer set_echo_buffer]. split.
    + apply Forall_app. split; [apply silent_skipn; exact Hb | exact Hout].
    + rewrite length_app, length_skipn, length_mix. lia.
  - exists st, p3. unfold apply_echo. rewrite Hon. cbn [negb].
    repeat split; assumption.
Qed.

End Silence.

Lemma silence_stays_silent_witness :
  EffectsInv.length_preserving EffectsInv.filter_stub
  /\ 0 <= Effects.echo_delay (EffectsInv.press_all Effects.init ["f"; "d"; "r"; "e"]%string)
  /\ EffectsInv.silent [0; 0]
  /\ exists (st' : Effects.processor) (out : list Q),
      EffectsInv.chain EffectsInv.filter_stub EffectsInv.tanh_stub
        (EffectsInv.press_all Effects.init ["f"; "d"; "r"; "e"]%string) [0; 0]
      = Ok (st', out)
      /\ EffectsInv.silent out.
Proof.
  assert (Hlp : EffectsInv.length_preserving EffectsInv.filter_stub).
  { intros d x y H. injection H as <-. apply length_map. }
  assert (Hd : 0 <= Effects.echo_delay
                      (EffectsInv.press_all Effects.init
                         ["f"; "d"; "r"; "e"]%string)).
  { cbn. lra. }
  assert (Hs : EffectsInv.silent [0; 0]) by (repeat constructor).
  split; [exact Hlp |]. split; [exact Hd |]. split; [exact Hs |].
  destruct (@silence_stays_silent EffectsInv.filter_stub EffectsInv.tanh_stub
              (EffectsInv.press_all Effects.init ["f"; "d"; "r"; "e"]%string)
              [0; 0])
    as [st' [out [Hrun [Hout _]]]].
  - intros d x y Hx H. injection H as <-. unfold EffectsInv.silent in *.
    rewrite Forall_map. revert Hx. apply Forall_impl. intros v Hv.
    rewrite Hv. ring.
  - exact Hlp.
  - intros x Hx. unfold EffectsInv.tanh_stub. rewrite Hx. reflexivity.
  - exact Hd.
  - cbn [length].
    change (length (Effects.echo_buffer _))
      with (length (Np.zeros (Z.to_nat (Effects.RATE * 2)))).
    unfold Np.zeros. rewrite repeat_length.
    split; [lia | apply Nat.leb_le; vm_compute; reflexivity].
  - exact Hs.
  - change (Effects.echo_buffer _) with (Np.zeros (Z.to_nat (Effects.RATE * 2))).
    unfold EffectsInv.silent, Np.zeros. apply Forall_forall.
    intros x Hx. apply repeat_spec in Hx. rewrite Hx. reflexivity.
  - exists st', out. split; [exact Hrun | exact Hout].
Defined.
